(** * Binary space partitioning for constructive solid geometry

  A shallow embedding of the BSP engine of the solid-geometry project
  ([Vector], [Plane], [Polygon], [Geometry], [BSPNode] and the three boolean
  operators) and the proofs of its specification.

  Numbers are JavaScript numbers, that is IEEE 754 binary64 values: they
  are modelled by Rocq's primitive floats, whose operations round the same
  way.  Objects that the program shares by reference and mutates in place
  (polygons, vertex arrays, polygon arrays, geometries) live in a store and
  are named by their address; a tree node is owned by exactly one parent
  and is threaded through the functions that assign to its fields. *)

From Stdlib Require Import Floats ZArith Lia.
From stdpp Require Import base list.

#[local] Set Warnings "-inexact-float,-register-all".
#[local] Open Scope nat_scope.

(** ** Vectors *)

Record Vector : Type := new_Vector { x : float; y : float; z : float }.

Definition Vector_plus (this other : Vector) : Vector :=
  new_Vector (x this + x other)%float (y this + y other)%float (z this + z other)%float.

Definition Vector_minus (this other : Vector) : Vector :=
  new_Vector (x this - x other)%float (y this - y other)%float (z this - z other)%float.

Definition Vector_times (this : Vector) (k : float) : Vector :=
  new_Vector (x this * k)%float (y this * k)%float (z this * k)%float.

Definition Vector_divide (this : Vector) (k : float) : Vector :=
  new_Vector (x this / k)%float (y this / k)%float (z this / k)%float.

Definition Vector_dot (this other : Vector) : float :=
  (x this * x other + y this * y other + z this * z other)%float.

Definition Vector_cross (this other : Vector) : Vector :=
  new_Vector (y this * z other - z this * y other)%float
             (z this * x other - x this * z other)%float
             (x this * y other - y this * x other)%float.

(** m^2 = x^2 + y^2 + z^2 *)
Definition Vector_magnitude (this : Vector) : float :=
  PrimFloat.sqrt (Vector_dot this this).

Definition Vector_flip (this : Vector) : Vector := Vector_times this (-1)%float.

Definition Vector_unit (this : Vector) : Vector :=
  Vector_divide this (Vector_magnitude this).

(** lerp = (1-t)*u + t*v *)
Definition Vector_lerp (this other : Vector) (k : float) : Vector :=
  Vector_plus (Vector_times this (1 - k)%float) (Vector_times other k).

(** No statement of the program assigns to a field of a vector, so a vector
    is its three coordinates and a clone is the vector again. *)
Definition Vector_clone (this : Vector) : Vector :=
  new_Vector (x this) (y this) (z this).

#[export] Instance Vector_inhabited : Inhabited Vector :=
  populate (new_Vector 0 0 0).

(** ** Planes in Hessian normal form *)

Record Plane : Type := new_Plane { normal : Vector; p : float }.

Definition Plane_ofTriangle (a b c : Vector) : Plane :=
  let u := Vector_minus a b in
  let v := Vector_minus c b in
  let normal := Vector_unit (Vector_cross v u) in
  let p := (- Vector_dot normal a)%float in
  new_Plane normal p.

Definition Plane_flip (this : Plane) : Plane :=
  new_Plane (Vector_flip (normal this)) (- p this)%float.

Definition Plane_clone (this : Plane) : Plane :=
  new_Plane (normal this) (p this).

(** *** The two loops of [bisect] *)

(** The tags ["front"], ["back"] and ["plane"] that [bisect] gives a vertex. *)
Module Location.
Inductive t : Type := front | back | plane.
End Location.

#[export] Instance Location_eq_dec : EqDecision Location.t.
Proof. solve_decision. Defined.

#[export] Instance Location_inhabited : Inhabited Location.t :=
  populate Location.plane.

(** The signed distance [d = n.dot(v) + p] of the first loop. *)
Definition distance (this : Plane) (v : Vector) : float :=
  (Vector_dot (normal this) v + p this)%float.

(** The tag pushed on [location] for one vertex. *)
Definition locate (this : Plane) (v : Vector) : Location.t :=
  let d := distance this v in
  if (1e-5 <? d)%float then Location.front
  else if (d <? -1e-5)%float then Location.back
  else Location.plane.

(** The array [location] after the first loop. *)
Definition locations (this : Plane) (vertices : list Vector) : list Location.t :=
  locate this <$> vertices.

(** [location.reduce(function(acc, x) { return acc && x === "plane"; }, true)] *)
Definition isCoplanar (location : list Location.t) : bool :=
  foldl (fun acc x => acc && bool_decide (x = Location.plane)) true location.

(** The ray-plane intersection on the edge from [vert1] to [vert2]:
    t = -(P0 dot N + p) / (V dot N). *)
Definition bisectPoint (this : Plane) (vert1 vert2 : Vector) : Vector :=
  let V := Vector_minus vert2 vert1 in
  let k := (- (Vector_dot vert1 (normal this) + p this) / Vector_dot V (normal this))%float in
  Vector_lerp vert1 vert2 k.

(** One turn of the second loop, at index [i]; the state is the pair of the
    local arrays [newFront] and [newBack]. *)
Definition split_step (this : Plane) (vertices : list Vector) (location : list Location.t)
    (acc : list Vector * list Vector) (i : nat) : list Vector * list Vector :=
  let '(newFront, newBack) := acc in
  let vert1 := vertices !!! i in
  let loc1 := location !!! i in
  let vert2 := vertices !!! ((i + 1) mod length vertices) in
  let loc2 := location !!! ((i + 1) mod length vertices) in
  let '(newFront, newBack) :=
    match loc1 with
    | Location.front => (newFront ++ [vert1], newBack)
    | Location.back => (newFront, newBack ++ [vert1])
    | Location.plane => (newFront ++ [vert1], newBack ++ [Vector_clone vert1])
    end in
  if bool_decide (loc1 ≠ loc2) && bool_decide (loc1 ≠ Location.plane)
     && bool_decide (loc2 ≠ Location.plane)
  then
    let bp := bisectPoint this vert1 vert2 in
    (newFront ++ [bp], newBack ++ [Vector_clone bp])
  else (newFront, newBack).

(** The second loop: [for (var i = 0; i < polygon.vertices.length; i++)]. *)
Definition split (this : Plane) (vertices : list Vector) (location : list Location.t)
    : list Vector * list Vector :=
  foldl (split_step this vertices location) ([], []) (seq 0 (length vertices)).

(** ** The store *)

(** An address in one of the stores. *)
Abbreviation ref := nat.

(** A polygon object: [vertices] is the address of its vertex array, [color]
    the payload the engine carries along without looking at it. *)
Record Polygon (Color : Type) : Type :=
  mkPolygon { vertices : ref; color : Color; plane : Plane }.
#[global] Arguments mkPolygon {Color} _ _ _.
#[global] Arguments vertices {Color} _.
#[global] Arguments color {Color} _.
#[global] Arguments plane {Color} _.

(** A geometry object.  Only [polygons], the address of its polygon array,
    is read by the BSP engine; the instance transform ([pos], [scale], [rot]
    and the two matrices derived from them) is left out. *)
Record Geometry : Type := mkGeometry { Geometry_polygons : ref }.

(** What a call can throw: a [TypeError] (a property read on [undefined]),
  a [RangeError] (the call stack is exhausted: the recursion budget of the
  model ran out), and [Dangling] for an address that names no object,
  which no JavaScript reference can be. *)
Inductive error : Type := TypeError | RangeError | Dangling.

Inductive result (A : Type) : Type :=
| Ok (a : A)
| Err (e : error).
#[global] Arguments Ok {A} _.
#[global] Arguments Err {A} _.

Section Store.
Context {Color : Type}.

(** One store per kind of object: vertex arrays, polygons, polygon arrays
    and geometries.  A new object takes the next free address, the length
    of its store. *)
Record Heap : Type := mkHeap {
  varrs : list (list Vector);
  polys : list (Polygon Color);
  parrs : list (list ref);
  geoms : list Geometry
}.

Definition M (A : Type) : Type := Heap -> result A * Heap.

Definition ret {A} (a : A) : M A := fun h => (Ok a, h).

Definition throw {A} (e : error) : M A := fun h => (Err e, h).

Definition bind {A B} (m : M A) (k : A -> M B) : M B :=
  fun h =>
    match m h with
    | (Ok a, h') => k a h'
    | (Err e, h') => (Err e, h')
    end.

End Store.

#[global] Arguments Heap : clear implicits.
#[global] Arguments M : clear implicits.

Declare Scope js_scope.
Delimit Scope js_scope with js.
Notation "'let*' x ':=' m 'in' k" := (bind m (fun x => k))
  (at level 10, x name, m at level 100, k at level 200) : js_scope.
Notation "m ';;' k" := (bind m (fun _ => k))
  (at level 100, k at level 200, right associativity) : js_scope.
#[local] Open Scope js_scope.

Section Primitives.
Context {Color : Type}.
#[local] Abbreviation Heap := (Heap Color).
#[local] Abbreviation M := (M Color).

(** *** Vertex arrays *)

Definition alloc_vertices (vs : list Vector) : M ref :=
  fun h => (Ok (length (varrs h)),
            mkHeap (varrs h ++ [vs]) (polys h) (parrs h) (geoms h)).

Definition read_vertices (a : ref) : M (list Vector) :=
  fun h => match varrs h !! a with
           | Some vs => (Ok vs, h)
           | None => (Err Dangling, h)
           end.

Definition write_vertices (a : ref) (vs : list Vector) : M unit :=
  fun h => match varrs h !! a with
           | Some _ => (Ok tt, mkHeap (<[a := vs]> (varrs h)) (polys h) (parrs h) (geoms h))
           | None => (Err Dangling, h)
           end.

(** *** Polygon objects *)

Definition alloc_polygon (q : Polygon Color) : M ref :=
  fun h => (Ok (length (polys h)),
            mkHeap (varrs h) (polys h ++ [q]) (parrs h) (geoms h)).

Definition read_polygon (a : ref) : M (Polygon Color) :=
  fun h => match polys h !! a with
           | Some q => (Ok q, h)
           | None => (Err Dangling, h)
           end.

Definition write_polygon (a : ref) (q : Polygon Color) : M unit :=
  fun h => match polys h !! a with
           | Some _ => (Ok tt, mkHeap (varrs h) (<[a := q]> (polys h)) (parrs h) (geoms h))
           | None => (Err Dangling, h)
           end.

(** *** Polygon arrays *)

Definition alloc_array (ps : list ref) : M ref :=
  fun h => (Ok (length (parrs h)),
            mkHeap (varrs h) (polys h) (parrs h ++ [ps]) (geoms h)).

Definition read_array (a : ref) : M (list ref) :=
  fun h => match parrs h !! a with
           | Some ps => (Ok ps, h)
           | None => (Err Dangling, h)
           end.

(** [a.push(x)] *)
Definition push (a : ref) (x : ref) : M unit :=
  fun h => match parrs h !! a with
           | Some _ =>
               (Ok tt, mkHeap (varrs h) (polys h) (alter (fun ps => ps ++ [x]) a (parrs h)) (geoms h))
           | None => (Err Dangling, h)
           end.

(** *** Geometry objects *)

Definition alloc_geometry (g : Geometry) : M ref :=
  fun h => (Ok (length (geoms h)),
            mkHeap (varrs h) (polys h) (parrs h) (geoms h ++ [g])).

Definition read_geometry (a : ref) : M Geometry :=
  fun h => match geoms h !! a with
           | Some g => (Ok g, h)
           | None => (Err Dangling, h)
           end.

(** *** Loops over a snapshot of an array *)

(** [xs.forEach(f)], and [for (i = 0; i < xs.length; i++) f(xs[i])] when
    the body leaves [xs] alone: the elements are visited in order. *)
Fixpoint forEach {A} (xs : list A) (f : A -> M unit) : M unit :=
  match xs with
  | [] => ret tt
  | x :: xs' => f x ;; forEach xs' f
  end.

(** [xs.map(f)], the results in order. *)
Fixpoint mapM {A B} (f : A -> M B) (xs : list A) : M (list B) :=
  match xs with
  | [] => ret []
  | x :: xs' =>
      let* y := f x in
      let* ys := mapM f xs' in
      ret (y :: ys)
  end.

End Primitives.

(** ** Polygons *)

Section Polygon.
Context {Color : Type}.
#[local] Abbreviation M := (M Color).

(** [new Polygon(vertices, color)]: the array is kept by reference and the
    plane is that of the first three vertices.  With fewer than three,
    [Plane.ofTriangle] reads a property of [undefined]. *)
Definition new_Polygon (vertices : ref) (color : Color) : M ref :=
  let* vs := read_vertices vertices in
  match vs with
  | a :: b :: c :: _ => alloc_polygon (mkPolygon vertices color (Plane_ofTriangle a b c))
  | _ => throw TypeError
  end.

Definition Polygon_clone (this : ref) : M ref :=
  let* q := read_polygon this in
  let* vs := read_vertices (vertices q) in
  let* a := alloc_vertices (Vector_clone <$> vs) in
  new_Polygon a (color q).

Definition Polygon_flip (this : ref) : M ref :=
  let* copy := Polygon_clone this in
  (* Reverse the order of the vertices to flip the winding order. *)
  let* q := read_polygon copy in
  let* vs := read_vertices (vertices q) in
  write_vertices (vertices q) (reverse vs) ;;
  let* q := read_polygon copy in
  write_polygon copy (mkPolygon (vertices q) (color q) (Plane_flip (plane q))) ;;
  ret copy.

(** ** Bisection of a polygon along a plane *)

(** [this.bisect(polygon, front, samePlane, behind, reversePlane)]: the four
    buckets are addresses of polygon arrays, and callers pass the same array
    for more than one of them.  The local arrays [newFront] and [newBack]
    enter the store when they are handed to the [Polygon] constructor. *)
Definition Plane_bisect (this : Plane)
    (polygon front samePlane behind reversePlane : ref) : M unit :=
  let* q := read_polygon polygon in
  let* vs := read_vertices (vertices q) in
  let location := locations this vs in
  if isCoplanar location then
    if (0 <? Vector_dot (normal this) (normal (plane q)))%float
    then push samePlane polygon
    else push reversePlane polygon
  else
    let '(newFront, newBack) := split this vs location in
    (if 3 <=? length newFront then
       let* a := alloc_vertices newFront in
       let* f := new_Polygon a (color q) in
       push front f
     else ret tt) ;;
    (if 3 <=? length newBack then
       let* a := alloc_vertices newBack in
       let* b := new_Polygon a (color q) in
       push behind b
     else ret tt).

End Polygon.

(** ** BSP trees *)

(** A node; [polygons] is the address of the node's polygon array.  The
    fields of a node are assigned in place by [Partition], [treeTrimSelf] and
    [flip]: the functions below return the node as they leave it. *)
Inductive BSPNode : Type := mkBSPNode {
  hyperPlane : option Plane;
  polygons : ref;
  front : option BSPNode;
  behind : option BSPNode
}.

Section BSP.
Context {Color : Type}.
#[local] Abbreviation M := (M Color).

(** [new BSPNode()] *)
Definition new_BSPNode : M BSPNode :=
  let* a := alloc_array [] in
  ret (mkBSPNode None a None None).

(** [a.concat(b)] *)
Definition concat (a b : ref) : M ref :=
  let* xs := read_array a in
  let* ys := read_array b in
  alloc_array (xs ++ ys).

(** A method called on a value that may be [undefined]. *)
Definition defined {A} (o : option A) : M A :=
  match o with
  | Some a => ret a
  | None => throw TypeError
  end.

(** [BSPNode.Partition(polygons, tree)].  The first component of the result
    is the value returned ([None] for [undefined]); the second is the node
    passed as [tree], as the call leaves it.  [fuel] bounds the depth of the
    recursion, which the program does not. *)
Fixpoint BSPNode_Partition (fuel : nat) (polys : option ref) (tree : option BSPNode)
    : M (option BSPNode * option BSPNode) :=
  match polys with
  | None => ret (None, tree)
  | Some polys =>
    let* ps := read_array polys in
    match ps with
    | [] => ret (None, tree)
    | first :: _ =>
      (* If a tree is supplied, use it, otherwise start a new one. *)
      let* root := match tree with Some t => ret t | None => new_BSPNode end in
      let* q := read_polygon first in
      let hp := Plane_clone (plane q) in
      let* left := alloc_array [] in
      let* right := alloc_array [] in
      forEach ps (fun poly =>
        Plane_bisect hp poly left (polygons root) right (polygons root)) ;;
      (* if (left.length > 0) { ... } *)
      let* front' :=
        let* ls := read_array left in
        if 0 <? length ls then
          let* child := match front root with Some f => ret f | None => new_BSPNode end in
          match fuel with
          | 0 => throw RangeError
          | S fuel' =>
            let* r := BSPNode_Partition fuel' (Some left) (Some child) in
            ret (snd r)
          end
        else ret (front root) in
      (* if (right.length > 0) { ... } *)
      let* behind' :=
        let* rs := read_array right in
        if 0 <? length rs then
          let* child := match behind root with Some b => ret b | None => new_BSPNode end in
          match fuel with
          | 0 => throw RangeError
          | S fuel' =>
            let* r := BSPNode_Partition fuel' (Some right) (Some child) in
            ret (snd r)
          end
        else ret (behind root) in
      let root := mkBSPNode (Some hp) (polygons root) front' behind' in
      ret (Some root, match tree with Some _ => Some root | None => None end)
    end
  end.

Fixpoint BSPNode_concatPolys (this : BSPNode) : M ref :=
  let* ps := read_array (polygons this) in
  let* polys := alloc_array ps in
  let* polys :=
    match front this with
    | Some f => let* r := BSPNode_concatPolys f in concat polys r
    | None => ret polys
    end in
  let* polys :=
    match behind this with
    | Some b => let* r := BSPNode_concatPolys b in concat polys r
    | None => ret polys
    end in
  ret polys.

(** [new Geometry(this.concatPolys())] *)
Definition BSPNode_toGeometry (this : BSPNode) : M ref :=
  let* polys := BSPNode_concatPolys this in
  alloc_geometry (mkGeometry polys).

Fixpoint BSPNode_clone (this : BSPNode) : M BSPNode :=
  let* tree := new_BSPNode in
  let hp :=
    match hyperPlane this with
    | Some hp => Some (Plane_clone hp)
    | None => hyperPlane tree
    end in
  let* front' :=
    match front this with
    | Some f => let* r := BSPNode_clone f in ret (Some r)
    | None => ret (front tree)
    end in
  let* behind' :=
    match behind this with
    | Some b => let* r := BSPNode_clone b in ret (Some r)
    | None => ret (behind tree)
    end in
  let* ps := read_array (polygons this) in
  let* ps' := mapM Polygon_clone ps in
  let* a := alloc_array ps' in
  ret (mkBSPNode hp a front' behind').

(** [this.flip()].  The recursion is on the children of the clone, so it is
    bounded by [fuel] like that of [Partition]. *)
Fixpoint BSPNode_flip (fuel : nat) (this : BSPNode) : M BSPNode :=
  let* copy := BSPNode_clone this in
  (* Flip the orientation of the planes *)
  let* hp := defined (hyperPlane copy) in
  let hp := Plane_flip hp in
  let* ps := read_array (polygons copy) in
  let* ps' := mapM Polygon_flip ps in
  let* a := alloc_array ps' in
  (* Recursively flip this tree. *)
  let* front' :=
    match front copy with
    | Some f =>
      match fuel with
      | 0 => throw RangeError
      | S fuel' => let* r := BSPNode_flip fuel' f in ret (Some r)
      end
    | None => ret None
    end in
  let* behind' :=
    match behind copy with
    | Some b =>
      match fuel with
      | 0 => throw RangeError
      | S fuel' => let* r := BSPNode_flip fuel' b in ret (Some r)
      end
    | None => ret None
    end in
  (* front and back need to be swapped *)
  ret (mkBSPNode (Some hp) a behind' front').

Fixpoint BSPNode_trim (this : BSPNode) (polys : ref) : M ref :=
  match hyperPlane this with
  | None => let* ps := read_array polys in alloc_array ps
  | Some hp =>
    let* inside := alloc_array [] in
    let* out := alloc_array [] in
    let* ps := read_array polys in
    forEach ps (fun poly => Plane_bisect hp poly out out inside inside) ;;
    let* out :=
      match front this with
      | Some f => BSPNode_trim f out
      | None => ret out
      end in
    let* inside :=
      match behind this with
      | Some b => BSPNode_trim b inside
      | None => alloc_array []
      end in
    concat out inside
  end.

(** [this.treeTrimSelf(tree)]; the result is [this] after the call. *)
Fixpoint BSPNode_treeTrimSelf (this tree : BSPNode) : M BSPNode :=
  let* a := BSPNode_trim tree (polygons this) in
  let* front' :=
    match front this with
    | Some f => let* r := BSPNode_treeTrimSelf f tree in ret (Some r)
    | None => ret None
    end in
  let* behind' :=
    match behind this with
    | Some b => let* r := BSPNode_treeTrimSelf b tree in ret (Some r)
    | None => ret None
    end in
  ret (mkBSPNode (hyperPlane this) a front' behind').

(** ** The boolean operators *)

Definition BSPNode_Union (fuel : nat) (geo1 geo2 : ref) : M ref :=
  let* g1 := read_geometry geo1 in
  let* r1 := BSPNode_Partition fuel (Some (Geometry_polygons g1)) None in
  let* g2 := read_geometry geo2 in
  let* r2 := BSPNode_Partition fuel (Some (Geometry_polygons g2)) None in
  (* Remove intersecting volume. *)
  let* tree1 := defined (fst r1) in
  let* tree2 := defined (fst r2) in
  let* tree1 := BSPNode_treeTrimSelf tree1 tree2 in
  let* tree2 := BSPNode_treeTrimSelf tree2 tree1 in
  (* Remove possible duplicate planes left in tree 2. *)
  let* tree2 := BSPNode_flip fuel tree2 in
  let* tree2 := BSPNode_treeTrimSelf tree2 tree1 in
  let* tree2 := BSPNode_flip fuel tree2 in
  (* Combine geometry into one tree. *)
  let* polys := BSPNode_concatPolys tree2 in
  let* r := BSPNode_Partition fuel (Some polys) (Some tree1) in
  let* tree1 := defined (snd r) in
  BSPNode_toGeometry tree1.

Definition BSPNode_Intersect (fuel : nat) (geo1 geo2 : ref) : M ref :=
  let* g1 := read_geometry geo1 in
  let* r1 := BSPNode_Partition fuel (Some (Geometry_polygons g1)) None in
  let* g2 := read_geometry geo2 in
  let* r2 := BSPNode_Partition fuel (Some (Geometry_polygons g2)) None in
  let* tree1 := defined (fst r1) in
  let* tree1 := BSPNode_flip fuel tree1 in
  let* tree2 := defined (fst r2) in
  let* tree2 := BSPNode_treeTrimSelf tree2 tree1 in
  let* tree2 := BSPNode_flip fuel tree2 in
  let* tree1 := BSPNode_treeTrimSelf tree1 tree2 in
  let* tree2 := BSPNode_treeTrimSelf tree2 tree1 in
  let* polys := BSPNode_concatPolys tree2 in
  let* r := BSPNode_Partition fuel (Some polys) (Some tree1) in
  let* tree1 := defined (snd r) in
  let* tree1 := BSPNode_flip fuel tree1 in
  BSPNode_toGeometry tree1.

Definition BSPNode_Subtract (fuel : nat) (geo1 geo2 : ref) : M ref :=
  let* g1 := read_geometry geo1 in
  let* r1 := BSPNode_Partition fuel (Some (Geometry_polygons g1)) None in
  let* g2 := read_geometry geo2 in
  let* r2 := BSPNode_Partition fuel (Some (Geometry_polygons g2)) None in
  let* tree1 := defined (fst r1) in
  let* tree1 := BSPNode_flip fuel tree1 in
  let* tree2 := defined (fst r2) in
  let* tree1 := BSPNode_treeTrimSelf tree1 tree2 in
  let* tree2 := BSPNode_treeTrimSelf tree2 tree1 in
  let* tree2 := BSPNode_flip fuel tree2 in
  let* tree2 := BSPNode_treeTrimSelf tree2 tree1 in
  let* tree2 := BSPNode_flip fuel tree2 in
  let* polys := BSPNode_concatPolys tree2 in
  let* r := BSPNode_Partition fuel (Some polys) (Some tree1) in
  let* tree1 := defined (snd r) in
  let* tree1 := BSPNode_flip fuel tree1 in
  BSPNode_toGeometry tree1.

End BSP.

(** ** Geometries *)

Section GeometryMethods.
Context {Color : Type}.

(** [setColor]: [this.polygons.forEach(function(poly) { poly.color = color; })] *)
Definition Geometry_setColor (this : ref) (c : Color) : M Color unit :=
  let* g := read_geometry this in
  let* ps := read_array (Geometry_polygons g) in
  forEach ps (fun poly =>
    let* q := read_polygon poly in
    write_polygon poly (mkPolygon (vertices q) c (plane q))).

(** [clone]: the polygons are cloned one by one and handed to the
    constructor.  The copies of [pos], [scale] and [rot] belong to the
    instance transform, which the model of a geometry leaves out. *)
Definition Geometry_clone (this : ref) : M Color ref :=
  let* g := read_geometry this in
  let* ps := read_array (Geometry_polygons g) in
  let* polys := mapM Polygon_clone ps in
  let* a := alloc_array polys in
  alloc_geometry (mkGeometry a).

End GeometryMethods.

(** ** The cube *)

(** The tables of [Cube]: the corners of the cube of side 2 centered at
    the origin, and for each face the indices of its corners in winding
    order. *)
Definition Cube_verts : list Vector :=
  [new_Vector (-1) 1 1; new_Vector (-1) (-1) 1; new_Vector 1 (-1) 1; new_Vector 1 1 1;
   new_Vector (-1) 1 (-1); new_Vector 1 1 (-1); new_Vector 1 (-1) (-1);
   new_Vector (-1) (-1) (-1)].

Definition Cube_indices : list (list nat) :=
  [[0; 1; 2; 3]; [0; 3; 5; 4]; [3; 2; 6; 5];
   [0; 4; 7; 1]; [2; 1; 7; 6]; [4; 5; 6; 7]].

(** The vertices of the face with the indices [i]. *)
Definition Cube_face (i : list nat) : list Vector :=
  [Cube_verts !!! (i !!! 0); Cube_verts !!! (i !!! 1);
   Cube_verts !!! (i !!! 2); Cube_verts !!! (i !!! 3)].

(** [Cube(pos, scl, rot, color)]; the instance transform is left out, as
    in the model of a geometry. *)
Definition Cube {Color : Type} (color : Color) : M Color ref :=
  let* polys := mapM (fun i =>
      let* a := alloc_vertices (Cube_face i) in
      new_Polygon a color) Cube_indices in
  let* a := alloc_array polys in
  alloc_geometry (mkGeometry a).

(** * The specification *)

(** ** What the statements are written with *)

Section Vocabulary.
Context {Color : Type}.
Implicit Types (h : Heap Color) (a : ref).

(** [a] names a polygon object whose vertex array holds at least three
    vertices: what the [Polygon] constructor accepts. *)
Definition well_formed h a : Prop :=
  exists q vs, polys h !! a = Some q /\ varrs h !! vertices q = Some vs /\ 3 <= length vs.

(** The vertex data of the polygon at [a]. *)
Definition vertices_of h a : list Vector :=
  match polys h !! a with
  | Some q => default [] (varrs h !! vertices q)
  | None => []
  end.

(** The plane the constructor derives from a vertex list. *)
Definition plane_of (vs : list Vector) : Plane :=
  match vs with
  | a :: b :: c :: _ => Plane_ofTriangle a b c
  | _ => new_Plane inhabitant 0
  end.

(** The store after [x] is pushed on the array at [a]. *)
Definition pushed a (x : ref) h : Heap Color :=
  mkHeap (varrs h) (polys h) (alter (fun ps => ps ++ [x]) a (parrs h)) (geoms h).

(** The store after a new polygon with the vertices [vs] and the payload [c]
    is made and pushed on [bucket]. *)
Definition with_fragment (bucket : ref) (vs : list Vector) (c : Color) h : Heap Color :=
  pushed bucket (length (polys h))
    (mkHeap (varrs h ++ [vs])
            (polys h ++ [mkPolygon (length (varrs h)) c (plane_of vs)])
            (parrs h) (geoms h)).

(** A fragment is emitted only if it has at least 3 vertices. *)
Definition emitted (bucket : ref) (vs : list Vector) (c : Color) h : Heap Color :=
  if 3 <=? length vs then with_fragment bucket vs c h else h.

(** The store [bisect] leaves, for a polygon [q] at [polygon] with the
    vertices [vs]. *)
Definition bisected (this : Plane) (polygon : ref) (q : Polygon Color) (vs : list Vector)
    (front samePlane behind reversePlane : ref) h : Heap Color :=
  if isCoplanar (locations this vs) then
    if (0 <? Vector_dot (normal this) (normal (plane q)))%float
    then pushed samePlane polygon h
    else pushed reversePlane polygon h
  else
    emitted behind (split this vs (locations this vs)).2 (color q)
      (emitted front (split this vs (locations this vs)).1 (color q) h).

End Vocabulary.

(** *** The classification of [bisect], in the words of the specification *)

(** The signed distance [d = normal.v + p], written out. *)
Definition signed_distance (this : Plane) (v : Vector) : float :=
  (x (normal this) * x v + y (normal this) * y v + z (normal this) * z v + p this)%float.

(** The tag [t] is the one the specification gives the vertex [v]: front
    exactly when [d > 1e-5], back exactly when [d < -1e-5], plane
    otherwise. *)
Definition tagged_as (this : Plane) (v : Vector) (t : Location.t) : Prop :=
  (t = Location.front <-> (1e-5 <? signed_distance this v)%float = true)
  /\ (t = Location.back <-> (signed_distance this v <? -1e-5)%float = true)
  /\ (t = Location.plane <->
      (1e-5 <? signed_distance this v)%float = false
      /\ (signed_distance this v <? -1e-5)%float = false).

(** [this.normal.polygon.plane.normal], written out. *)
Definition orientation (this other : Plane) : float :=
  (x (normal this) * x (normal other) + y (normal this) * y (normal other)
   + z (normal this) * z (normal other))%float.

(** The array a polygon all of whose vertices are tagged plane is appended
    to: [samePlane] when the orientation is positive, [reversePlane]
    otherwise. *)
Definition coplanar_target (this other : Plane) (samePlane reversePlane : ref) : ref :=
  if (0 <? orientation this other)%float then samePlane else reversePlane.

Section Routing.
Context {Color : Type}.

(** The store [bisect] leaves when the vertices of the polygon have the
    tags [tags]: the polygon is pushed whole when all of them are plane,
    and is cut by the second loop otherwise. *)
Definition routed_by (tags : list Location.t) (this : Plane) (polygon : ref)
    (q : Polygon Color) (vs : list Vector) (front samePlane behind reversePlane : ref)
    (h : Heap Color) : Heap Color :=
  if forallb (fun t => bool_decide (t = Location.plane)) tags then
    pushed (coplanar_target this (plane q) samePlane reversePlane) polygon h
  else
    emitted behind (split this vs tags).2 (color q)
      (emitted front (split this vs tags).1 (color q) h).

End Routing.

(** *** The walk of [bisect], in the words of the specification *)

(** The vertex after each vertex, around the loop: [v[i+1 mod n]]. *)
Definition next_vertices (vs : list Vector) : list Vector :=
  match vs with
  | [] => []
  | v :: vs' => vs' ++ [v]
  end.

(** The consecutive vertex pairs [(v[i], v[i+1 mod n])]. *)
Definition vertex_pairs (vs : list Vector) : list (Vector * Vector) :=
  zip vs (next_vertices vs).

(** Two tags are genuinely opposite: front and back, in either order. *)
Definition opposite (l1 l2 : Location.t) : bool :=
  match l1, l2 with
  | Location.front, Location.back | Location.back, Location.front => true
  | _, _ => false
  end.

(** The intersection vertex [lerp(v1, v2, t)] with
    [t = -(v1.normal + p) / ((v2 - v1).normal)]. *)
Definition intersection (this : Plane) (v1 v2 : Vector) : Vector :=
  Vector_lerp v1 v2
    (- (Vector_dot v1 (normal this) + p this)
       / Vector_dot (Vector_minus v2 v1) (normal this))%float.

(** The front list and the back list accumulated over the pairs. *)
Fixpoint walk (this : Plane) (pairs : list (Vector * Vector)) : list Vector * list Vector :=
  match pairs with
  | [] => ([], [])
  | (v1, v2) :: rest =>
      let own :=
        match locate this v1 with
        | Location.front => ([v1], [])
        | Location.back => ([], [v1])
        | Location.plane => ([v1], [v1])
        end in
      let cut :=
        if opposite (locate this v1) (locate this v2)
        then [intersection this v1 v2] else [] in
      (own.1 ++ cut ++ (walk this rest).1, own.2 ++ cut ++ (walk this rest).2)
  end.

(** ** What [bisect] hands to its four buckets *)

(** The polygons one call of [bisect] pushes, by the role of the bucket. *)
Record Buckets : Type := mkBuckets {
  to_front : list ref;
  to_samePlane : list ref;
  to_behind : list ref;
  to_reversePlane : list ref
}.

(** What an array receives from one call, when it is passed for some of the
    four roles: the pushes in the order the program makes them. *)
Definition received (f s b r : ref) (x : ref) (o : Buckets) : list ref :=
  (if decide (f = x) then to_front o else [])
  ++ (if decide (s = x) then to_samePlane o else [])
  ++ (if decide (b = x) then to_behind o else [])
  ++ (if decide (r = x) then to_reversePlane o else []).

Section Classified.
Context {Color : Type}.
Implicit Types (h : Heap Color) (a : ref).

(** The store only grows: every vertex array, polygon and geometry of [h]
    is in [h'] as it was, and no polygon array is lost. *)
Definition grows h h' : Prop :=
  varrs h `prefix_of` varrs h'
  /\ polys h `prefix_of` polys h'
  /\ geoms h `prefix_of` geoms h'
  /\ length (parrs h) <= length (parrs h').

(** [a] names a polygon object with its vertex array in the store. *)
Definition stored h a : Prop :=
  exists q vs, polys h !! a = Some q /\ varrs h !! vertices q = Some vs.

(** [a] names a polygon with the vertices [vs] and the payload [c]. *)
Definition holds h a (vs : list Vector) (c : Color) : Prop :=
  exists q, polys h !! a = Some q /\ color q = c /\ varrs h !! vertices q = Some vs.

(** [l] is what is emitted from the vertex list [vs]: one polygon if the
    list has at least three vertices, nothing otherwise. *)
Definition fragment h (vs : list Vector) (c : Color) (l : list ref) : Prop :=
  if 3 <=? length vs then exists a, l = [a] /\ holds h a vs c else l = [].

(** [o] is how [bisect] classifies the polygon [p] against [this]: whole as
    coplanar with the same or with the reverse orientation, or cut into a
    front and a behind fragment. *)
Definition classified (this : Plane) h (p : ref) (o : Buckets) : Prop :=
  exists q vs,
    polys h !! p = Some q /\ varrs h !! vertices q = Some vs /\
    if isCoplanar (locations this vs) then
      to_front o = [] /\ to_behind o = [] /\
      if (0 <? Vector_dot (normal this) (normal (plane q)))%float
      then to_samePlane o = [p] /\ to_reversePlane o = []
      else to_samePlane o = [] /\ to_reversePlane o = [p]
    else
      to_samePlane o = [] /\ to_reversePlane o = []
      /\ fragment h (walk this (vertex_pairs vs)).1 (color q) (to_front o)
      /\ fragment h (walk this (vertex_pairs vs)).2 (color q) (to_behind o).

(** What [trim] does after its bisection loop, with the two buckets. *)
Definition trim_survivors (this : BSPNode) (out inside : ref) : M Color ref :=
  let* out :=
    match front this with
    | Some f => BSPNode_trim f out
    | None => ret out
    end in
  let* inside :=
    match behind this with
    | Some b => BSPNode_trim b inside
    | None => alloc_array []
    end in
  concat out inside.

End Classified.

(** ** What a call may touch *)

Section Frames.
Context {Color : Type}.
Implicit Types (h : Heap Color) (a : ref).

(** Every object of [h] is in [h'], unchanged and at its address: the four
    stores of [h] are prefixes of those of [h']. *)
Definition extends h h' : Prop :=
  varrs h `prefix_of` varrs h'
  /\ polys h `prefix_of` polys h'
  /\ parrs h `prefix_of` parrs h'
  /\ geoms h `prefix_of` geoms h'.

(** The store grows, and the polygon arrays below the address [n] are as
    they were. *)
Definition kept (n : nat) h h' : Prop :=
  grows h h' /\ forall a, a < n -> parrs h' !! a = parrs h !! a.

(** Started in a store with at least [n] polygon arrays, the computation
    [m] keeps the arrays below [n], and what it returns satisfies [R]. *)
Definition safe {A} (n : nat) (m : M Color A) (R : A -> Prop) : Prop :=
  forall h, n <= length (parrs h) ->
    kept n h (m h).2 /\ forall x, (m h).1 = Ok x -> R x.

End Frames.

(** The polygon arrays of the tree are all at [n] or above. *)
Fixpoint tree_above (n : nat) (t : BSPNode) : Prop :=
  n <= polygons t
  /\ match front t with Some f => tree_above n f | None => True end
  /\ match behind t with Some b => tree_above n b | None => True end.

Definition option_above (n : nat) (o : option BSPNode) : Prop :=
  match o with Some t => tree_above n t | None => True end.

(** ** The recursion of [Partition], named *)

Section Descend.
Context {Color : Type}.

(** The step of [Partition] for one side: if the bucket is not empty, the
    child is created unless it is there, and the bucket is partitioned into
    it. *)
Definition Partition_descend (fuel : nat) (bucket : ref) (child : option BSPNode)
    : M Color (option BSPNode) :=
  let* xs := read_array bucket in
  if 0 <? length xs then
    let* c := match child with Some f => ret f | None => new_BSPNode end in
    match fuel with
    | 0 => throw RangeError
    | S fuel' =>
      let* r := BSPNode_Partition fuel' (Some bucket) (Some c) in
      ret (snd r)
    end
  else ret child.

End Descend.

(** ** Counting around the loop *)

(** The separations met along a list of tags: the tags ["plane"], the last
    one apart, and the adjacent pairs that are genuinely opposite. *)
Fixpoint separations (tags : list Location.t) : nat :=
  match tags with
  | [] => 0
  | a :: rest =>
      match rest with
      | [] => 0
      | b :: _ =>
          (if bool_decide (a = Location.plane) then 1 else 0)
          + (if opposite a b then 1 else 0)
          + separations rest
      end
  end.

(** How many vertices have the tag [want]. *)
Definition tagged (this : Plane) (want : Location.t) (vs : list Vector) : nat :=
  length (filter (fun v => locate this v = want) vs).

(** How many of the pairs are cut: front and back in either order. *)
Definition cuts (this : Plane) (pairs : list (Vector * Vector)) : nat :=
  length (filter (fun pr => opposite (locate this pr.1) (locate this pr.2) = true) pairs).

(** ** Trees in the store *)

Section Trees.
Context {Color : Type}.
Implicit Types (h : Heap Color) (a : ref).

(** The polygons of a tree, node first, then the front subtree, then the
    behind subtree: what [concatPolys] collects. *)
Fixpoint tree_polygons h (t : BSPNode) : list ref :=
  default [] (parrs h !! polygons t)
  ++ match front t with Some f => tree_polygons h f | None => [] end
  ++ match behind t with Some b => tree_polygons h b | None => [] end.

(** Every vertex of the polygon is tagged ["plane"] by [hp]: the polygon is
    coplanar with [hp] within the tolerance. *)
Definition on_plane h (hp : Plane) (p : ref) : Prop :=
  Forall (fun v => locate hp v = Location.plane) (vertices_of h p).

(** Every node of the tree has a hyperplane and a polygon array, and the
    polygons of the node are well formed and coplanar with its hyperplane. *)
Fixpoint coplanar_tree h (t : BSPNode) : Prop :=
  (exists hp cs,
      hyperPlane t = Some hp /\ parrs h !! polygons t = Some cs
      /\ Forall (fun p => well_formed h p /\ on_plane h hp p) cs)
  /\ match front t with Some f => coplanar_tree h f | None => True end
  /\ match behind t with Some b => coplanar_tree h b | None => True end.

(** The polygon arrays of the tree are all below [n]. *)
Fixpoint tree_below (n : nat) (t : BSPNode) : Prop :=
  polygons t < n
  /\ match front t with Some f => tree_below n f | None => True end
  /\ match behind t with Some b => tree_below n b | None => True end.

(** The number of vertices of the polygons of a list, all together. *)
Definition total_vertices h (l : list ref) : nat :=
  sum_list_with (fun p => length (vertices_of h p)) l.



(** [Partition] of a polygon list alone, flattened back to a geometry. *)
Definition roundtrip (fuel : nat) (input : ref) : M Color ref :=
  let* r := BSPNode_Partition fuel (Some input) None in
  let* tree := defined r.1 in
  BSPNode_toGeometry tree.

End Trees.

(** ** Trees built from a polygon list alone *)

Section Fresh.
Context {Color : Type}.
Implicit Types (h : Heap Color) (a : ref).

(** The tree handed to [Partition] is absent, or a node just made by
    [new BSPNode()]: no plane, no children, an empty polygon array. *)
Definition option_fresh h (tree : option BSPNode) : Prop :=
  forall t, tree = Some t ->
    t = mkBSPNode None (polygons t) None None /\ parrs h !! polygons t = Some [].

(** The address of the polygon array of the root [Partition] works on. *)
Definition root_array h (tree : option BSPNode) : ref :=
  match tree with
  | Some t => polygons t
  | None => length (parrs h)
  end.

(** What [Partition] has built from the list [ps] when it returns the tree
    [t] in the store [h']: the arrays of [t] are in the store, every node
    has a plane and holds polygons coplanar with it, and the tree holds at
    least as many polygons, and as many vertices, as the list. *)
Definition built h (ps : list ref) h' (t : BSPNode) : Prop :=
  tree_below (length (parrs h')) t
  /\ coplanar_tree h' t
  /\ length ps <= length (tree_polygons h' t)
  /\ total_vertices h ps <= total_vertices h' (tree_polygons h' t).

End Fresh.

(** ** What [Partition] returns for a polygon list alone *)

Section FreshOutcome.
Context {Color : Type}.
Implicit Types (h : Heap Color) (a : ref).

(** The root of the tree [t] returned for the list [ps]: its plane is the
    plane of the first polygon, its array holds the polygons of the list
    that are coplanar with it, in the order of the list, and a child is
    there exactly when a fragment fell on its side. *)
Definition root_of h (ps : list ref) h' (t : BSPNode) : Prop :=
  exists (q : Polygon Color) (os : list Buckets),
    (head ps ≫= fun first => polys h !! first) = Some q
    /\ hyperPlane t = Some (Plane_clone (plane q))
    /\ Forall2 (classified (Plane_clone (plane q)) h') ps os
    /\ parrs h' !! polygons t
       = Some (flat_map (fun o => to_samePlane o ++ to_reversePlane o) os)
    /\ (front t = None <-> flat_map to_front os = [])
    /\ (behind t = None <-> flat_map to_behind os = []).

(** The outcome of [Partition] at the budget [fuel], for every non-empty
    list of well-formed polygons and a tree that is absent or new: the root
    with its tree, or a [RangeError]; never [undefined], never another
    error. *)
Definition fresh_outcome (fuel : nat) : Prop :=
  forall (input : ref) (ps : list ref) (tree : option BSPNode) h,
    parrs h !! input = Some ps -> ps <> [] -> Forall (well_formed h) ps ->
    option_fresh h tree -> root_array h tree <= length (parrs h) ->
    match BSPNode_Partition fuel (Some input) tree h with
    | (Ok (Some t, tree'), h') =>
        tree' = match tree with Some _ => Some t | None => None end
        /\ polygons t = root_array h tree
        /\ tree_above (root_array h tree) t
        /\ built h ps h' t
        /\ root_of h ps h' t
    | (Ok (None, _), _) => False
    | (Err RangeError, _) => True
    | (Err _, _) => False
    end.

End FreshOutcome.

(** ** The tree of a polygon list *)

Section PartitionOf.
Context {Color : Type}.
Implicit Types (h : Heap Color) (a : ref).





End PartitionOf.

(** What one side of [Partition] has built from the bucket contents [xs]:
    no child and an untouched store when the bucket is empty, a tree above
    the arrays of the store otherwise. *)
Definition side_built {Color : Type} (h : Heap Color) (xs : list ref) (h' : Heap Color)
    (o : option BSPNode) : Prop :=
  match o with
  | None => xs = [] /\ h' = h
  | Some t => xs <> [] /\ tree_above (length (parrs h)) t /\ built h xs h' t
  end.

(** Everything one call of [bisect] pushes, whatever the bucket. *)
Definition pushes (o : Buckets) : list ref :=
  to_front o ++ to_samePlane o ++ to_behind o ++ to_reversePlane o.

(** ** Where the polygons of a result come from *)

Section Survivors.
Context {Color : Type}.
Implicit Types (h : Heap Color) (a : ref).

(** The color of the polygon at [a]. *)
Definition color_of h a : option Color := color <$> polys h !! a.

(** The polygon [p'] of the store [h'] has at least three vertices and the
    color of one of the polygons [ps] of the store [h]. *)
Definition survivor h (ps : list ref) h' (p' : ref) : Prop :=
  well_formed h' p' /\ exists p, p ∈ ps /\ color_of h' p' = color_of h p.

End Survivors.

(** ** Trees whose polygons are in the store *)

Section TreesInStore.
Context {Color : Type}.
Implicit Types (h : Heap Color) (a : ref).

(** Every node of the tree has its polygon array in the store, and the
    polygons in it have at least three vertices. *)
Fixpoint tree_holds h (t : BSPNode) : Prop :=
  (exists cs, parrs h !! polygons t = Some cs /\ Forall (well_formed h) cs)
  /\ match front t with Some f => tree_holds h f | None => True end
  /\ match behind t with Some b => tree_holds h b | None => True end.

(** The tree [t'] of the store [h'] is the tree [t] of the store [h] after
    its polygons were trimmed: the same nodes with the same hyperplanes, and
    in each node survivors of the polygons the node had. *)
Fixpoint trimmed h (t : BSPNode) h' (t' : BSPNode) : Prop :=
  hyperPlane t' = hyperPlane t
  /\ (exists cs cs',
        parrs h !! polygons t = Some cs /\ parrs h' !! polygons t' = Some cs'
        /\ Forall (survivor h cs h') cs')
  /\ match front t, front t' with
     | Some f, Some f' => trimmed h f h' f'
     | None, None => True
     | _, _ => False
     end
  /\ match behind t, behind t' with
     | Some b, Some b' => trimmed h b h' b'
     | None, None => True
     | _, _ => False
     end.

End TreesInStore.

(** ** Copies of polygons and of trees *)

Section Images.
Context {Color : Type}.
Implicit Types (h : Heap Color) (a : ref).

(** The polygon [p'] of the store [h'] is a new polygon made from the
    polygon [p] of the store [h]: it has the color of [p], a vertex array of
    its own that holds [g] of the vertices of [p], at least three, and the
    plane [pl] of the vertices of [p]. *)
Definition image (g : list Vector -> list Vector) (pl : list Vector -> Plane)
    h (p : ref) h' (p' : ref) : Prop :=
  exists q q' vs,
    polys h !! p = Some q /\ varrs h !! vertices q = Some vs
    /\ polys h' !! p' = Some q' /\ varrs h' !! vertices q' = Some (g vs)
    /\ 3 <= length (g vs)
    /\ color q' = color q /\ plane q' = pl vs
    /\ length (polys h) <= p' /\ length (varrs h) <= vertices q'.

(** The tree [t'] of the store [h'] is made from the tree [t] of the store
    [h] node by node: the hyperplane of a node is [fp] of the hyperplane of
    the node it is made from, its polygons are images of the polygons of
    that node, in order, and the children are made from the children, with
    front and behind exchanged when [swap] is set. *)
Fixpoint tree_image (swap : bool) (fp : Plane -> Plane)
    (g : list Vector -> list Vector) (pl : list Vector -> Plane)
    h (t : BSPNode) h' (t' : BSPNode) : Prop :=
  hyperPlane t' = fp <$> hyperPlane t
  /\ (exists cs cs',
        parrs h !! polygons t = Some cs /\ parrs h' !! polygons t' = Some cs'
        /\ Forall2 (fun p p' => image g pl h p h' p') cs cs')
  /\ match front t, (if swap then behind t' else front t') with
     | Some f, Some f' => tree_image swap fp g pl h f h' f'
     | None, None => True
     | _, _ => False
     end
  /\ match behind t, (if swap then front t' else behind t') with
     | Some b, Some b' => tree_image swap fp g pl h b h' b'
     | None, None => True
     | _, _ => False
     end.

(** A deep copy: the same nodes and hyperplanes, and in each node new
    polygons with the same vertices and colors, each with the plane of its
    first three vertices. *)
Definition cloned h (t : BSPNode) h' (t' : BSPNode) : Prop :=
  tree_image false (fun hp => hp) (fun vs => vs) plane_of h t h' t'.

(** A mirrored copy: the hyperplanes are flipped, front and behind are
    exchanged, and in each node the new polygons have the vertices in
    reverse order and the flipped plane of the first three vertices of the
    polygon they are made from. *)
Definition flipped h (t : BSPNode) h' (t' : BSPNode) : Prop :=
  tree_image true Plane_flip reverse (fun vs => Plane_flip (plane_of vs)) h t h' t'.

End Images.

(** The number of levels below the root. *)
Fixpoint depth (t : BSPNode) : nat :=
  match front t, behind t with
  | None, None => 0
  | Some f, None => S (depth f)
  | None, Some b => S (depth b)
  | Some f, Some b => S (Nat.max (depth f) (depth b))
  end.

(** Every node of the tree has a hyperplane. *)
Fixpoint has_planes (t : BSPNode) : Prop :=
  is_Some (hyperPlane t)
  /\ match front t with Some f => has_planes f | None => True end
  /\ match behind t with Some b => has_planes b | None => True end.

(** The step of [flip] for one child of the copy. *)
Definition flip_descend {Color : Type} (fuel : nat) (child : option BSPNode)
    : M Color (option BSPNode) :=
  match child with
  | Some f =>
      match fuel with
      | 0 => throw RangeError
      | S fuel' => let* r := BSPNode_flip fuel' f in ret (Some r)
      end
  | None => ret None
  end.

(** ** Outcomes *)

(** The computation throws. *)
Definition fails {Color A : Type} (m : M Color A) (h : Heap Color) : Prop :=
  exists e h', m h = (Err e, h').

(** The polygon [q] with the color [c]. *)
Definition recolored {Color : Type} (c : Color) (q : Polygon Color) : Polygon Color :=
  mkPolygon (vertices q) c (plane q).

(** ** Arrays that only grow *)

Section Appended.
Context {Color : Type}.
Implicit Types (h : Heap Color) (a : ref).

(** The store grows, and every polygon array of [h] is in [h'] with its
    old contents first, followed by polygons with at least three vertices. *)
Definition appended h h' : Prop :=
  grows h h'
  /\ forall a old, parrs h !! a = Some old ->
       exists new, parrs h' !! a = Some (old ++ new) /\ Forall (well_formed h') new.

(** The children of the node, if any, have a hyperplane in every node. *)
Definition planes_below (t : BSPNode) : Prop :=
  match front t with Some f => has_planes f | None => True end
  /\ match behind t with Some b => has_planes b | None => True end.

(** The outcome of [Partition] at the budget [fuel], for a non-empty list
    of well-formed polygons and a tree that is absent or holds well-formed
    polygons: the tree, with a hyperplane in every node, or a
    [RangeError]. *)
Definition into_outcome (fuel : nat) : Prop :=
  forall (input : ref) (ps : list ref) (tree : option BSPNode) h,
    parrs h !! input = Some ps -> ps <> [] -> Forall (well_formed h) ps ->
    match tree with Some t => tree_holds h t /\ planes_below t | None => True end ->
    match BSPNode_Partition fuel (Some input) tree h with
    | (Ok (Some t', tree'), h') =>
        tree' = match tree with Some _ => Some t' | None => None end
        /\ tree_holds h' t' /\ has_planes t' /\ appended h h'
    | (Ok (None, _), _) => False
    | (Err RangeError, _) => True
    | (Err _, _) => False
    end.

End Appended.

(** The computation returns a value and a store that satisfy [Q], or it
    exhausts the stack; it fails in no other way. *)
Definition outcome {Color A : Type} (m : M Color A) (h : Heap Color)
    (Q : A -> Heap Color -> Prop) : Prop :=
  match m h with
  | (Ok x, h') => Q x h'
  | (Err RangeError, _) => True
  | (Err _, _) => False
  end.

(** [g] is a geometry of the store whose polygons have at least three
    vertices each. *)
Definition solid {Color : Type} (g : ref) (h : Heap Color) : Prop :=
  exists a out,
    geoms h !! g = Some (mkGeometry a) /\ parrs h !! a = Some out
    /\ Forall (well_formed h) out.

(** ** The faces of a convex solid *)

(** Two vertices have the same coordinates. *)
Definition Vector_same (u v : Vector) : bool :=
  ((x u =? x v) && (y u =? y v) && (z u =? z v))%float.

(** How many of the directed edges [es] go from [u] to [v]. *)
Definition edge_count (u v : Vector) (es : list (Vector * Vector)) : nat :=
  sum_list_with (fun e => if Vector_same u e.1 && Vector_same v e.2 then 1 else 0) es.

(** The faces form a closed oriented surface: every directed edge of a
    face belongs to that face alone, and the edge between the same two
    vertices in the opposite direction belongs to exactly one face. *)
Definition closed_surface (faces : list (list Vector)) : bool :=
  forallb (fun e => (edge_count e.1 e.2 (flat_map vertex_pairs faces) =? 1)
                    && (edge_count e.2 e.1 (flat_map vertex_pairs faces) =? 1))
    (flat_map vertex_pairs faces).

(** The face [vs] is flat and turned outward: its vertices lie on the
    plane of its first three, no vertex of the solid is in front of that
    plane, and some vertex of the solid is strictly behind it. *)
Definition turned_outward (faces : list (list Vector)) (vs : list Vector) : bool :=
  forallb (fun v => bool_decide (locate (plane_of vs) v = Location.plane)) vs
  && forallb (fun v => negb (bool_decide (locate (plane_of vs) v = Location.front)))
       (List.concat faces)
  && existsb (fun v => bool_decide (locate (plane_of vs) v = Location.back)) (List.concat faces).

(** The eight corners of the cube of side 2 centered at the origin. *)
Definition unit_corners : list Vector :=
  sx ← [(-1)%float; 1%float]; sy ← [(-1)%float; 1%float]; sz ← [(-1)%float; 1%float];
  [new_Vector sx sy sz].

(** The faces are the six sides of the cube of side 2 centered at the
    origin, as a closed convex surface: six faces of four vertices each,
    every vertex a corner of the cube and every corner in exactly three
    faces, the faces joined edge to edge into a closed oriented surface, and
    each face flat and turned outward. *)
Definition unit_cube (faces : list (list Vector)) : bool :=
  (length faces =? 6)
  && forallb (fun vs => length vs =? 4) faces
  && forallb (fun v => existsb (Vector_same v) unit_corners) (List.concat faces)
  && forallb (fun c => sum_list_with (fun v => if Vector_same c v then 1 else 0)
                         (List.concat faces) =? 3) unit_corners
  && closed_surface faces
  && forallb (turned_outward faces) faces.

(** The polygon at [p] is a new polygon with the vertices [vs], the color
    [c] and the plane of its first three vertices. *)
Definition face_of {Color : Type} (c : Color) (h : Heap Color) (vs : list Vector) (p : ref)
    : Prop :=
  exists q, polys h !! p = Some q /\ varrs h !! vertices q = Some vs
            /\ color q = c /\ plane q = plane_of vs.

(** ** Polygons inside a solid *)

(** The vertices [vs] are strictly behind the hyperplane of the node, and
    of its behind child, and so on down the behind side of the tree: for
    the tree of a convex solid, they are inside the solid. *)
Fixpoint strictly_inside (t : BSPNode) (vs : list Vector) : Prop :=
  (exists hp, hyperPlane t = Some hp /\ Forall (fun v => locate hp v = Location.back) vs)
  /\ match behind t with Some b => strictly_inside b vs | None => True end.

(** The polygon [p'] of the store [h'] has the vertices and the color of
    the polygon [p] of the store [h]. *)
Definition same_polygon {Color : Type} (h : Heap Color) (p : ref) (h' : Heap Color) (p' : ref)
    : Prop :=
  exists c, color_of h p = Some c /\ holds h' p' (vertices_of h p) c.

(** ** Collecting the polygons of a tree *)

Section Collects.
Context {Color : Type}.
Implicit Types (h : Heap Color) (a : ref).

(** Started in [h], the computation returns an array that holds [xs]; it
    keeps every polygon array of [h] and touches no polygon, no vertex array
    and no geometry. *)
Definition collects h (m : M Color ref) (xs : list ref) : Prop :=
  exists r h',
    m h = (Ok r, h')
    /\ parrs h' !! r = Some xs
    /\ kept (length (parrs h)) h h'
    /\ varrs h' = varrs h /\ polys h' = polys h /\ geoms h' = geoms h.

End Collects.

(** ** Fixtures: polygons, arrays and geometries made the way callers make them *)

Definition empty_heap : Heap nat := mkHeap [] [] [] [].

(** [new Polygon([...], color)] *)
Definition make_polygon (vc : list Vector * nat) : M nat ref :=
  let* a := alloc_vertices vc.1 in
  new_Polygon a vc.2.

(** An array of new polygons. *)
Definition make_polygons (l : list (list Vector * nat)) : M nat ref :=
  let* ps := mapM make_polygon l in
  alloc_array ps.

(** [new Geometry(polys)] *)
Definition make_geometry (l : list (list Vector * nat)) : M nat ref :=
  let* a := make_polygons l in
  alloc_geometry (mkGeometry a).

(** The store a computation leaves when started in the empty store. *)
Definition heap_after {A} (m : M nat A) : Heap nat := (m empty_heap).2.

(** A triangle in the plane z = 0, facing +z. *)
Definition floor_triangle : list Vector * nat :=
  ([new_Vector 0 0 0; new_Vector 1 0 0; new_Vector 0 1 0], 7).

(** The same triangle, wound the other way: it faces -z. *)
Definition ceiling_triangle : list Vector * nat :=
  ([new_Vector 0 1 0; new_Vector 1 0 0; new_Vector 0 0 0], 8).

(** A triangle in the plane x = 0 that crosses the plane z = 0. *)
Definition crossing_triangle : list Vector * nat :=
  ([new_Vector 0 0 (-1); new_Vector 0 1 1; new_Vector 0 0 1], 9).

(** A triangle in the plane x = 0 above z = 0, touching it at one vertex. *)
Definition touching_triangle : list Vector * nat :=
  ([new_Vector 0 0 0; new_Vector 0 1 1; new_Vector 0 0 1], 10).

(** Four triangles in one array at address 0, and four empty buckets at the
    addresses 1 to 4. *)
Definition bisect_fixture : Heap nat :=
  heap_after
    (make_polygons [floor_triangle; crossing_triangle; ceiling_triangle; touching_triangle] ;;
     alloc_array [] ;; alloc_array [] ;; alloc_array [] ;; alloc_array []).

(** The plane z = 0, facing +z. *)
Definition floor_plane : Plane := plane_of floor_triangle.1.

(** The floor triangle and the crossing triangle in one array, at 0. *)
Definition two_triangles : Heap nat :=
  heap_after (make_polygons [floor_triangle; crossing_triangle]).


(** The floor triangle in the array at 0, the crossing triangle in the
    array at 1. *)
Definition two_arrays : Heap nat :=
  heap_after (make_polygons [floor_triangle] ;; make_polygons [crossing_triangle]).

(** A tree over the two arrays: the floor triangle in the root, the
    crossing triangle in its behind child; and the same tree with a root
    that has no hyperplane. *)
Definition two_nodes : BSPNode :=
  mkBSPNode (Some floor_plane) 0 None
    (Some (mkBSPNode (Some (plane_of crossing_triangle.1)) 1 None None)).

Definition two_nodes_without_plane : BSPNode :=
  mkBSPNode None 0 None
    (Some (mkBSPNode (Some (plane_of crossing_triangle.1)) 1 None None)).

(** The two triangles as a geometry, at 0, and a geometry without
    polygons, at 1. *)
Definition two_geometries : Heap nat :=
  heap_after (make_geometry [floor_triangle; crossing_triangle] ;; make_geometry []).

(** The floor triangle as a geometry, at 0, and the crossing triangle as a
    geometry, at 1. *)
Definition two_solids : Heap nat :=
  heap_after (make_geometry [floor_triangle] ;; make_geometry [crossing_triangle]).

(** * Proofs *)

(** ** The monad and the store *)

Section StoreLemmas.
Context {Color : Type}.
Implicit Types (h : Heap Color) (a : ref).

Lemma bind_Ok {A B} (m : M Color A) (k : A -> M Color B) h x h' :
  m h = (Ok x, h') -> bind m k h = k x h'.
Proof. unfold bind. by intros ->. Qed.

Lemma bind_Err {A B} (m : M Color A) (k : A -> M Color B) h e h' :
  m h = (Err e, h') -> bind m k h = (Err e, h').
Proof. unfold bind. by intros ->. Qed.

Lemma read_polygon_Some h a q :
  polys h !! a = Some q -> read_polygon a h = (Ok q, h).
Proof. unfold read_polygon. by intros ->. Qed.

Lemma read_vertices_Some h a vs :
  varrs h !! a = Some vs -> read_vertices a h = (Ok vs, h).
Proof. unfold read_vertices. by intros ->. Qed.

Lemma read_array_Some h a ps :
  parrs h !! a = Some ps -> read_array a h = (Ok ps, h).
Proof. unfold read_array. by intros ->. Qed.

Lemma read_geometry_Some h a g :
  geoms h !! a = Some g -> read_geometry a h = (Ok g, h).
Proof. unfold read_geometry. by intros ->. Qed.

Lemma push_Some h a x :
  is_Some (parrs h !! a) -> push a x h = (Ok tt, pushed a x h).
Proof. unfold push. by intros [ps ->]. Qed.

Lemma new_Polygon_Ok h a c vs :
  varrs h !! a = Some vs -> 3 <= length vs ->
  new_Polygon a c h =
    (Ok (length (polys h)),
     mkHeap (varrs h) (polys h ++ [mkPolygon a c (plane_of vs)]) (parrs h) (geoms h)).
Proof.
  intros Hvs Hlen. unfold new_Polygon.
  rewrite (bind_Ok _ _ _ _ _ (read_vertices_Some _ _ _ Hvs)).
  destruct vs as [|v0 [|v1 [|v2 vs]]]; simpl in Hlen; try lia.
  reflexivity.
Qed.

(** An emitted fragment, run: the array enters the store, the polygon is
    constructed on it and pushed. *)
Lemma emit_Ok (bucket : ref) (vs : list Vector) (c : Color) h :
  is_Some (parrs h !! bucket) ->
  (if 3 <=? length vs
   then let* a := alloc_vertices vs in
        let* f := new_Polygon a c in
        push bucket f
   else ret tt) h = (Ok tt, emitted bucket vs c h).
Proof.
  intros Hb. unfold emitted. destruct (3 <=? length vs) eqn:Hlen; [|done].
  apply Nat.leb_le in Hlen.
  unfold bind at 1, alloc_vertices at 1.
  erewrite bind_Ok; last first.
  { apply new_Polygon_Ok with (vs := vs); [|done].
    cbn [varrs]. by rewrite lookup_app_r, Nat.sub_diag. }
  by rewrite push_Some.
Qed.

Lemma emitted_parrs_is_Some bucket vs (c : Color) h a :
  is_Some (parrs h !! a) -> is_Some (parrs (emitted bucket vs c h) !! a).
Proof.
  unfold emitted, with_fragment, pushed. destruct (3 <=? length vs); [|done].
  cbn [parrs]. intros Ha. apply lookup_lt_is_Some. rewrite length_alter.
  by apply lookup_lt_is_Some.
Qed.

(** [bisect] on a polygon whose vertices are all on the plane. *)
Lemma Plane_bisect_coplanar (this : Plane) h polygon q vs f s b r :
  polys h !! polygon = Some q -> varrs h !! vertices q = Some vs ->
  isCoplanar (locations this vs) = true ->
  is_Some (parrs h !!
    (if (0 <? Vector_dot (normal this) (normal (plane q)))%float then s else r)) ->
  Plane_bisect this polygon f s b r h =
    (Ok tt, pushed (if (0 <? Vector_dot (normal this) (normal (plane q)))%float
                    then s else r) polygon h).
Proof.
  intros Hq Hvs Hco Ht. unfold Plane_bisect.
  rewrite (bind_Ok _ _ _ _ _ (read_polygon_Some _ _ _ Hq)).
  rewrite (bind_Ok _ _ _ _ _ (read_vertices_Some _ _ _ Hvs)).
  rewrite Hco. destruct (_ <? _)%float; by rewrite push_Some.
Qed.

(** [bisect] on a polygon with a vertex off the plane. *)
Lemma Plane_bisect_split (this : Plane) h polygon q vs f s b r :
  polys h !! polygon = Some q -> varrs h !! vertices q = Some vs ->
  isCoplanar (locations this vs) = false ->
  is_Some (parrs h !! f) -> is_Some (parrs h !! b) ->
  Plane_bisect this polygon f s b r h =
    (Ok tt, emitted b (split this vs (locations this vs)).2 (color q)
              (emitted f (split this vs (locations this vs)).1 (color q) h)).
Proof.
  intros Hq Hvs Hco Hf Hb. unfold Plane_bisect.
  rewrite (bind_Ok _ _ _ _ _ (read_polygon_Some _ _ _ Hq)).
  rewrite (bind_Ok _ _ _ _ _ (read_vertices_Some _ _ _ Hvs)).
  rewrite Hco.
  destruct (split this vs (locations this vs)) as [newFront newBack]. cbn [fst snd].
  rewrite (bind_Ok _ _ _ _ _ (emit_Ok f newFront (color q) h Hf)).
  apply emit_Ok. by apply emitted_parrs_is_Some.
Qed.

(** [bisect] on a polygon of the store, with buckets of the store. *)
Lemma Plane_bisect_Ok (this : Plane) h polygon q vs f s b r :
  polys h !! polygon = Some q -> varrs h !! vertices q = Some vs ->
  is_Some (parrs h !! f) -> is_Some (parrs h !! s) ->
  is_Some (parrs h !! b) -> is_Some (parrs h !! r) ->
  Plane_bisect this polygon f s b r h = (Ok tt, bisected this polygon q vs f s b r h).
Proof.
  intros Hq Hvs Hf Hs Hb Hr. unfold bisected.
  destruct (isCoplanar _) eqn:Hco.
  - rewrite (Plane_bisect_coplanar _ _ _ _ _ _ _ _ _ Hq Hvs Hco);
      by destruct (_ <? _)%float.
  - by apply Plane_bisect_split.
Qed.

End StoreLemmas.

(** ** The classification of vertices *)

Lemma Vector_clone_id (v : Vector) : Vector_clone v = v.
Proof. by destruct v. Qed.

Lemma Prim2SF_eps : Prim2SF 1e-5 = S754_finite false 5902958103587057 (-69).
Proof. vm_compute. reflexivity. Qed.

Lemma Prim2SF_neg_eps : Prim2SF (-1e-5) = S754_finite true 5902958103587057 (-69).
Proof. vm_compute. reflexivity. Qed.

(** A distance below -1e-5 is not above 1e-5: the test for ["back"] is only
    reached when the test for ["front"] failed, and it never hides a vertex
    that passes it. *)
Lemma below_not_above (d : float) :
  (d <? -1e-5)%float = true -> (1e-5 <? d)%float = false.
Proof.
  rewrite !ltb_spec, Prim2SF_eps, Prim2SF_neg_eps.
  unfold SFltb, SFcompare.
  destruct (Prim2SF d) as [s|s| |s m e]; try destruct s; try discriminate; try reflexivity.
Qed.

Lemma locate_front (this : Plane) (v : Vector) :
  locate this v = Location.front <-> (1e-5 <? distance this v)%float = true.
Proof.
  unfold locate. destruct (1e-5 <? distance this v)%float; [done|].
  destruct (distance this v <? -1e-5)%float; split; done.
Qed.

Lemma locate_back (this : Plane) (v : Vector) :
  locate this v = Location.back <-> (distance this v <? -1e-5)%float = true.
Proof.
  unfold locate. destruct (distance this v <? -1e-5)%float eqn:Hb.
  - by rewrite (below_not_above _ Hb).
  - destruct (1e-5 <? distance this v)%float; split; done.
Qed.

Lemma locate_plane (this : Plane) (v : Vector) :
  locate this v = Location.plane <->
  (1e-5 <? distance this v)%float = false /\ (distance this v <? -1e-5)%float = false.
Proof.
  unfold locate. destruct (1e-5 <? distance this v)%float.
  - split; [done|]. by intros [? _].
  - destruct (distance this v <? -1e-5)%float; split; try done. by intros [_ ?].
Qed.

Lemma isCoplanar_foldl (acc : bool) (location : list Location.t) :
  foldl (fun acc x => acc && bool_decide (x = Location.plane)) acc location
  = acc && forallb (fun x => bool_decide (x = Location.plane)) location.
Proof.
  revert acc. induction location as [|x l IH]; intros acc; simpl.
  - by rewrite andb_true_r.
  - by rewrite IH, andb_assoc.
Qed.

Lemma isCoplanar_true (this : Plane) (vs : list Vector) :
  isCoplanar (locations this vs) = true <->
  Forall (fun v => locate this v = Location.plane) vs.
Proof.
  unfold isCoplanar, locations. rewrite isCoplanar_foldl. simpl.
  induction vs as [|v vs IH]; simpl.
  - split; [by constructor|done].
  - by rewrite Forall_cons, andb_true_iff, bool_decide_eq_true, IH.
Qed.

(** ** The walk around the vertices *)

Lemma next_vertices_lookup (vs : list Vector) (i : nat) :
  i < length vs -> next_vertices vs !! i = vs !! ((i + 1) mod length vs).
Proof.
  destruct vs as [|v vs']; [simpl; lia|]. cbn [next_vertices length]. intros Hi.
  destruct (decide (i = length vs')) as [->|Hne].
  - replace (length vs' + 1) with (S (length vs')) by lia.
    rewrite Nat.Div0.mod_same.
    by rewrite lookup_app_r, Nat.sub_diag.
  - rewrite Nat.mod_small by lia. rewrite lookup_app_l by lia.
    by replace (i + 1) with (S i) by lia.
Qed.

Lemma next_vertices_length (vs : list Vector) : length (next_vertices vs) = length vs.
Proof. destruct vs; simpl; [done|]. rewrite length_app. simpl. lia. Qed.

Lemma opposite_tags (l1 l2 : Location.t) :
  bool_decide (l1 <> l2) && bool_decide (l1 <> Location.plane)
    && bool_decide (l2 <> Location.plane) = opposite l1 l2.
Proof. by destruct l1, l2. Qed.

(** One turn of the loop adds the vertex, then the cut if the edge crosses. *)
Lemma split_step_walk (this : Plane) (vs : list Vector) (i : nat) v1 v2 newFront newBack :
  vs !! i = Some v1 -> next_vertices vs !! i = Some v2 ->
  split_step this vs (locations this vs) (newFront, newBack) i
  = (newFront ++ (walk this [(v1, v2)]).1, newBack ++ (walk this [(v1, v2)]).2).
Proof.
  intros H1 H2. assert (Hi : i < length vs) by by eapply lookup_lt_Some.
  rewrite next_vertices_lookup in H2 by done.
  unfold split_step, locations.
  rewrite !(list_lookup_total_fmap (locate this)) by (try done; by eapply lookup_lt_Some).
  rewrite (list_lookup_total_correct _ _ _ H1), (list_lookup_total_correct _ _ _ H2).
  rewrite opposite_tags. simpl. rewrite !app_nil_r.
  change (bisectPoint this v1 v2) with (intersection this v1 v2).
  rewrite !Vector_clone_id.
  destruct (locate this v1), (opposite _ _); simpl;
    by rewrite <- ?app_assoc, ?app_nil_r.
Qed.

Lemma walk_cons (this : Plane) pr (rest : list (Vector * Vector)) :
  walk this (pr :: rest)
  = ((walk this [pr]).1 ++ (walk this rest).1, (walk this [pr]).2 ++ (walk this rest).2).
Proof. destruct pr as [v1 v2]. simpl. by rewrite !app_nil_r, <- !app_assoc. Qed.

Lemma split_from (this : Plane) (vs : list Vector) (k i : nat) acc :
  i + k = length vs ->
  foldl (split_step this vs (locations this vs)) acc (seq i k)
  = (acc.1 ++ (walk this (drop i (vertex_pairs vs))).1,
     acc.2 ++ (walk this (drop i (vertex_pairs vs))).2).
Proof.
  revert i acc. induction k as [|k IH]; intros i [newFront newBack] Hik;
    cbn [seq foldl fst snd].
  - rewrite drop_ge; [by rewrite !app_nil_r|].
    unfold vertex_pairs. rewrite length_zip_with, next_vertices_length. lia.
  - destruct (lookup_lt_is_Some_2 vs i) as [v1 H1]; [lia|].
    destruct (lookup_lt_is_Some_2 (next_vertices vs) i) as [v2 H2];
      [rewrite next_vertices_length; lia|].
    rewrite (split_step_walk _ _ _ _ _ _ _ H1 H2), IH by lia.
    assert (Hp : vertex_pairs vs !! i = Some (v1, v2)).
    { unfold vertex_pairs. apply lookup_zip_with_Some. eauto. }
    rewrite (drop_S _ _ _ Hp), (walk_cons this (v1, v2) (drop (S i) (vertex_pairs vs))).
    cbn [fst snd]. by rewrite !app_assoc.
Qed.

(** The two loops of the program build the lists of the walk. *)
Lemma split_walk (this : Plane) (vs : list Vector) :
  split this vs (locations this vs) = walk this (vertex_pairs vs).
Proof.
  unfold split. rewrite split_from by done. cbn [fst snd app]. rewrite drop_0.
  by destruct (walk this (vertex_pairs vs)).
Qed.

(** ** Bisection: classification, coplanar routing and the split *)

Lemma distance_written_out (this : Plane) (v : Vector) :
  distance this v = signed_distance this v.
Proof. reflexivity. Qed.

Lemma locate_tagged_as (this : Plane) (v : Vector) : tagged_as this v (locate this v).
Proof.
  unfold tagged_as. rewrite <- distance_written_out.
  split; [apply locate_front|]. split; [apply locate_back|apply locate_plane].
Qed.

Lemma locations_tagged_as (this : Plane) (vs : list Vector) :
  Forall2 (tagged_as this) vs (locations this vs).
Proof.
  unfold locations. induction vs as [|v vs IH]; constructor; [apply locate_tagged_as|done].
Qed.

Lemma isCoplanar_forallb (location : list Location.t) :
  isCoplanar location = forallb (fun t => bool_decide (t = Location.plane)) location.
Proof.
  unfold isCoplanar. by rewrite isCoplanar_foldl.
Qed.

(** C5: [bisect] does what the tags of the vertices say, and the tag of a
    vertex is given by its signed distance [d = normal.v + p]: front exactly
    when [d > 1e-5], back exactly when [d < -1e-5], plane otherwise.  A
    polygon whose vertices are all tagged plane is pushed whole on
    [samePlane] if [this.normal.polygon.plane.normal > 0] and on
    [reversePlane] otherwise, no other array and no other object of the
    store being touched: nothing is appended to [front] or [behind]. *)
Theorem C5_classification_and_coplanar_routing {Color : Type}
    (this : Plane) (h : Heap Color) (polygon : ref) (q : Polygon Color)
    (vs : list Vector) (f s b r : ref) :
  polys h !! polygon = Some q -> varrs h !! vertices q = Some vs ->
  is_Some (parrs h !! s) -> is_Some (parrs h !! r) ->
  (is_Some (parrs h !! f) -> is_Some (parrs h !! b) ->
   exists tags,
     Forall2 (tagged_as this) vs tags
     /\ Plane_bisect this polygon f s b r h
        = (Ok tt, routed_by tags this polygon q vs f s b r h))
  /\ (Forall (fun v => (1e-5 <? signed_distance this v)%float = false
                       /\ (signed_distance this v <? -1e-5)%float = false) vs ->
      let target := coplanar_target this (plane q) s r in
      exists h',
        Plane_bisect this polygon f s b r h = (Ok tt, h')
        /\ parrs h' !! target = (fun ps => ps ++ [polygon]) <$> parrs h !! target
        /\ (forall a, a <> target -> parrs h' !! a = parrs h !! a)
        /\ varrs h' = varrs h /\ polys h' = polys h /\ geoms h' = geoms h).
Proof.
  intros Hq Hvs Hs Hr. split.
  - intros Hf Hb. exists (locations this vs). split.
    + apply locations_tagged_as.
    + rewrite (Plane_bisect_Ok this h polygon q vs f s b r Hq Hvs Hf Hs Hb Hr).
      unfold bisected, routed_by, coplanar_target. rewrite isCoplanar_forallb.
      change (orientation this (plane q)) with (Vector_dot (normal this) (normal (plane q))).
      destruct (forallb _ _); [|done].
      by destruct (0 <? Vector_dot (normal this) (normal (plane q)))%float.
  - intros Hall target.
    assert (Hco : isCoplanar (locations this vs) = true).
    { apply isCoplanar_true. eapply Forall_impl; [exact Hall|]. intros v Hv.
      apply locate_plane. by rewrite !distance_written_out. }
    exists (pushed target polygon h). split.
    + apply (Plane_bisect_coplanar _ _ _ _ _ _ _ _ _ Hq Hvs Hco).
      change (Vector_dot (normal this) (normal (plane q))) with (orientation this (plane q)).
      fold (coplanar_target this (plane q) s r). fold target.
      unfold target, coplanar_target. by destruct (_ <? _)%float.
    + unfold pushed. cbn [parrs varrs polys geoms].
      split; [apply list_lookup_alter_eq|].
      split; [|done]. intros a Ha. by apply list_lookup_alter_ne.
Qed.

Lemma C5_witness :
  (exists tags,
      Forall2 (tagged_as floor_plane) floor_triangle.1 tags
      /\ Plane_bisect floor_plane 0 1 2 3 4 bisect_fixture
         = (Ok tt, routed_by tags floor_plane 0 (mkPolygon 0 7 floor_plane)
                     floor_triangle.1 1 2 3 4 bisect_fixture))
  /\ exists h',
      Plane_bisect floor_plane 0 1 2 3 4 bisect_fixture = (Ok tt, h')
      /\ parrs h' !! 2 = Some [0].
Proof.
  destruct (C5_classification_and_coplanar_routing floor_plane bisect_fixture
              0 (mkPolygon 0 7 floor_plane) floor_triangle.1 1 2 3 4 eq_refl eq_refl)
    as [H1 H2].
  - by vm_compute; eauto.
  - by vm_compute; eauto.
  - split.
    + apply H1; by vm_compute; eauto.
    + destruct H2 as (h' & Hrun & Htarget & _).
      * repeat constructor; vm_compute; reflexivity.
      * exists h'. split; [exact Hrun|exact Htarget].
Defined.

(** C4: for a polygon with a vertex off the plane, the front list and the
    back list are those of the walk over the consecutive vertex pairs (a
    front vertex on the front list only, a back vertex on the back list
    only, a plane vertex on both, and after it the intersection vertex on
    both when the pair is front and back in either order), and a polygon
    with the original color is emitted on [front] from the front list and
    on [behind] from the back list, each only if the list has at least 3
    vertices. *)
Theorem C4_bisect_walks_the_vertex_pairs {Color : Type}
    (this : Plane) (h : Heap Color) (polygon : ref) (q : Polygon Color)
    (vs : list Vector) (f s b r : ref) :
  polys h !! polygon = Some q -> varrs h !! vertices q = Some vs ->
  is_Some (parrs h !! f) -> is_Some (parrs h !! b) ->
  ~ Forall (fun v => locate this v = Location.plane) vs ->
  Plane_bisect this polygon f s b r h =
    (Ok tt, emitted b (walk this (vertex_pairs vs)).2 (color q)
              (emitted f (walk this (vertex_pairs vs)).1 (color q) h)).
Proof.
  intros Hq Hvs Hf Hb Hoff. rewrite <- split_walk.
  apply Plane_bisect_split; try done.
  rewrite <- isCoplanar_true in Hoff. by destruct (isCoplanar _).
Qed.

Lemma C4_witness :
  Plane_bisect floor_plane 1 1 2 3 4 bisect_fixture =
    (Ok tt,
     emitted 3 [new_Vector 0 0 (-1); new_Vector 0 0.5 0; new_Vector 0 0 0] 9
       (emitted 1 [new_Vector 0 0.5 0; new_Vector 0 1 1; new_Vector 0 0 1; new_Vector 0 0 0] 9
          bisect_fixture)).
Proof.
  refine (C4_bisect_walks_the_vertex_pairs floor_plane bisect_fixture
            1 _ _ 1 2 3 4 eq_refl eq_refl _ _ _).
  - by vm_compute; eauto.
  - by vm_compute; eauto.
  - intros H. apply isCoplanar_true in H. vm_compute in H. discriminate.
Defined.

(** ** Polygons: clone and flip *)

Section PolygonLemmas.
Context {Color : Type}.
Implicit Types (h : Heap Color) (a : ref).

Lemma write_vertices_Some h a vs :
  is_Some (varrs h !! a) ->
  write_vertices a vs h
  = (Ok tt, mkHeap (<[a := vs]> (varrs h)) (polys h) (parrs h) (geoms h)).
Proof. unfold write_vertices. by intros [? ->]. Qed.

Lemma write_polygon_Some h a (q : Polygon Color) :
  is_Some (polys h !! a) ->
  write_polygon a q h
  = (Ok tt, mkHeap (varrs h) (<[a := q]> (polys h)) (parrs h) (geoms h)).
Proof. unfold write_polygon. by intros [? ->]. Qed.

Lemma lookup_snoc {A} (l : list A) (x : A) : (l ++ [x]) !! length l = Some x.
Proof. by rewrite lookup_app_r, Nat.sub_diag. Qed.

Lemma insert_snoc {A} (l : list A) (x y : A) : <[length l := y]> (l ++ [x]) = l ++ [y].
Proof. by rewrite insert_app_r_alt, Nat.sub_diag. Qed.

Lemma Polygon_clone_Ok h this q vs :
  polys h !! this = Some q -> varrs h !! vertices q = Some vs -> 3 <= length vs ->
  Polygon_clone this h =
    (Ok (length (polys h)),
     mkHeap (varrs h ++ [Vector_clone <$> vs])
            (polys h ++ [mkPolygon (length (varrs h)) (color q)
                           (plane_of (Vector_clone <$> vs))])
            (parrs h) (geoms h)).
Proof.
  intros Hq Hvs Hlen. unfold Polygon_clone.
  rewrite (bind_Ok _ _ _ _ _ (read_polygon_Some _ _ _ Hq)).
  rewrite (bind_Ok _ _ _ _ _ (read_vertices_Some _ _ _ Hvs)).
  unfold bind at 1, alloc_vertices at 1.
  erewrite new_Polygon_Ok; [done| |].
  - cbn [varrs]. apply lookup_snoc.
  - by rewrite length_fmap.
Qed.

Lemma Polygon_flip_Ok h this q vs :
  polys h !! this = Some q -> varrs h !! vertices q = Some vs -> 3 <= length vs ->
  Polygon_flip this h =
    (Ok (length (polys h)),
     mkHeap (varrs h ++ [reverse (Vector_clone <$> vs)])
            (polys h ++ [mkPolygon (length (varrs h)) (color q)
                           (Plane_flip (plane_of (Vector_clone <$> vs)))])
            (parrs h) (geoms h)).
Proof.
  intros Hq Hvs Hlen. unfold Polygon_flip.
  rewrite (bind_Ok _ _ _ _ _ (Polygon_clone_Ok _ _ _ _ Hq Hvs Hlen)).
  erewrite bind_Ok; [|apply read_polygon_Some; cbn [polys]; apply lookup_snoc].
  cbn [vertices].
  erewrite bind_Ok; [|apply read_vertices_Some; cbn [varrs]; apply lookup_snoc].
  erewrite bind_Ok;
    [|apply write_vertices_Some; cbn [varrs]; rewrite lookup_snoc; eauto].
  cbn [varrs polys parrs geoms].
  erewrite bind_Ok; [|apply read_polygon_Some; cbn [polys]; apply lookup_snoc].
  erewrite bind_Ok;
    [|apply write_polygon_Some; cbn [polys]; rewrite lookup_snoc; eauto].
  cbn [varrs polys parrs geoms vertices color plane]. unfold ret.
  by rewrite !insert_snoc.
Qed.

Lemma emitted_polys bucket (vs : list Vector) (c : Color) h :
  polys (emitted bucket vs c h)
  = polys h ++ (if 3 <=? length vs
                then [mkPolygon (length (varrs h)) c (plane_of vs)] else []).
Proof.
  unfold emitted, with_fragment, pushed. destruct (3 <=? length vs); cbn [polys].
  - done.
  - by rewrite app_nil_r.
Qed.

Lemma emitted_varrs bucket (vs : list Vector) (c : Color) h :
  varrs (emitted bucket vs c h)
  = varrs h ++ (if 3 <=? length vs then [vs] else []).
Proof.
  unfold emitted, with_fragment, pushed. destruct (3 <=? length vs); cbn [varrs].
  - done.
  - by rewrite app_nil_r.
Qed.

Lemma emitted_geoms bucket (vs : list Vector) (c : Color) h :
  geoms (emitted bucket vs c h) = geoms h.
Proof. unfold emitted, with_fragment, pushed. by destruct (3 <=? length vs). Qed.

Lemma emitted_parrs bucket (vs : list Vector) (c : Color) h :
  parrs (emitted bucket vs c h)
  = if 3 <=? length vs
    then alter (fun ps => ps ++ [length (polys h)]) bucket (parrs h)
    else parrs h.
Proof. unfold emitted, with_fragment, pushed. by destruct (3 <=? length vs). Qed.

End PolygonLemmas.

(** ** [Partition] and [trim] at their edges *)

Section PartitionLemmas.
Context {Color : Type}.
Implicit Types (h : Heap Color) (a : ref).

(** [Partition], unfolded once, whatever the budget. *)
Lemma BSPNode_Partition_unfold (fuel : nat) (polys : option ref) (tree : option BSPNode) :
  BSPNode_Partition (Color := Color) fuel polys tree =
  match polys with
  | None => ret (None, tree)
  | Some polys =>
    let* ps := read_array polys in
    match ps with
    | [] => ret (None, tree)
    | first :: _ =>
      let* root := match tree with Some t => ret t | None => new_BSPNode end in
      let* q := read_polygon first in
      let hp := Plane_clone (plane q) in
      let* left := alloc_array [] in
      let* right := alloc_array [] in
      forEach ps (fun poly =>
        Plane_bisect hp poly left (polygons root) right (polygons root)) ;;
      let* front' := Partition_descend fuel left (front root) in
      let* behind' := Partition_descend fuel right (behind root) in
      let root := mkBSPNode (Some hp) (polygons root) front' behind' in
      ret (Some root, match tree with Some _ => Some root | None => None end)
    end
  end.
Proof. destruct fuel; reflexivity. Qed.

End PartitionLemmas.

(** C9: with an absent or an empty polygon list, [Partition] returns
    [undefined], leaves the supplied tree and the whole store as they were,
    and throws nothing, whatever the recursion budget. *)
Theorem C9_partition_of_nothing {Color : Type}
    (fuel : nat) (tree : option BSPNode) (h : Heap Color) :
  BSPNode_Partition fuel None tree h = (Ok (None, tree), h)
  /\ forall polys, parrs h !! polys = Some [] ->
       BSPNode_Partition fuel (Some polys) tree h = (Ok (None, tree), h).
Proof.
  split.
  - by rewrite BSPNode_Partition_unfold.
  - intros polys Hp. rewrite BSPNode_Partition_unfold.
    by rewrite (bind_Ok _ _ _ _ _ (read_array_Some _ _ _ Hp)).
Qed.

Lemma C9_witness :
  BSPNode_Partition 0 (Some 1) (Some (mkBSPNode (Some floor_plane) 0 None None))
    bisect_fixture
  = (Ok (None, Some (mkBSPNode (Some floor_plane) 0 None None)), bisect_fixture).
Proof.
  apply (C9_partition_of_nothing 0 (Some (mkBSPNode (Some floor_plane) 0 None None))
           bisect_fixture).
  vm_compute. reflexivity.
Defined.

(** C10: a node without a hyperplane trims nothing: [trim] returns a new
    array, at an address no array of the store had, that holds exactly the
    input polygons in the input order; nothing else changes. *)
Theorem C10_trim_of_a_node_without_plane {Color : Type}
    (this : BSPNode) (input : ref) (ps : list ref) (h : Heap Color) :
  hyperPlane this = None -> parrs h !! input = Some ps ->
  exists r h',
    BSPNode_trim this input h = (Ok r, h')
    /\ parrs h !! r = None /\ r <> input
    /\ parrs h' !! r = Some ps
    /\ h' = mkHeap (varrs h) (polys h) (parrs h ++ [ps]) (geoms h).
Proof.
  intros Hhp Hp. exists (length (parrs h)), (mkHeap (varrs h) (polys h) (parrs h ++ [ps]) (geoms h)).
  split; [|split; [|split; [|split]]].
  - destruct this as [hp a f b]. cbn [hyperPlane] in Hhp. subst hp.
    cbn [BSPNode_trim hyperPlane].
    by rewrite (bind_Ok _ _ _ _ _ (read_array_Some _ _ _ Hp)).
  - by apply lookup_ge_None_2.
  - apply lookup_lt_Some in Hp. lia.
  - cbn [parrs]. apply lookup_snoc.
  - done.
Qed.

Lemma C10_witness :
  exists r h',
    BSPNode_trim (mkBSPNode None 1 None None) 0 bisect_fixture = (Ok r, h')
    /\ parrs h' !! r = Some [0; 1; 2; 3].
Proof.
  destruct (C10_trim_of_a_node_without_plane (mkBSPNode None 1 None None) 0
              [0; 1; 2; 3] bisect_fixture eq_refl eq_refl)
    as (r & h' & Hrun & _ & _ & Hr & _).
  exists r, h'. split; [exact Hrun|exact Hr].
Defined.

(** ** The bisection loops *)

Section Loops.
Context {Color : Type}.
Implicit Types (h : Heap Color) (a : ref).

#[export] Instance grows_preorder : PreOrder (grows (Color := Color)).
Proof.
  split.
  - intros h. by repeat split.
  - intros h1 h2 h3 (?&?&?&?) (?&?&?&?).
    repeat split; try (by etrans); lia.
Qed.

Lemma grows_stored h h' a : grows h h' -> stored h a -> stored h' a.
Proof.
  intros (Hv & Hp & _) (q & vs & Hq & Hvs). exists q, vs.
  split; by eapply prefix_lookup_Some.
Qed.

Lemma grows_holds h h' a vs (c : Color) : grows h h' -> holds h a vs c -> holds h' a vs c.
Proof.
  intros (Hv & Hp & _) (q & Hq & Hc & Hvs). exists q.
  split; [by eapply prefix_lookup_Some|]. split; [done|by eapply prefix_lookup_Some].
Qed.

Lemma grows_well_formed h h' a : grows h h' -> well_formed h a -> well_formed h' a.
Proof.
  intros (Hv & Hp & _) (q & vs & Hq & Hvs & Hlen). exists q, vs.
  split; [by eapply prefix_lookup_Some|]. split; [by eapply prefix_lookup_Some|done].
Qed.

Lemma grows_fragment h h' vs (c : Color) l :
  grows h h' -> fragment h vs c l -> fragment h' vs c l.
Proof.
  unfold fragment. intros Hg. destruct (3 <=? length vs); [|done].
  intros (a & -> & Ha). exists a. split; [done|by eapply grows_holds].
Qed.

Lemma grows_classified (this : Plane) h h' p o :
  grows h h' -> classified this h p o -> classified this h' p o.
Proof.
  intros Hg (q & vs & Hq & Hvs & H). exists q, vs.
  pose proof Hg as (Hv & Hp & Hrest).
  split; [by eapply prefix_lookup_Some|]. split; [by eapply prefix_lookup_Some|].
  destruct (isCoplanar _); [done|].
  destruct H as (? & ? & ? & ?). repeat split; try done;
    by eapply grows_fragment.
Qed.

Lemma grows_pushed h a x : grows h (pushed a x h).
Proof.
  unfold pushed. repeat split; cbn [varrs polys geoms parrs]; try done.
  by rewrite length_alter.
Qed.

(** A fragment, emitted: a new polygon if the list is long enough, pushed
    on the bucket. *)
Lemma emitted_fragment bucket (vs : list Vector) (c : Color) h :
  exists l,
    fragment (emitted bucket vs c h) vs c l
    /\ parrs (emitted bucket vs c h) = alter (fun old => old ++ l) bucket (parrs h)
    /\ grows h (emitted bucket vs c h)
    /\ geoms (emitted bucket vs c h) = geoms h.
Proof.
  unfold fragment, emitted. destruct (3 <=? length vs).
  - exists [length (polys h)]. unfold with_fragment, pushed. cbn [parrs geoms].
    split; [|split; [done|split; [|done]]].
    + eexists. split; [done|]. eexists. cbn [polys varrs].
      split; [apply lookup_snoc|]. split; [done|]. cbn [vertices]. apply lookup_snoc.
    + repeat split; cbn [varrs polys geoms parrs];
        try (by apply prefix_app_r); try done. by rewrite length_alter.
  - exists []. split; [done|]. split; [|by split].
    symmetry. apply list_alter_id. intros. apply app_nil_r.
Qed.

Lemma lookup_alter_app {A} (l : list (list A)) (i x : nat) (k : list A) :
  alter (fun old => old ++ k) i l !! x
  = (fun old => old ++ (if decide (i = x) then k else [])) <$> l !! x.
Proof.
  rewrite list_lookup_alter. destruct (decide (i = x)) as [->|]; [done|].
  destruct (l !! x); simpl; [|done]. by rewrite app_nil_r.
Qed.

(** One call of [bisect]: how the polygon is classified, and what every
    array of the store receives. *)
Lemma Plane_bisect_classified (this : Plane) h p f s b r :
  stored h p ->
  is_Some (parrs h !! f) -> is_Some (parrs h !! s) ->
  is_Some (parrs h !! b) -> is_Some (parrs h !! r) ->
  exists h' o,
    Plane_bisect this p f s b r h = (Ok tt, h')
    /\ grows h h' /\ geoms h' = geoms h
    /\ length (parrs h') = length (parrs h)
    /\ classified this h' p o
    /\ forall x, parrs h' !! x = (fun old => old ++ received f s b r x o) <$> parrs h !! x.
Proof.
  intros (q & vs & Hq & Hvs) Hf Hs Hb Hr.
  exists (bisected this p q vs f s b r h).
  rewrite (Plane_bisect_Ok this h p q vs f s b r) by done.
  unfold bisected, classified, received. destruct (isCoplanar _) eqn:Hco.
  - destruct (0 <? _)%float eqn:Hdot.
    + exists (mkBuckets [] [p] [] []). split; [done|]. split; [apply grows_pushed|].
      split; [done|]. unfold pushed; cbn [parrs polys varrs geoms].
      split; [by rewrite length_alter|]. split.
      * exists q, vs. rewrite Hco, Hdot. by repeat split.
      * intros x. cbn [to_front to_samePlane to_behind to_reversePlane].
        rewrite lookup_alter_app. destruct (parrs h !! x); simpl; [|done].
        repeat destruct (decide _); simpl; by rewrite ?app_nil_r.
    + exists (mkBuckets [] [] [] [p]). split; [done|]. split; [apply grows_pushed|].
      split; [done|]. unfold pushed; cbn [parrs polys varrs geoms].
      split; [by rewrite length_alter|]. split.
      * exists q, vs. rewrite Hco, Hdot. by repeat split.
      * intros x. cbn [to_front to_samePlane to_behind to_reversePlane].
        rewrite lookup_alter_app. destruct (parrs h !! x); simpl; [|done].
        repeat destruct (decide _); simpl; by rewrite ?app_nil_r.
  - rewrite split_walk.
    set (nf := (walk this (vertex_pairs vs)).1). set (nb := (walk this (vertex_pairs vs)).2).
    destruct (emitted_fragment f nf (color q) h) as (fo & Hfo & Hpf & Hgf & Hgeo1).
    destruct (emitted_fragment b nb (color q) (emitted f nf (color q) h))
      as (bo & Hbo & Hpb & Hgb & Hgeo2).
    assert (Hg : grows h (emitted b nb (color q) (emitted f nf (color q) h)))
      by by etrans.
    exists (mkBuckets fo [] bo []). split; [done|].
    split; [done|]. split; [by rewrite Hgeo2|].
    split; [by rewrite Hpb, Hpf, !length_alter|]. split.
    + exists q, vs. pose proof Hg as (Hv & Hp & _).
      split; [by eapply prefix_lookup_Some|].
      split; [by eapply prefix_lookup_Some|].
      rewrite Hco. cbn [to_front to_samePlane to_behind to_reversePlane].
      repeat split; try done. exact (grows_fragment _ _ _ _ _ Hgb Hfo).
    + intros x. cbn [to_front to_samePlane to_behind to_reversePlane].
      rewrite Hpb, Hpf, !lookup_alter_app.
      destruct (parrs h !! x); simpl; [|done].
      repeat destruct (decide _); simpl; by rewrite ?app_nil_r, <- ?app_assoc.
Qed.

(** The loop over a polygon list: every polygon is classified in turn, and
    every array receives what the calls pushed on it, in order. *)
Lemma forEach_bisect (this : Plane) (f s b r : ref) (ps : list ref) h :
  Forall (stored h) ps ->
  is_Some (parrs h !! f) -> is_Some (parrs h !! s) ->
  is_Some (parrs h !! b) -> is_Some (parrs h !! r) ->
  exists h' (os : list Buckets),
    forEach ps (fun poly => Plane_bisect this poly f s b r) h = (Ok tt, h')
    /\ grows h h' /\ geoms h' = geoms h
    /\ length (parrs h') = length (parrs h)
    /\ Forall2 (classified this h') ps os
    /\ forall x, parrs h' !! x
                 = (fun old => old ++ flat_map (received f s b r x) os) <$> parrs h !! x.
Proof.
  revert h. induction ps as [|p ps IH]; intros h Hps Hf Hs Hb Hr.
  - exists h, []. repeat split; try done.
    intros x. simpl. destruct (parrs h !! x); simpl; [|done]. by rewrite app_nil_r.
  - apply Forall_cons in Hps as [Hp Hps].
    destruct (Plane_bisect_classified this h p f s b r Hp Hf Hs Hb Hr)
      as (h1 & o & Hrun & Hg1 & Hgeo1 & Hlen1 & Hcl & Harr1).
    assert (Hsome : forall x, is_Some (parrs h !! x) -> is_Some (parrs h1 !! x)).
    { intros x [old Hx]. rewrite Harr1, Hx. by eexists. }
    destruct (IH h1) as (h2 & os & Hrun2 & Hg2 & Hgeo2 & Hlen2 & Hcls & Harr2);
      try (by apply Hsome).
    { eapply Forall_impl; [done|]. intros a. by apply grows_stored. }
    exists h2, (o :: os). cbn [forEach].
    rewrite (bind_Ok _ _ _ _ _ Hrun). split; [done|].
    split; [by etrans|]. split; [by rewrite Hgeo2|]. split; [by rewrite Hlen2|].
    split.
    + constructor; [by eapply grows_classified|done].
    + intros x. rewrite Harr2, Harr1. destruct (parrs h !! x); simpl; [|done].
      by rewrite app_assoc.
Qed.

Lemma BSPNode_trim_unfold (this : BSPNode) (hp : Plane) (input : ref) :
  hyperPlane this = Some hp ->
  BSPNode_trim (Color := Color) this input =
    (let* inside := alloc_array [] in
     let* out := alloc_array [] in
     let* ps := read_array input in
     forEach ps (fun poly => Plane_bisect hp poly out out inside inside) ;;
     trim_survivors this out inside).
Proof. destruct this as [hp' a f b]. cbn [hyperPlane]. by intros ->. Qed.

End Loops.

(** ** The payload of a polygon *)

(** C8: the fragments [bisect] pushes on the front and the behind bucket,
    the copy [flip] returns and the copy [clone] returns carry the color of
    the polygon they come from; every polygon object the call creates does,
    and the polygon itself keeps its own. *)
Theorem C8_color_is_propagated {Color : Type}
    (h : Heap Color) (polygon : ref) (q : Polygon Color) (vs : list Vector) :
  polys h !! polygon = Some q -> varrs h !! vertices q = Some vs -> 3 <= length vs ->
  (forall (this : Plane) (f s b r : ref),
      is_Some (parrs h !! f) -> is_Some (parrs h !! s) ->
      is_Some (parrs h !! b) -> is_Some (parrs h !! r) ->
      exists h' o,
        Plane_bisect this polygon f s b r h = (Ok tt, h')
        /\ polys h `prefix_of` polys h'
        /\ (forall x, parrs h' !! x
                      = (fun old => old ++ received f s b r x o) <$> parrs h !! x)
        /\ Forall (fun a => exists q', polys h' !! a = Some q' /\ color q' = color q)
             (to_front o ++ to_behind o)
        /\ forall a q', length (polys h) <= a -> polys h' !! a = Some q' ->
                        color q' = color q)
  /\ (exists copy h' q',
        Polygon_flip polygon h = (Ok copy, h')
        /\ length (polys h) <= copy
        /\ polys h' !! copy = Some q' /\ color q' = color q
        /\ polys h' !! polygon = Some q)
  /\ (exists copy h' q',
        Polygon_clone polygon h = (Ok copy, h')
        /\ length (polys h) <= copy
        /\ polys h' !! copy = Some q' /\ color q' = color q
        /\ polys h' !! polygon = Some q).
Proof.
  intros Hq Hvs Hlen. split; [|split].
  - intros this f s b r Hf Hs Hb Hr.
    destruct (Plane_bisect_classified this h polygon f s b r) as
      (h' & o & Hrun & Hg & _ & _ & Hcl & Harr); try done.
    { by exists q, vs. }
    exists h', o. split; [done|].
    pose proof Hg as (Hv & Hp & _).
    split; [done|]. split; [done|]. split.
    + destruct Hcl as (q0 & vs0 & Hq0 & Hvs0 & Hcl).
      assert (q0 = q) as ->.
      { pose proof (prefix_lookup_Some _ _ _ _ Hq Hp). congruence. }
      destruct (isCoplanar _).
      * destruct Hcl as (-> & -> & _). constructor.
      * destruct Hcl as (_ & _ & Hfo & Hbo). apply Forall_app.
        unfold fragment in Hfo, Hbo. split.
        -- destruct (3 <=? length (walk this (vertex_pairs vs0)).1);
             [|rewrite Hfo; constructor].
           destruct Hfo as (a & -> & q' & Hq' & Hc & _).
           constructor; [by exists q'|constructor].
        -- destruct (3 <=? length (walk this (vertex_pairs vs0)).2);
             [|rewrite Hbo; constructor].
           destruct Hbo as (a & -> & q' & Hq' & Hc & _).
           constructor; [by exists q'|constructor].
    + rewrite (Plane_bisect_Ok this h polygon q vs f s b r) in Hrun by done.
      injection Hrun as <-. unfold bisected. destruct (isCoplanar _).
      * assert (Hsame : forall t, polys (pushed t polygon h) = polys h) by done.
        destruct (_ <? _)%float; rewrite Hsame;
          intros a q' Ha Hl; apply lookup_lt_Some in Hl; lia.
      * rewrite !emitted_polys, <- app_assoc.
        intros a q' Ha Hl. rewrite lookup_app_r in Hl by done.
        apply list_elem_of_lookup_2, elem_of_app in Hl.
        destruct Hl as [Hl|Hl];
          [destruct (3 <=? length (split _ _ _).1)|destruct (3 <=? length (split _ _ _).2)];
          try (by apply elem_of_nil in Hl);
          apply list_elem_of_singleton in Hl; by subst q'.
  - eexists _, _, _. split; [by eapply Polygon_flip_Ok|]. cbn [polys].
    split; [done|]. split; [apply lookup_snoc|]. split; [done|].
    rewrite lookup_app_l; [done|by eapply lookup_lt_Some].
  - eexists _, _, _. split; [by eapply Polygon_clone_Ok|]. cbn [polys].
    split; [done|]. split; [apply lookup_snoc|]. split; [done|].
    rewrite lookup_app_l; [done|by eapply lookup_lt_Some].
Qed.

Lemma C8_witness :
  (exists copy h' q',
     Polygon_flip 1 bisect_fixture = (Ok copy, h')
     /\ polys h' !! copy = Some q' /\ color q' = 9)
  /\ (exists h' o,
        Plane_bisect floor_plane 1 1 2 3 4 bisect_fixture = (Ok tt, h')
        /\ parrs h' !! 1 = Some (to_front o) /\ parrs h' !! 3 = Some (to_behind o)
        /\ Forall (fun a => exists q', polys h' !! a = Some q' /\ color q' = 9)
             (to_front o ++ to_behind o)).
Proof.
  assert (Hq : polys bisect_fixture !! 1
               = Some (mkPolygon 1 9 (plane_of crossing_triangle.1)))
    by (vm_compute; reflexivity).
  assert (Hvs : varrs bisect_fixture !! 1 = Some crossing_triangle.1)
    by (vm_compute; reflexivity).
  assert (Hlen : 3 <= length crossing_triangle.1) by (vm_compute; lia).
  destruct (C8_color_is_propagated bisect_fixture 1 _ _ Hq Hvs Hlen)
    as (Hbisect & (copy & h' & q' & Hrun & _ & Hcopy & Hcolor & _) & _).
  split.
  - exists copy, h', q'. split; [exact Hrun|]. split; [exact Hcopy|exact Hcolor].
  - destruct (Hbisect floor_plane 1 2 3 4) as (h1 & o & Hrun1 & _ & Harr & Hall & _);
      try (eexists; reflexivity).
    assert (E1 : parrs bisect_fixture !! 1 = Some []) by (vm_compute; reflexivity).
    assert (E3 : parrs bisect_fixture !! 3 = Some []) by (vm_compute; reflexivity).
    exists h1, o. split; [exact Hrun1|].
    split; [|split; [|exact Hall]].
    + rewrite (Harr 1), E1. unfold received.
      repeat (destruct (decide _); try lia). cbn [fmap option_fmap option_map app].
      by rewrite !app_nil_r.
    + rewrite (Harr 3), E3. unfold received.
      repeat (destruct (decide _); try lia). cbn [fmap option_fmap option_map app].
      by rewrite !app_nil_r.
Defined.

(** ** The buckets of [trim] *)

(** C1, as the program has it: [trim] bisects each input polygon against the
    node's hyperplane; front fragments and polygons coplanar with the same
    orientation are pushed on the "outside" bucket, behind fragments and
    polygons coplanar with the reverse orientation on the "inside" bucket,
    in the order of the input. *)
Theorem C1_trim_routing {Color : Type}
    (this : BSPNode) (hp : Plane) (input : ref) (ps : list ref) (h : Heap Color) :
  hyperPlane this = Some hp -> parrs h !! input = Some ps -> Forall (stored h) ps ->
  let inside := length (parrs h) in
  let out := S (length (parrs h)) in
  exists h1 (os : list Buckets),
    BSPNode_trim this input h = trim_survivors this out inside h1
    /\ grows h h1
    /\ Forall2 (classified hp h1) ps os
    /\ parrs h1 !! out = Some (flat_map (fun o => to_front o ++ to_samePlane o) os)
    /\ parrs h1 !! inside = Some (flat_map (fun o => to_behind o ++ to_reversePlane o) os).
Proof.
  intros Hhp Hin Hps inside out.
  set (h0 := mkHeap (varrs h) (polys h) ((parrs h ++ [[]]) ++ [[]]) (geoms h)).
  assert (Hg0 : grows h h0).
  { repeat split; try done. unfold h0; cbn [parrs]. rewrite !length_app. lia. }
  assert (Hinside : parrs h0 !! inside = Some []).
  { unfold h0, inside; cbn [parrs]. rewrite lookup_app_l by (rewrite length_app; simpl; lia).
    apply lookup_snoc. }
  assert (Hout : parrs h0 !! out = Some []).
  { unfold h0, out; cbn [parrs].
    replace (S (length (parrs h))) with (length (parrs h ++ [[]]))
      by (rewrite length_app; simpl; lia).
    apply lookup_snoc. }
  destruct (forEach_bisect hp out out inside inside ps h0)
    as (h1 & os & Hrun & Hg1 & _ & _ & Hcl & Harr); try by eexists.
  { eapply Forall_impl; [done|]. intros a. by apply grows_stored. }
  exists h1, os. split; [|split; [by etrans|split; [done|]]].
  - rewrite (BSPNode_trim_unfold this hp input Hhp).
    unfold bind at 1, alloc_array at 1. unfold bind at 1, alloc_array at 1.
    cbn [varrs polys parrs geoms]. fold h0.
    replace (length (parrs h ++ [[]])) with out
      by (rewrite length_app; simpl; unfold out; lia).
    fold inside.
    erewrite bind_Ok; last first.
    { apply read_array_Some. unfold h0; cbn [parrs].
      rewrite !lookup_app_l; [done|by eapply lookup_lt_Some|].
      rewrite length_app. apply lookup_lt_Some in Hin. lia. }
    by rewrite (bind_Ok _ _ _ _ _ Hrun).
  - assert (Hne : inside <> out) by (unfold inside, out; lia).
    rewrite !Harr, Hout, Hinside. simpl. split; f_equal; apply flat_map_ext; intros o;
      unfold received; repeat destruct (decide _); try done;
      by rewrite ?app_nil_r.
Qed.

Lemma C1_witness :
  exists h1 (os : list Buckets),
    BSPNode_trim (mkBSPNode (Some floor_plane) 1 None None) 0 bisect_fixture
    = trim_survivors (mkBSPNode (Some floor_plane) 1 None None) 6 5 h1
    /\ Forall2 (classified floor_plane h1) [0; 1; 2; 3] os
    /\ parrs h1 !! 6 = Some (flat_map (fun o => to_front o ++ to_samePlane o) os)
    /\ parrs h1 !! 5 = Some (flat_map (fun o => to_behind o ++ to_reversePlane o) os).
Proof.
  destruct (C1_trim_routing (mkBSPNode (Some floor_plane) 1 None None) floor_plane 0
              [0; 1; 2; 3] bisect_fixture eq_refl eq_refl)
    as (h1 & os & Hrun & _ & Hcl & Hout & Hin).
  - repeat constructor; eexists _, _; split; vm_compute; reflexivity.
  - exists h1, os. split; [exact Hrun|]. split; [exact Hcl|]. split; [exact Hout|exact Hin].
Defined.

(** C1, as it is stated, fails: the first polygon of the fixture lies in
    the plane of the node with the same orientation, and [trim] leaves it in
    the "outside" bucket (the array at 6), not in the "inside" bucket (the
    array at 5); a node without children clears the inside bucket, and the
    polygon is among the survivors. *)
Lemma C1_counterexample :
  let this := mkBSPNode (Some floor_plane) 1 None None in
  let h' := (BSPNode_trim this 0 bisect_fixture).2 in
  isCoplanar (locations floor_plane (vertices_of bisect_fixture 0)) = true
  /\ (0 <? Vector_dot (normal floor_plane) (normal (plane_of (vertices_of bisect_fixture 0))))%float
     = true
  /\ parrs h' !! 5 = Some [5; 2]
  /\ parrs h' !! 6 = Some [0; 4; 6]
  /\ (BSPNode_trim this 0 bisect_fixture).1 = Ok 8
  /\ parrs h' !! 8 = Some [0; 4; 6].
Proof. vm_compute. repeat split; reflexivity. Qed.

(** ** The plane [Partition] gives the root *)

(** C2, as the program has it: whatever tree is supplied, the root that
    [Partition] returns has the plane of the first polygon of the new list
    as its hyperplane: the plane the supplied root had is replaced, and the
    new polygons are bisected against the new one. *)
Theorem C2_partition_replaces_the_root_plane {Color : Type}
    (fuel : nat) (input : ref) (tree : option BSPNode) (h h' : Heap Color)
    (first : ref) (ps : list ref) (q : Polygon Color) (root : BSPNode)
    (tree' : option BSPNode) :
  parrs h !! input = Some (first :: ps) -> polys h !! first = Some q ->
  BSPNode_Partition fuel (Some input) tree h = (Ok (Some root, tree'), h') ->
  hyperPlane root = Some (Plane_clone (plane q))
  /\ (forall t, tree = Some t -> polygons root = polygons t /\ tree' = Some root).
Proof.
  intros Hin Hq Hrun. rewrite BSPNode_Partition_unfold in Hrun.
  rewrite (bind_Ok _ _ _ _ _ (read_array_Some _ _ _ Hin)) in Hrun.
  assert (Hroot : exists t h0,
    (match tree with Some t => ret t | None => new_BSPNode end) h = (Ok t, h0)
    /\ polys h0 = polys h /\ (forall t', tree = Some t' -> t = t')).
  { destruct tree as [t|].
    - exists t, h. repeat split; try done. by intros ? [= ->].
    - eexists _, _. split; [reflexivity|]. by split. }
  destruct Hroot as (t & h0 & Hr & Hp0 & Ht).
  rewrite (bind_Ok _ _ _ _ _ Hr) in Hrun.
  erewrite bind_Ok in Hrun; [|apply read_polygon_Some; by rewrite Hp0].
  unfold bind at 1, alloc_array at 1 in Hrun.
  unfold bind at 1, alloc_array at 1 in Hrun.
  unfold bind at 1 in Hrun.
  destruct (forEach _ _ _) as [[[]|e] h1]; [|discriminate].
  unfold bind at 1 in Hrun.
  destruct (Partition_descend _ _ _ _) as [[front'|e] h2]; [|discriminate].
  unfold bind at 1 in Hrun.
  destruct (Partition_descend _ _ _ _) as [[behind'|e] h3]; [|discriminate].
  unfold ret in Hrun. injection Hrun as <- <- <-.
  split; [done|]. intros t' ->. by rewrite (Ht t' eq_refl).
Qed.

(** At the failing input: a tree is built from the floor triangle, in the
    plane z = 0, and the crossing triangle, in the plane x = 0, is then
    partitioned into it.  The root now has the plane x = 0, the crossing
    triangle sits whole in the root beside the floor triangle, and it was
    not cut along z = 0. *)
Lemma C2_witness :
  let m :=
    let* a := make_polygons [floor_triangle] in
    let* b := make_polygons [crossing_triangle] in
    let* r := BSPNode_Partition 3 (Some a) None in
    let* tree := defined r.1 in
    let* r2 := BSPNode_Partition 3 (Some b) (Some tree) in
    ret (tree, r2.1) in
  exists tree root h',
    m empty_heap = (Ok (tree, Some root), h')
    /\ hyperPlane tree = Some floor_plane
    /\ hyperPlane root = Some (plane_of crossing_triangle.1)
    /\ hyperPlane root <> hyperPlane tree
    /\ parrs h' !! polygons root = Some [0; 1]
    /\ front root = None /\ behind root = None.
Proof.
  set (h1 := heap_after
    (let* a := make_polygons [floor_triangle] in
     let* b := make_polygons [crossing_triangle] in
     BSPNode_Partition 3 (Some a) None)).
  set (tree := mkBSPNode (Some floor_plane) 2 None None).
  destruct (BSPNode_Partition 3 (Some 1) (Some tree) h1) as [res h'] eqn:Hrun.
  assert (Hres : res = Ok (Some (mkBSPNode (Some (plane_of crossing_triangle.1)) 2 None None),
                           Some (mkBSPNode (Some (plane_of crossing_triangle.1)) 2 None None))
                 /\ parrs h' !! 2 = Some [0; 1]).
  { apply (f_equal fst) in Hrun as H1. apply (f_equal snd) in Hrun as H2.
    cbn [fst snd] in H1, H2. subst res h'. vm_compute. by split. }
  destruct Hres as [-> Harr].
  pose proof (C2_partition_replaces_the_root_plane 3 1 (Some tree) h1 h' 1 []
                (mkPolygon 1 9 (plane_of crossing_triangle.1)) _ _
                eq_refl eq_refl Hrun) as [Hplane _].
  exists tree, (mkBSPNode (Some (plane_of crossing_triangle.1)) 2 None None), h'.
  split.
  { apply (f_equal snd) in Hrun as H2. cbn [snd] in H2. subst h'.
    vm_compute. reflexivity. }
  split; [reflexivity|]. split; [exact Hplane|].
  split; [|by repeat split].
  vm_compute. intros [=].
Defined.

(** ** What the calls leave untouched *)

(** Induction on a tree, with the hypothesis for both children. *)
Lemma BSPNode_tree_ind (P : BSPNode -> Prop) :
  (forall hp ps f b,
      match f with Some t => P t | None => True end ->
      match b with Some t => P t | None => True end ->
      P (mkBSPNode hp ps f b)) ->
  forall t, P t.
Proof.
  intros H. fix go 1. intros [hp ps f b]. apply H.
  - destruct f as [t|]; [apply go|exact I].
  - destruct b as [t|]; [apply go|exact I].
Qed.

Section FrameLemmas.
Context {Color : Type}.
Implicit Types (h : Heap Color) (a : ref) (n : nat).

Lemma kept_refl n h : kept n h h.
Proof. by split. Qed.

Lemma kept_trans n h1 h2 h3 : kept n h1 h2 -> kept n h2 h3 -> kept n h1 h3.
Proof.
  intros [Hg1 Ha1] [Hg2 Ha2]. split; [by etrans|].
  intros a Ha. by rewrite Ha2, Ha1.
Qed.

Lemma kept_length n h h' : kept n h h' -> n <= length (parrs h) -> n <= length (parrs h').
Proof. intros [(_ & _ & _ & Hlen) _] ?. lia. Qed.

Lemma kept_weaken n n' h h' : n' <= n -> kept n h h' -> kept n' h h'.
Proof. intros Hn [Hg Ha]. split; [done|]. intros a ?. apply Ha. lia. Qed.

Lemma safe_ret {A} n (x : A) (R : A -> Prop) : R x -> safe (Color := Color) n (ret x) R.
Proof. intros HR h _. split; [apply kept_refl|]. by intros ? [= <-]. Qed.

Lemma safe_throw {A} n (e : error) (R : A -> Prop) : safe (Color := Color) n (throw e) R.
Proof. intros h _. split; [apply kept_refl|]. by intros ? [=]. Qed.

Lemma safe_bind {A B} n (m : M Color A) (k : A -> M Color B) (R : A -> Prop) (R' : B -> Prop) :
  safe n m R -> (forall x, R x -> safe n (k x) R') -> safe n (bind m k) R'.
Proof.
  intros Hm Hk h Hn. unfold bind. destruct (Hm h Hn) as [Hkept HR].
  destruct (m h) as [[x|e] h1]; cbn [fst snd] in *.
  - destruct (Hk x (HR x eq_refl) h1 (kept_length _ _ _ Hkept Hn)) as [Hkept' HR'].
    split; [by eapply kept_trans|done].
  - split; [done|]. by intros ? [=].
Qed.

Lemma safe_weaken {A} n (m : M Color A) (R R' : A -> Prop) :
  safe n m R -> (forall x, R x -> R' x) -> safe n m R'.
Proof. intros Hm HR h Hn. destruct (Hm h Hn) as [? H]. split; [done|]. eauto. Qed.

(** *** The primitives *)

Lemma safe_read_array n a : safe (Color := Color) n (read_array a) (fun _ => True).
Proof.
  intros h _. unfold read_array. destruct (parrs h !! a); (split; [apply kept_refl|done]).
Qed.

Lemma safe_read_polygon n a : safe (Color := Color) n (read_polygon a) (fun _ => True).
Proof.
  intros h _. unfold read_polygon. destruct (polys h !! a); (split; [apply kept_refl|done]).
Qed.

Lemma safe_read_vertices n a : safe (Color := Color) n (read_vertices a) (fun _ => True).
Proof.
  intros h _. unfold read_vertices. destruct (varrs h !! a); (split; [apply kept_refl|done]).
Qed.

Lemma safe_read_geometry n a : safe (Color := Color) n (read_geometry a) (fun _ => True).
Proof.
  intros h _. unfold read_geometry. destruct (geoms h !! a); (split; [apply kept_refl|done]).
Qed.

Lemma safe_alloc_array n (ps : list ref) :
  safe (Color := Color) n (alloc_array ps) (fun a => n <= a).
Proof.
  intros h Hn. unfold alloc_array. cbn [fst snd]. split.
  - split.
    + repeat split; cbn [varrs polys geoms parrs]; try done. rewrite length_app. lia.
    + intros a Ha. cbn [parrs]. apply lookup_app_l. lia.
  - by intros ? [= <-].
Qed.

Lemma safe_alloc_vertices n (vs : list Vector) :
  safe (Color := Color) n (alloc_vertices vs) (fun _ => True).
Proof.
  intros h Hn. unfold alloc_vertices. cbn [fst snd]. split; [|done]. split; [|done].
  repeat split; cbn [varrs polys geoms parrs]; try done. by apply prefix_app_r.
Qed.

Lemma safe_alloc_polygon n (q : Polygon Color) :
  safe n (alloc_polygon q) (fun _ => True).
Proof.
  intros h Hn. unfold alloc_polygon. cbn [fst snd]. split; [|done]. split; [|done].
  repeat split; cbn [varrs polys geoms parrs]; try done. by apply prefix_app_r.
Qed.

Lemma safe_alloc_geometry n (g : Geometry) :
  safe (Color := Color) n (alloc_geometry g) (fun _ => True).
Proof.
  intros h Hn. unfold alloc_geometry. cbn [fst snd]. split; [|done]. split; [|done].
  repeat split; cbn [varrs polys geoms parrs]; try done. by apply prefix_app_r.
Qed.

Lemma safe_push n a (x : ref) : n <= a -> safe (Color := Color) n (push a x) (fun _ => True).
Proof.
  intros Ha h Hn. unfold push. destruct (parrs h !! a); cbn [fst snd].
  - split; [|done]. split; [apply (grows_pushed h a x)|].
    intros a' Ha'. cbn [parrs]. apply list_lookup_alter_ne. lia.
  - split; [apply kept_refl|done].
Qed.

Lemma safe_defined {A} n (o : option A) (R : A -> Prop) :
  (forall x, o = Some x -> R x) -> safe (Color := Color) n (defined o) R.
Proof. intros H. destruct o; [apply safe_ret; auto|apply safe_throw]. Qed.

Lemma safe_forEach {A} n (xs : list A) (f : A -> M Color unit) :
  (forall x, safe n (f x) (fun _ => True)) -> safe n (forEach xs f) (fun _ => True).
Proof.
  intros Hf. induction xs as [|x xs IH]; cbn [forEach].
  - by apply safe_ret.
  - eapply safe_bind; [apply Hf|]. by intros _ _.
Qed.

Lemma safe_mapM {A B} n (f : A -> M Color B) (xs : list A) :
  (forall x, safe n (f x) (fun _ => True)) -> safe n (mapM f xs) (fun _ => True).
Proof.
  intros Hf. induction xs as [|x xs IH]; cbn [mapM].
  - by apply safe_ret.
  - eapply safe_bind; [apply Hf|]. intros y _.
    eapply safe_bind; [apply IH|]. intros ys _. by apply safe_ret.
Qed.

End FrameLemmas.

Section FrameOfTheEngine.
Context {Color : Type}.
Implicit Types (h : Heap Color) (a : ref) (n : nat).

(** *** Polygons *)

Lemma safe_new_Polygon n a (c : Color) : safe n (new_Polygon a c) (fun _ => True).
Proof.
  unfold new_Polygon. eapply safe_bind; [apply safe_read_vertices|].
  intros [|v0 [|v1 [|v2 vs]]] _; try apply safe_throw. apply safe_alloc_polygon.
Qed.

(** Either the polygon is well formed, or [clone] throws and leaves at most
    a new vertex array behind. *)
Lemma Polygon_clone_cases (p : ref) h :
  (exists q vs, polys h !! p = Some q /\ varrs h !! vertices q = Some vs /\ 3 <= length vs)
  \/ (exists e h', Polygon_clone p h = (Err e, h') /\ grows h h' /\ parrs h' = parrs h).
Proof.
  unfold Polygon_clone, bind, read_polygon.
  destruct (polys h !! p) as [q|] eqn:Hq;
    [|right; eexists _, _; split; [reflexivity|]; split; reflexivity].
  unfold read_vertices at 1.
  destruct (varrs h !! vertices q) as [vs|] eqn:Hvs;
    [|right; eexists _, _; split; [reflexivity|]; split; reflexivity].
  destruct (decide (3 <= length vs)) as [Hlen|Hlen]; [left; by exists q, vs|].
  right. unfold alloc_vertices, new_Polygon, bind, read_vertices. cbn [varrs].
  rewrite lookup_snoc.
  destruct vs as [|v0 [|v1 [|v2 vs]]]; simpl in Hlen; try lia;
    (eexists _, _; split; [reflexivity|]; split; [|done];
     repeat split; cbn [varrs polys geoms parrs]; try done; by apply prefix_app_r).
Qed.

Lemma safe_Polygon_clone n (p : ref) :
  safe (Color := Color) n (Polygon_clone p) (fun _ => True).
Proof.
  intros h Hn. split; [|done].
  destruct (Polygon_clone_cases p h) as [(q & vs & Hq & Hvs & Hlen)|(e & h' & -> & Hg & Hp)].
  - rewrite (Polygon_clone_Ok h p q vs Hq Hvs Hlen). cbn [snd]. split; [|done].
    repeat split; cbn [varrs polys geoms parrs]; try done; by apply prefix_app_r.
  - cbn [snd]. split; [done|]. intros a _. by rewrite Hp.
Qed.

Lemma safe_Polygon_flip n (p : ref) :
  safe (Color := Color) n (Polygon_flip p) (fun _ => True).
Proof.
  intros h Hn. split; [|done].
  destruct (Polygon_clone_cases p h) as [(q & vs & Hq & Hvs & Hlen)|(e & h' & Hrun & Hg & Hp)].
  - rewrite (Polygon_flip_Ok h p q vs Hq Hvs Hlen). cbn [snd]. split; [|done].
    repeat split; cbn [varrs polys geoms parrs]; try done; by apply prefix_app_r.
  - unfold Polygon_flip. rewrite (bind_Err _ _ _ _ _ Hrun). cbn [snd].
    split; [done|]. intros a _. by rewrite Hp.
Qed.

(** *** Bisection *)

Lemma safe_Plane_bisect n (this : Plane) (p f s b r : ref) :
  n <= f -> n <= s -> n <= b -> n <= r ->
  safe (Color := Color) n (Plane_bisect this p f s b r) (fun _ => True).
Proof.
  intros Hf Hs Hb Hr. unfold Plane_bisect.
  eapply safe_bind; [apply safe_read_polygon|]. intros q _.
  eapply safe_bind; [apply safe_read_vertices|]. intros vs _.
  destruct (isCoplanar _).
  - destruct (_ <? _)%float; by apply safe_push.
  - destruct (split this vs (locations this vs)) as [newFront newBack].
    eapply safe_bind with (R := fun _ => True).
    + destruct (3 <=? length newFront); [|by apply safe_ret].
      eapply safe_bind; [apply safe_alloc_vertices|]. intros a _.
      eapply safe_bind; [apply safe_new_Polygon|]. intros x _. by apply safe_push.
    + intros _ _. destruct (3 <=? length newBack); [|by apply safe_ret].
      eapply safe_bind; [apply safe_alloc_vertices|]. intros a _.
      eapply safe_bind; [apply safe_new_Polygon|]. intros x _. by apply safe_push.
Qed.

(** *** Trees *)

Lemma tree_above_inv n (t : BSPNode) :
  tree_above n t ->
  n <= polygons t /\ option_above n (front t) /\ option_above n (behind t).
Proof. by destruct t. Qed.

Lemma safe_new_BSPNode n : safe (Color := Color) n new_BSPNode (tree_above n).
Proof.
  unfold new_BSPNode. eapply safe_bind; [apply safe_alloc_array|].
  intros a Ha. apply safe_ret. by repeat split.
Qed.

Lemma safe_concat n (a b : ref) : safe (Color := Color) n (concat a b) (fun r => n <= r).
Proof.
  unfold concat. eapply safe_bind; [apply safe_read_array|]. intros xs _.
  eapply safe_bind; [apply safe_read_array|]. intros ys _. apply safe_alloc_array.
Qed.

Lemma safe_child n (child : option BSPNode) :
  option_above n child ->
  safe (Color := Color) n
    (match child with Some f => ret f | None => new_BSPNode end) (tree_above n).
Proof. intros H. destruct child; [by apply safe_ret|apply safe_new_BSPNode]. Qed.

Lemma safe_Partition_descend n (fuel : nat) (bucket : ref) (child : option BSPNode) :
  (forall fuel' polys tree, fuel = S fuel' -> option_above n tree ->
     safe (Color := Color) n (BSPNode_Partition fuel' polys tree)
       (fun r => option_above n r.1 /\ option_above n r.2)) ->
  option_above n child ->
  safe (Color := Color) n (Partition_descend fuel bucket child) (option_above n).
Proof.
  intros IH Hchild. unfold Partition_descend.
  eapply safe_bind; [apply safe_read_array|]. intros xs _.
  destruct (0 <? length xs); [|by apply safe_ret].
  eapply safe_bind; [by apply safe_child|]. intros c Hc.
  destruct fuel as [|fuel']; [apply safe_throw|].
  eapply safe_bind; [by apply IH|]. intros r [_ Hr]. by apply safe_ret.
Qed.

Lemma safe_BSPNode_Partition n (fuel : nat) (polys : option ref) (tree : option BSPNode) :
  option_above n tree ->
  safe (Color := Color) n (BSPNode_Partition fuel polys tree)
    (fun r => option_above n r.1 /\ option_above n r.2).
Proof.
  revert polys tree. induction fuel as [fuel IH] using lt_wf_ind. intros polys tree Htree.
  rewrite BSPNode_Partition_unfold. destruct polys as [polys|]; [|by apply safe_ret].
  eapply safe_bind; [apply safe_read_array|]. intros [|first ps] _; [by apply safe_ret|].
  eapply safe_bind; [by apply safe_child|]. intros root Hroot.
  apply tree_above_inv in Hroot as (Hroot & Hfront & Hbehind).
  eapply safe_bind; [apply safe_read_polygon|]. intros q _.
  eapply safe_bind; [apply safe_alloc_array|]. intros left Hleft.
  eapply safe_bind; [apply safe_alloc_array|]. intros right Hright.
  eapply safe_bind; [apply safe_forEach; intros x; by apply safe_Plane_bisect|].
  intros _ _.
  assert (Hdescend : forall bucket child, option_above n child ->
            safe (Color := Color) n (Partition_descend fuel bucket child) (option_above n)).
  { intros bucket child Hc. apply safe_Partition_descend; [|done].
    intros fuel' polys' tree' -> ?. apply IH; [lia|done]. }
  eapply safe_bind; [by apply Hdescend|]. intros front' Hf'.
  eapply safe_bind; [by apply Hdescend|]. intros behind' Hb'.
  apply safe_ret.
  assert (Hnew : tree_above n (mkBSPNode (Some (Plane_clone (plane q))) (polygons root)
                                 front' behind')) by by repeat split.
  split; [done|]. by destruct tree.
Qed.

Lemma safe_BSPNode_concatPolys n (this : BSPNode) :
  safe (Color := Color) n (BSPNode_concatPolys this) (fun r => n <= r).
Proof.
  induction this as [hp ps f b IHf IHb] using BSPNode_tree_ind.
  cbn [BSPNode_concatPolys polygons front behind].
  eapply safe_bind; [apply safe_read_array|]. intros xs _.
  eapply safe_bind; [apply safe_alloc_array|]. intros a Ha.
  eapply safe_bind with (R := fun r => n <= r).
  { destruct f as [f|]; [|by apply safe_ret].
    eapply safe_bind; [apply IHf|]. intros r _. apply safe_concat. }
  intros a' Ha'.
  eapply safe_bind with (R := fun r => n <= r).
  { destruct b as [b|]; [|by apply safe_ret].
    eapply safe_bind; [apply IHb|]. intros r _. apply safe_concat. }
  intros a'' Ha''. by apply safe_ret.
Qed.

Lemma safe_BSPNode_toGeometry n (this : BSPNode) :
  safe (Color := Color) n (BSPNode_toGeometry this) (fun _ => True).
Proof.
  unfold BSPNode_toGeometry. eapply safe_bind; [apply safe_BSPNode_concatPolys|].
  intros a _. apply safe_alloc_geometry.
Qed.

Lemma safe_BSPNode_clone n (this : BSPNode) :
  safe (Color := Color) n (BSPNode_clone this) (tree_above n).
Proof.
  induction this as [hp ps f b IHf IHb] using BSPNode_tree_ind.
  cbn [BSPNode_clone hyperPlane polygons front behind].
  eapply safe_bind; [apply safe_new_BSPNode|]. intros tree Ht.
  apply tree_above_inv in Ht as (_ & Htf & Htb).
  eapply safe_bind with (R := option_above n).
  { destruct f as [f|]; [|by apply safe_ret].
    eapply safe_bind; [apply IHf|]. intros r Hr. by apply safe_ret. }
  intros front' Hf'.
  eapply safe_bind with (R := option_above n).
  { destruct b as [b|]; [|by apply safe_ret].
    eapply safe_bind; [apply IHb|]. intros r Hr. by apply safe_ret. }
  intros behind' Hb'.
  eapply safe_bind; [apply safe_read_array|]. intros xs _.
  eapply safe_bind; [apply safe_mapM; intros x; apply safe_Polygon_clone|]. intros ys _.
  eapply safe_bind; [apply safe_alloc_array|]. intros a Ha.
  apply safe_ret. by repeat split.
Qed.

Lemma safe_BSPNode_flip n (fuel : nat) (this : BSPNode) :
  safe (Color := Color) n (BSPNode_flip fuel this) (tree_above n).
Proof.
  revert this. induction fuel as [fuel IH] using lt_wf_ind. intros this.
  assert (Hrec : forall child : option BSPNode,
    safe (Color := Color) n
      (match child with
       | Some f =>
         match fuel with
         | 0 => throw RangeError
         | S fuel' => let* r := BSPNode_flip fuel' f in ret (Some r)
         end
       | None => ret None
       end) (option_above n)).
  { intros [f|]; [|by apply safe_ret]. destruct fuel as [|fuel']; [apply safe_throw|].
    eapply safe_bind; [apply IH; lia|]. intros r Hr. by apply safe_ret. }
  destruct fuel as [|fuel']; cbn [BSPNode_flip];
    (eapply safe_bind; [apply safe_BSPNode_clone|]; intros copy Hcopy;
     eapply safe_bind; [by apply safe_defined with (R := fun _ => True)|]; intros hp _;
     eapply safe_bind; [apply safe_read_array|]; intros xs _;
     eapply safe_bind; [apply safe_mapM; intros x; apply safe_Polygon_flip|]; intros ys _;
     eapply safe_bind; [apply safe_alloc_array|]; intros a Ha;
     eapply safe_bind; [apply (Hrec (front copy))|]; intros front' Hf';
     eapply safe_bind; [apply (Hrec (behind copy))|]; intros behind' Hb';
     apply safe_ret; by repeat split).
Qed.

Lemma safe_BSPNode_trim n (this : BSPNode) (input : ref) :
  safe (Color := Color) n (BSPNode_trim this input) (fun r => n <= r).
Proof.
  revert input. induction this as [hp ps f b IHf IHb] using BSPNode_tree_ind. intros input.
  cbn [BSPNode_trim hyperPlane front behind]. destruct hp as [hp|].
  - eapply safe_bind; [apply safe_alloc_array|]. intros inside Hi.
    eapply safe_bind; [apply safe_alloc_array|]. intros out Ho.
    eapply safe_bind; [apply safe_read_array|]. intros xs _.
    eapply safe_bind; [apply safe_forEach; intros x; by apply safe_Plane_bisect|].
    intros _ _.
    eapply safe_bind with (R := fun r => n <= r).
    { destruct f as [f|]; [apply IHf|by apply safe_ret]. }
    intros out' _.
    eapply safe_bind with (R := fun r => n <= r).
    { destruct b as [b|]; [apply IHb|apply safe_alloc_array]. }
    intros inside' _. apply safe_concat.
  - eapply safe_bind; [apply safe_read_array|]. intros xs _. apply safe_alloc_array.
Qed.

Lemma safe_BSPNode_treeTrimSelf n (this tree : BSPNode) :
  safe (Color := Color) n (BSPNode_treeTrimSelf this tree) (tree_above n).
Proof.
  induction this as [hp ps f b IHf IHb] using BSPNode_tree_ind.
  cbn [BSPNode_treeTrimSelf hyperPlane polygons front behind].
  eapply safe_bind; [apply safe_BSPNode_trim|]. intros a Ha.
  eapply safe_bind with (R := option_above n).
  { destruct f as [f|]; [|by apply safe_ret].
    eapply safe_bind; [apply IHf|]. intros r Hr. by apply safe_ret. }
  intros front' Hf'.
  eapply safe_bind with (R := option_above n).
  { destruct b as [b|]; [|by apply safe_ret].
    eapply safe_bind; [apply IHb|]. intros r Hr. by apply safe_ret. }
  intros behind' Hb'. apply safe_ret. by repeat split.
Qed.

End FrameOfTheEngine.

(** ** The boolean operators and the store of the caller *)

Section FrameOfTheOperators.
Context {Color : Type}.
Implicit Types (h : Heap Color) (a : ref) (n : nat).

Lemma safe_defined_tree n (o : option BSPNode) :
  option_above n o -> safe (Color := Color) n (defined o) (tree_above n).
Proof. intros H. apply safe_defined. by intros t ->. Qed.

Lemma safe_BSPNode_Union n (fuel : nat) (geo1 geo2 : ref) :
  safe (Color := Color) n (BSPNode_Union fuel geo1 geo2) (fun _ => True).
Proof.
  unfold BSPNode_Union.
  eapply safe_bind; [apply safe_read_geometry|]. intros g1 _.
  eapply safe_bind; [by apply safe_BSPNode_Partition|]. intros r1 [Hr1 _].
  eapply safe_bind; [apply safe_read_geometry|]. intros g2 _.
  eapply safe_bind; [by apply safe_BSPNode_Partition|]. intros r2 [Hr2 _].
  eapply safe_bind; [by apply safe_defined_tree|]. intros tree1 Ht1.
  eapply safe_bind; [by apply safe_defined_tree|]. intros tree2 Ht2.
  eapply safe_bind; [apply safe_BSPNode_treeTrimSelf|]. intros tree1' Ht1'.
  eapply safe_bind; [apply safe_BSPNode_treeTrimSelf|]. intros tree2' Ht2'.
  eapply safe_bind; [apply safe_BSPNode_flip|]. intros tree2a _.
  eapply safe_bind; [apply safe_BSPNode_treeTrimSelf|]. intros tree2b _.
  eapply safe_bind; [apply safe_BSPNode_flip|]. intros tree2c _.
  eapply safe_bind; [apply safe_BSPNode_concatPolys|]. intros polys _.
  eapply safe_bind; [by apply safe_BSPNode_Partition|]. intros r [_ Hr].
  eapply safe_bind; [by apply safe_defined_tree|]. intros tree1'' _.
  apply safe_BSPNode_toGeometry.
Qed.

Lemma safe_BSPNode_Intersect n (fuel : nat) (geo1 geo2 : ref) :
  safe (Color := Color) n (BSPNode_Intersect fuel geo1 geo2) (fun _ => True).
Proof.
  unfold BSPNode_Intersect.
  eapply safe_bind; [apply safe_read_geometry|]. intros g1 _.
  eapply safe_bind; [by apply safe_BSPNode_Partition|]. intros r1 [Hr1 _].
  eapply safe_bind; [apply safe_read_geometry|]. intros g2 _.
  eapply safe_bind; [by apply safe_BSPNode_Partition|]. intros r2 [Hr2 _].
  eapply safe_bind; [by apply safe_defined_tree|]. intros tree1 Ht1.
  eapply safe_bind; [apply safe_BSPNode_flip|]. intros tree1a Ht1a.
  eapply safe_bind; [by apply safe_defined_tree|]. intros tree2 Ht2.
  eapply safe_bind; [apply safe_BSPNode_treeTrimSelf|]. intros tree2a _.
  eapply safe_bind; [apply safe_BSPNode_flip|]. intros tree2b _.
  eapply safe_bind; [apply safe_BSPNode_treeTrimSelf|]. intros tree1b Ht1b.
  eapply safe_bind; [apply safe_BSPNode_treeTrimSelf|]. intros tree2c _.
  eapply safe_bind; [apply safe_BSPNode_concatPolys|]. intros polys _.
  eapply safe_bind; [by apply safe_BSPNode_Partition|]. intros r [_ Hr].
  eapply safe_bind; [by apply safe_defined_tree|]. intros tree1c _.
  eapply safe_bind; [apply safe_BSPNode_flip|]. intros tree1d _.
  apply safe_BSPNode_toGeometry.
Qed.

Lemma safe_BSPNode_Subtract n (fuel : nat) (geo1 geo2 : ref) :
  safe (Color := Color) n (BSPNode_Subtract fuel geo1 geo2) (fun _ => True).
Proof.
  unfold BSPNode_Subtract.
  eapply safe_bind; [apply safe_read_geometry|]. intros g1 _.
  eapply safe_bind; [by apply safe_BSPNode_Partition|]. intros r1 [Hr1 _].
  eapply safe_bind; [apply safe_read_geometry|]. intros g2 _.
  eapply safe_bind; [by apply safe_BSPNode_Partition|]. intros r2 [Hr2 _].
  eapply safe_bind; [by apply safe_defined_tree|]. intros tree1 Ht1.
  eapply safe_bind; [apply safe_BSPNode_flip|]. intros tree1a Ht1a.
  eapply safe_bind; [by apply safe_defined_tree|]. intros tree2 Ht2.
  eapply safe_bind; [apply safe_BSPNode_treeTrimSelf|]. intros tree1b Ht1b.
  eapply safe_bind; [apply safe_BSPNode_treeTrimSelf|]. intros tree2a _.
  eapply safe_bind; [apply safe_BSPNode_flip|]. intros tree2b _.
  eapply safe_bind; [apply safe_BSPNode_treeTrimSelf|]. intros tree2c _.
  eapply safe_bind; [apply safe_BSPNode_flip|]. intros tree2d _.
  eapply safe_bind; [apply safe_BSPNode_concatPolys|]. intros polys _.
  eapply safe_bind; [by apply safe_BSPNode_Partition|]. intros r [_ Hr].
  eapply safe_bind; [by apply safe_defined_tree|]. intros tree1c _.
  eapply safe_bind; [apply safe_BSPNode_flip|]. intros tree1d _.
  apply safe_BSPNode_toGeometry.
Qed.

Lemma prefix_of_lookup {A} (l l' : list A) :
  length l <= length l' -> (forall i, i < length l -> l' !! i = l !! i) -> l `prefix_of` l'.
Proof.
  intros Hlen Hl. exists (drop (length l) l').
  rewrite <- (take_drop (length l) l') at 1. f_equal.
  apply list_eq. intros i. destruct (decide (i < length l)) as [Hi|Hi].
  - rewrite lookup_take_lt by done. by apply Hl.
  - rewrite lookup_take_ge by lia. symmetry. apply lookup_ge_None_2. lia.
Qed.

Lemma kept_extends h h' : kept (length (parrs h)) h h' -> extends h h'.
Proof.
  intros [(Hv & Hp & Hg & Hlen) Harr]. repeat split; try done.
  by apply prefix_of_lookup.
Qed.

Lemma safe_extends {A} (m : M Color A) (R : A -> Prop) h :
  (forall n, safe n m R) -> extends h (m h).2.
Proof. intros Hm. apply kept_extends. by apply (Hm (length (parrs h)) h). Qed.

End FrameOfTheOperators.

(** C7, as the program has it: a call of [Union], [Intersect] or [Subtract],
    whether it returns or throws, leaves every object of the store it was
    started in unchanged and at its address: each input geometry has the same
    polygon array, with the same polygons in the same order, and each of
    these has the same vertex coordinates, color and plane. *)
Theorem C7_operators_leave_the_inputs_unchanged {Color : Type}
    (fuel : nat) (geo1 geo2 : ref) (h : Heap Color) :
  extends h (BSPNode_Union fuel geo1 geo2 h).2
  /\ extends h (BSPNode_Intersect fuel geo1 geo2 h).2
  /\ extends h (BSPNode_Subtract fuel geo1 geo2 h).2.
Proof.
  split; [|split]; eapply safe_extends; intros n.
  - apply safe_BSPNode_Union.
  - apply safe_BSPNode_Intersect.
  - apply safe_BSPNode_Subtract.
Qed.

(** C7, as it is stated, fails in its first half: the trees are not built
    from copies.  Two geometries hold one floor triangle each, the polygon
    objects 0 and 1.  The geometry that [Union] returns holds the polygon
    object 0 itself, the very object of the first input. *)
Lemma C7_counterexample :
  let h0 := heap_after (make_geometry [floor_triangle] ;; make_geometry [floor_triangle]) in
  let r := BSPNode_Union 3 0 1 h0 in
  length (polys h0) = 2
  /\ geoms h0 !! 0 = Some (mkGeometry 0) /\ parrs h0 !! 0 = Some [0]
  /\ r.1 = Ok 2
  /\ geoms r.2 !! 2 = Some (mkGeometry 27) /\ parrs r.2 !! 27 = Some [0].
Proof. vm_compute. repeat split; reflexivity. Qed.

(** ** How long the two lists of the walk are *)

Lemma walk_lengths (this : Plane) (pairs : list (Vector * Vector)) :
  length (walk this pairs).1
  = tagged this Location.front pairs.*1 + tagged this Location.plane pairs.*1
    + cuts this pairs
  /\ length (walk this pairs).2
     = tagged this Location.back pairs.*1 + tagged this Location.plane pairs.*1
       + cuts this pairs.
Proof.
  unfold tagged, cuts. induction pairs as [|[v1 v2] rest [IH1 IH2]]; [done|].
  cbn [walk fst snd fmap list_fmap]. rewrite !length_app, IH1, IH2.
  rewrite !filter_cons. cbn [fst snd].
  destruct (locate this v1) eqn:H1, (locate this v2) eqn:H2; cbn [opposite];
    repeat case_decide; try done; simpl; lia.
Qed.

Lemma tagged_total (this : Plane) (vs : list Vector) :
  tagged this Location.front vs + tagged this Location.back vs
  + tagged this Location.plane vs = length vs.
Proof.
  unfold tagged. induction vs as [|v vs IH]; [done|].
  rewrite !filter_cons. destruct (locate this v);
    repeat case_decide; try done; simpl; lia.
Qed.

Lemma vertex_pairs_fst (vs : list Vector) : (vertex_pairs vs).*1 = vs.
Proof.
  unfold vertex_pairs. apply fst_zip. rewrite next_vertices_length. lia.
Qed.

Lemma separations_cons (a b : Location.t) (rest : list Location.t) :
  separations (a :: b :: rest)
  = (if bool_decide (a = Location.plane) then 1 else 0)
    + (if opposite a b then 1 else 0) + separations (b :: rest).
Proof. reflexivity. Qed.

(** The cut pairs and the plane vertices of a loop are the separations of
    the closed walk of its tags. *)
Lemma separations_pairs (this : Plane) (vs : list Vector) (v : Vector) :
  separations (locate this <$> (vs ++ [v]))
  = tagged this Location.plane vs + cuts this (zip vs (tail vs ++ [v])).
Proof.
  unfold tagged, cuts. induction vs as [|a vs IH]; [done|].
  destruct vs as [|b vs].
  - cbn. by destruct (locate this a), (locate this v).
  - change (tail (a :: b :: vs) ++ [v]) with (b :: (vs ++ [v])).
    change (zip (a :: b :: vs) (b :: (vs ++ [v])))
      with ((a, b) :: zip (b :: vs) (tail (b :: vs) ++ [v])).
    rewrite (filter_cons _ a), (filter_cons _ (a, b)). cbn [fst snd].
    change (locate this <$> ((a :: b :: vs) ++ [v]))
      with (locate this a :: locate this b :: (locate this <$> (vs ++ [v]))).
    rewrite separations_cons.
    change (locate this b :: (locate this <$> (vs ++ [v])))
      with (locate this <$> ((b :: vs) ++ [v])).
    rewrite IH.
    destruct (locate this a), (locate this b); cbn [opposite];
      repeat case_decide; repeat case_bool_decide; try done; simpl; lia.
Qed.

Lemma separations_app (u v : list Location.t) (c : Location.t) :
  separations (u ++ c :: v) = separations (u ++ [c]) + separations (c :: v).
Proof.
  induction u as [|a u IH]; [done|].
  destruct u as [|b u].
  - cbn. lia.
  - change ((a :: b :: u) ++ c :: v) with (a :: b :: (u ++ c :: v)).
    change ((a :: b :: u) ++ [c]) with (a :: b :: (u ++ [c])).
    rewrite !separations_cons.
    change (b :: (u ++ c :: v)) with ((b :: u) ++ c :: v).
    change (b :: (u ++ [c])) with ((b :: u) ++ [c]).
    rewrite IH. lia.
Qed.

Lemma separations_plane (w : list Location.t) :
  w <> [] -> separations (Location.plane :: w) = 1 + separations w.
Proof. destruct w as [|c w]; [done|]. intros _. rewrite separations_cons. by destruct c. Qed.

(** From a front tag to a back tag, or back to front, there is a
    separation on the way. *)
Lemma separations_between (a b : Location.t) (u : list Location.t) :
  opposite a b = true -> 1 <= separations (a :: u ++ [b]).
Proof.
  revert a. induction u as [|c u IH]; intros a Hab.
  - cbn. rewrite Hab. lia.
  - change (a :: (c :: u) ++ [b]) with (a :: c :: (u ++ [b])).
    rewrite separations_cons.
    destruct (opposite a c) eqn:Hac; [lia|].
    destruct c.
    + specialize (IH Location.front). destruct a, b; try done; cbn in *; lia.
    + specialize (IH Location.back). destruct a, b; try done; cbn in *; lia.
    + rewrite separations_plane by (by destruct u). lia.
Qed.

Lemma separations_segment (a b : Location.t) (pre mid post : list Location.t) :
  opposite a b = true -> 1 <= separations (pre ++ a :: mid ++ b :: post).
Proof.
  intros Hab. rewrite (separations_app pre (mid ++ b :: post) a).
  change (a :: mid ++ b :: post) with ((a :: mid) ++ b :: post).
  rewrite (separations_app (a :: mid) post b).
  pose proof (separations_between a b mid Hab).
  change ((a :: mid) ++ [b]) with (a :: mid ++ [b]). lia.
Qed.

(** A closed walk that meets a front and a back tag has two separations. *)
Lemma separations_closed (x0 : Location.t) (l : list Location.t) :
  Location.front ∈ x0 :: l -> Location.back ∈ x0 :: l ->
  2 <= separations (x0 :: l ++ [x0]).
Proof.
  intros Hf Hb. destruct x0.
  - apply elem_of_cons in Hb as [?|Hb]; [done|].
    apply list_elem_of_split in Hb as (u & v & ->).
    rewrite <- app_assoc.
    change (Location.front :: u ++ (Location.back :: v) ++ [Location.front])
      with ((Location.front :: u) ++ Location.back :: (v ++ [Location.front])).
    rewrite (separations_app (Location.front :: u) (v ++ [Location.front]) Location.back).
    pose proof (separations_between Location.front Location.back u eq_refl).
    pose proof (separations_between Location.back Location.front v eq_refl).
    change ((Location.front :: u) ++ [Location.back])
      with (Location.front :: u ++ [Location.back]). lia.
  - apply elem_of_cons in Hf as [?|Hf]; [done|].
    apply list_elem_of_split in Hf as (u & v & ->).
    rewrite <- app_assoc.
    change (Location.back :: u ++ (Location.front :: v) ++ [Location.back])
      with ((Location.back :: u) ++ Location.front :: (v ++ [Location.back])).
    rewrite (separations_app (Location.back :: u) (v ++ [Location.back]) Location.front).
    pose proof (separations_between Location.back Location.front u eq_refl).
    pose proof (separations_between Location.front Location.back v eq_refl).
    change ((Location.back :: u) ++ [Location.front])
      with (Location.back :: u ++ [Location.front]). lia.
  - apply elem_of_cons in Hf as [?|Hf]; [done|].
    apply elem_of_cons in Hb as [?|Hb]; [done|].
    rewrite separations_plane by (destruct l; [by apply elem_of_nil in Hf|done]).
    apply list_elem_of_split in Hf as (u & v & ->).
    apply elem_of_app in Hb as [Hb|Hb].
    + apply list_elem_of_split in Hb as (u1 & u2 & ->).
      pose proof (separations_segment Location.back Location.front u1 u2
                    (v ++ [Location.plane]) eq_refl) as H.
      repeat (rewrite <- app_assoc; cbn [app]). cbn [app] in H. lia.
    + apply elem_of_cons in Hb as [?|Hb]; [done|].
      apply list_elem_of_split in Hb as (v1 & v2 & ->).
      pose proof (separations_segment Location.front Location.back u v1
                    (v2 ++ [Location.plane]) eq_refl) as H.
      repeat (rewrite <- app_assoc; cbn [app]). cbn [app] in H. lia.
Qed.

(** Of a polygon with at least three vertices, [bisect] emits at least one
    fragment, and the fragments it emits have at least as many vertices as
    the polygon. *)
Lemma walk_emits (this : Plane) (vs : list Vector) :
  3 <= length vs ->
  1 <= (if 3 <=? length (walk this (vertex_pairs vs)).1 then 1 else 0)
       + (if 3 <=? length (walk this (vertex_pairs vs)).2 then 1 else 0)
  /\ length vs
     <= (if 3 <=? length (walk this (vertex_pairs vs)).1
         then length (walk this (vertex_pairs vs)).1 else 0)
        + (if 3 <=? length (walk this (vertex_pairs vs)).2
           then length (walk this (vertex_pairs vs)).2 else 0).
Proof.
  intros Hlen.
  destruct (walk_lengths this (vertex_pairs vs)) as [-> ->].
  rewrite vertex_pairs_fst. pose proof (tagged_total this vs) as Htot.
  assert (HK : 1 <= tagged this Location.front vs -> 1 <= tagged this Location.back vs ->
               2 <= tagged this Location.plane vs + cuts this (vertex_pairs vs)).
  { intros HF HB. destruct vs as [|v0 vs']; [simpl in Hlen; lia|].
    assert (Hin : forall want, 1 <= tagged this want (v0 :: vs') ->
                    want ∈ locate this v0 :: (locate this <$> vs')).
    { intros want Hw. unfold tagged in Hw.
      destruct (filter (fun v => locate this v = want) (v0 :: vs')) as [|v l] eqn:Hfil;
        [simpl in Hw; lia|].
      assert (Hv : v ∈ filter (fun v => locate this v = want) (v0 :: vs'))
        by (rewrite Hfil; apply elem_of_cons; by left).
      apply list_elem_of_filter in Hv as [<- Hv].
      change (locate this v0 :: (locate this <$> vs')) with (locate this <$> (v0 :: vs')).
      by apply list_elem_of_fmap_2. }
    pose proof (separations_closed (locate this v0) (locate this <$> vs')
                  (Hin _ HF) (Hin _ HB)) as Hsep.
    pose proof (separations_pairs this (v0 :: vs') v0) as Hpairs.
    change (tail (v0 :: vs') ++ [v0]) with (next_vertices (v0 :: vs')) in Hpairs.
    fold (vertex_pairs (v0 :: vs')) in Hpairs. rewrite <- Hpairs.
    change (locate this <$> (v0 :: vs') ++ [v0])
      with (locate this v0 :: (locate this <$> (vs' ++ [v0]))).
    by rewrite fmap_app. }
  destruct (Nat.leb_spec 3 (tagged this Location.front vs + tagged this Location.plane vs
                            + cuts this (vertex_pairs vs)));
    destruct (Nat.leb_spec 3 (tagged this Location.back vs + tagged this Location.plane vs
                              + cuts this (vertex_pairs vs))); lia.
Qed.

(** ** Trees and the growing store *)

Section TreeLemmas.
Context {Color : Type}.
Implicit Types (h : Heap Color) (a : ref) (n : nat) (t : BSPNode).

Lemma well_formed_stored h a : well_formed h a -> stored h a.
Proof. intros (q & vs & ? & ? & _). by exists q, vs. Qed.

Lemma vertices_of_stored h a (q : Polygon Color) vs :
  polys h !! a = Some q -> varrs h !! vertices q = Some vs -> vertices_of h a = vs.
Proof. unfold vertices_of. by intros -> ->. Qed.

Lemma vertices_of_holds h a vs (c : Color) : holds h a vs c -> vertices_of h a = vs.
Proof. intros (q & Hq & _ & Hvs). by eapply vertices_of_stored. Qed.

Lemma vertices_of_grows h h' a : grows h h' -> stored h a -> vertices_of h' a = vertices_of h a.
Proof.
  intros (Hv & Hp & _) (q & vs & Hq & Hvs).
  rewrite (vertices_of_stored h a q vs Hq Hvs).
  eapply vertices_of_stored; by eapply prefix_lookup_Some.
Qed.

Lemma on_plane_grows h h' (hp : Plane) a :
  grows h h' -> stored h a -> on_plane h hp a -> on_plane h' hp a.
Proof. intros Hg Hs. unfold on_plane. by rewrite (vertices_of_grows h h' a Hg Hs). Qed.

Lemma total_vertices_app h (l1 l2 : list ref) :
  total_vertices h (l1 ++ l2) = total_vertices h l1 + total_vertices h l2.
Proof. apply sum_list_with_app. Qed.

Lemma total_vertices_grows h h' (l : list ref) :
  grows h h' -> Forall (stored h) l -> total_vertices h' l = total_vertices h l.
Proof.
  intros Hg Hl. unfold total_vertices.
  induction Hl as [|a l Ha Hl IH]; [done|]. cbn [sum_list_with].
  by rewrite IH, (vertices_of_grows h h' a Hg Ha).
Qed.

Lemma tree_below_le n n' t : n <= n' -> tree_below n t -> tree_below n' t.
Proof.
  intros Hn. induction t as [hp ps f b IHf IHb] using BSPNode_tree_ind.
  cbn [tree_below polygons front behind]. intros (Hps & Hf & Hb).
  split; [lia|]. split; [destruct f|destruct b]; auto.
Qed.

Lemma tree_above_le n n' t : n' <= n -> tree_above n t -> tree_above n' t.
Proof.
  intros Hn. induction t as [hp ps f b IHf IHb] using BSPNode_tree_ind.
  cbn [tree_above polygons front behind]. intros (Hps & Hf & Hb).
  split; [lia|]. split; [destruct f|destruct b]; auto.
Qed.

(** A tree whose arrays are below [n] reads the same in a store that kept
    the arrays below [n]. *)
Lemma tree_polygons_kept n h h' t :
  kept n h h' -> tree_below n t -> tree_polygons h' t = tree_polygons h t.
Proof.
  intros [_ Hk]. induction t as [hp ps f b IHf IHb] using BSPNode_tree_ind.
  cbn [tree_below tree_polygons polygons front behind]. intros (Hps & Hf & Hb).
  rewrite (Hk ps Hps). f_equal. f_equal; [destruct f|destruct b]; auto.
Qed.

Lemma coplanar_tree_kept n h h' t :
  kept n h h' -> tree_below n t -> coplanar_tree h t -> coplanar_tree h' t.
Proof.
  intros [Hg Hk]. induction t as [hp ps f b IHf IHb] using BSPNode_tree_ind.
  cbn [tree_below coplanar_tree hyperPlane polygons front behind].
  intros (Hps & Hf & Hb) ((pl & cs & Hpl & Hcs & Hall) & Hcf & Hcb).
  split; [|split; [destruct f|destruct b]; auto].
  exists pl, cs. split; [done|]. split; [by rewrite (Hk ps Hps)|].
  eapply Forall_impl; [done|]. intros p [Hwf Hon].
  split; [by eapply grows_well_formed|].
  eapply on_plane_grows; [done|by apply well_formed_stored|done].
Qed.

(** *** What a classified polygon yields *)

Lemma fragment_yield h (vs : list Vector) (c : Color) (l : list ref) :
  fragment h vs c l ->
  length l = (if 3 <=? length vs then 1 else 0)
  /\ total_vertices h l = (if 3 <=? length vs then length vs else 0)
  /\ Forall (well_formed h) l.
Proof.
  unfold fragment. destruct (3 <=? length vs) eqn:Hlen.
  - intros (a & -> & Ha). apply Nat.leb_le in Hlen.
    unfold total_vertices. cbn. rewrite (vertices_of_holds h a vs c Ha).
    split; [done|]. split; [lia|]. constructor; [|done].
    destruct Ha as (q & Hq & _ & Hvs). by exists q, vs.
  - by intros ->.
Qed.

Lemma classified_yield (hp : Plane) h (p : ref) (o : Buckets) :
  classified hp h p o -> well_formed h p ->
  1 <= length (to_front o) + length (to_samePlane o ++ to_reversePlane o)
       + length (to_behind o)
  /\ length (vertices_of h p)
     <= total_vertices h (to_front o)
        + total_vertices h (to_samePlane o ++ to_reversePlane o)
        + total_vertices h (to_behind o)
  /\ Forall (well_formed h) (to_front o)
  /\ Forall (well_formed h) (to_behind o)
  /\ Forall (fun p' => well_formed h p' /\ on_plane h hp p')
       (to_samePlane o ++ to_reversePlane o).
Proof.
  intros (q & vs & Hq & Hvs & Hcl) Hwf.
  assert (Hlen : 3 <= length vs).
  { destruct Hwf as (q' & vs' & Hq' & Hvs' & ?). by simplify_eq. }
  pose proof (vertices_of_stored h p q vs Hq Hvs) as Hvo. rewrite Hvo.
  destruct (isCoplanar (locations hp vs)) eqn:Hco.
  - destruct Hcl as (-> & -> & Hsr).
    assert (Hp : to_samePlane o ++ to_reversePlane o = [p]).
    { destruct (_ <? _)%float; by destruct Hsr as [-> ->]. }
    rewrite Hp. unfold total_vertices. cbn. rewrite Hvo.
    split; [lia|]. split; [lia|]. split; [done|]. split; [done|].
    constructor; [|done]. split; [done|].
    unfold on_plane. rewrite Hvo. by apply isCoplanar_true.
  - destruct Hcl as (-> & -> & Hf & Hb).
    apply fragment_yield in Hf as (Hf1 & Hf2 & Hf3).
    apply fragment_yield in Hb as (Hb1 & Hb2 & Hb3).
    destruct (walk_emits hp vs Hlen) as [Hone Hsum].
    rewrite Hf1, Hf2, Hb1, Hb2. unfold total_vertices. cbn [app length sum_list_with].
    split; [lia|]. split; [lia|]. by repeat split.
Qed.

Lemma classified_yields (hp : Plane) h (ps : list ref) (os : list Buckets) :
  Forall2 (classified hp h) ps os -> Forall (well_formed h) ps ->
  length ps
  <= length (flat_map to_front os)
     + length (flat_map (fun o => to_samePlane o ++ to_reversePlane o) os)
     + length (flat_map to_behind os)
  /\ total_vertices h ps
     <= total_vertices h (flat_map to_front os)
        + total_vertices h (flat_map (fun o => to_samePlane o ++ to_reversePlane o) os)
        + total_vertices h (flat_map to_behind os)
  /\ Forall (well_formed h) (flat_map to_front os)
  /\ Forall (well_formed h) (flat_map to_behind os)
  /\ Forall (fun p' => well_formed h p' /\ on_plane h hp p')
       (flat_map (fun o => to_samePlane o ++ to_reversePlane o) os).
Proof.
  induction 1 as [|p o ps os Hcl _ IH]; intros Hwf.
  - cbn. by repeat split.
  - apply Forall_cons in Hwf as [Hp Hps].
    destruct (IH Hps) as (IH1 & IH2 & IH3 & IH4 & IH5).
    destruct (classified_yield hp h p o Hcl Hp) as (H1 & H2 & H3 & H4 & H5).
    cbn [flat_map length]. rewrite !length_app, !total_vertices_app.
    change (total_vertices h (p :: ps))
      with (length (vertices_of h p) + total_vertices h ps).
    rewrite length_app in H1. rewrite total_vertices_app in H2.
    split; [lia|]. split; [lia|].
    repeat split; by apply Forall_app.
Qed.

End TreeLemmas.

(** ** [Partition] of a polygon list alone *)

Section PartitionFresh.
Context {Color : Type}.
Implicit Types (h : Heap Color) (a : ref) (n : nat) (t : BSPNode).

Lemma coplanar_tree_well_formed h t :
  coplanar_tree h t -> Forall (well_formed h) (tree_polygons h t).
Proof.
  induction t as [hp ps f b IHf IHb] using BSPNode_tree_ind.
  cbn [coplanar_tree tree_polygons hyperPlane polygons front behind].
  intros ((pl & cs & _ & -> & Hall) & Hf & Hb). cbn [default].
  apply Forall_app. split.
  - eapply Forall_impl; [done|]. by intros p [? _].
  - apply Forall_app. split; [destruct f|destruct b]; auto.
Qed.

Lemma kept_snoc h (ps : list ref) :
  kept (length (parrs h)) h (mkHeap (varrs h) (polys h) (parrs h ++ [ps]) (geoms h)).
Proof.
  split.
  - repeat split; cbn [varrs polys geoms parrs]; try done. rewrite length_app. lia.
  - intros a Ha. cbn [parrs]. by apply lookup_app_l.
Qed.

(** The root [Partition] starts from: the node supplied, or a new one. *)
Lemma Partition_root h (tree : option BSPNode) :
  option_fresh h tree -> root_array h tree <= length (parrs h) ->
  exists h0,
    (match tree with Some t => ret t | None => new_BSPNode end) h
    = (Ok (mkBSPNode None (root_array h tree) None None), h0)
    /\ kept (length (parrs h)) h h0
    /\ parrs h0 !! root_array h tree = Some []
    /\ (forall a, a <> root_array h tree -> a < length (parrs h0) -> a < length (parrs h)).
Proof.
  intros Hfresh Hle. destruct tree as [t|]; cbn [root_array].
  - destruct (Hfresh t eq_refl) as [Ht Harr]. exists h.
    split; [by rewrite Ht at 1|]. split; [apply kept_refl|]. by split.
  - eexists. split; [reflexivity|]. split; [apply kept_snoc|].
    cbn [parrs]. split; [apply lookup_snoc|].
    intros a Ha. rewrite length_app. simpl. lia.
Qed.

Lemma received_elsewhere (f s b r x : ref) (os : list Buckets) :
  f <> x -> s <> x -> b <> x -> r <> x -> flat_map (received f s b r x) os = [].
Proof.
  intros. induction os as [|o os IH]; [done|]. cbn [flat_map]. rewrite IH.
  unfold received. by repeat destruct (decide _).
Qed.

(** One level of [Partition]: the root is there, the list is bisected along
    the plane of its first polygon, and the two sides remain to be done. *)
Lemma Partition_level (fuel : nat) (input : ref) (first : ref) (rest : list ref)
    (q : Polygon Color) (tree : option BSPNode) h :
  parrs h !! input = Some (first :: rest) -> polys h !! first = Some q ->
  Forall (stored h) (first :: rest) ->
  option_fresh h tree -> root_array h tree <= length (parrs h) ->
  exists h2 (os : list Buckets) (left : ref),
    BSPNode_Partition fuel (Some input) tree h
    = (let* front' := Partition_descend fuel left None in
       let* behind' := Partition_descend fuel (S left) None in
       ret (Some (mkBSPNode (Some (Plane_clone (plane q))) (root_array h tree)
                    front' behind'),
            match tree with
            | Some _ => Some (mkBSPNode (Some (Plane_clone (plane q)))
                                (root_array h tree) front' behind')
            | None => None
            end)) h2
    /\ kept (root_array h tree) h h2
    /\ root_array h tree < left /\ S (S left) = length (parrs h2)
    /\ Forall2 (classified (Plane_clone (plane q)) h2) (first :: rest) os
    /\ parrs h2 !! root_array h tree
       = Some (flat_map (fun o => to_samePlane o ++ to_reversePlane o) os)
    /\ parrs h2 !! left = Some (flat_map to_front os)
    /\ parrs h2 !! S left = Some (flat_map to_behind os).
Proof.
  intros Hin Hq Hps Hfresh Hle.
  rewrite BSPNode_Partition_unfold.
  rewrite (bind_Ok _ _ _ _ _ (read_array_Some _ _ _ Hin)).
  destruct (Partition_root h tree Hfresh Hle) as (h0 & Hroot & Hk0 & Ha0 & Hother).
  rewrite (bind_Ok _ _ _ _ _ Hroot).
  pose proof Hk0 as [Hg0 _]. pose proof Hg0 as (_ & Hp0 & _ & Hlen0).
  erewrite bind_Ok; [|apply read_polygon_Some; by eapply prefix_lookup_Some].
  unfold bind at 1, alloc_array at 1. unfold bind at 1, alloc_array at 1.
  cbn [varrs polys parrs geoms polygons front behind].
  set (a0 := root_array h tree) in *. set (hp := Plane_clone (plane q)).
  set (left := length (parrs h0)).
  replace (length (parrs h0 ++ [[]])) with (S left) by (rewrite length_app; simpl; lia).
  set (h1 := mkHeap (varrs h0) (polys h0) ((parrs h0 ++ [[]]) ++ [[]]) (geoms h0)).
  assert (Ha0lt : a0 < left) by (by eapply lookup_lt_Some).
  assert (Hk1 : kept left h0 h1).
  { eapply kept_trans; [apply kept_snoc|].
    eapply kept_weaken; [|apply (kept_snoc (mkHeap (varrs h0) (polys h0) (parrs h0 ++ [[]])
                                           (geoms h0)) [])].
    cbn [parrs]. rewrite length_app. simpl. lia. }
  assert (Hleft1 : parrs h1 !! left = Some []).
  { unfold h1; cbn [parrs]. rewrite lookup_app_l by (rewrite length_app; simpl; lia).
    apply lookup_snoc. }
  assert (Hright1 : parrs h1 !! S left = Some []).
  { unfold h1; cbn [parrs].
    replace (S left) with (length (parrs h0 ++ [[]])) by (rewrite length_app; simpl; lia).
    apply lookup_snoc. }
  assert (Ha1 : parrs h1 !! a0 = Some []).
  { destruct Hk1 as [_ Hk1]. by rewrite (Hk1 a0 Ha0lt). }
  destruct (forEach_bisect hp left a0 (S left) a0 (first :: rest) h1)
    as (h2 & os & Hrun & Hg2 & _ & Hlen2 & Hcl & Harr); try by eexists.
  { eapply Forall_impl; [done|]. intros a Ha.
    eapply grows_stored; [|done]. etrans; [done|]. by destruct Hk1. }
  rewrite (bind_Ok _ _ _ _ _ Hrun).
  exists h2, os, left. split; [reflexivity|].
  split.
  { split; [etrans; [done|]; etrans; [by destruct Hk1|done]|].
    intros a Ha. rewrite Harr.
    destruct Hk1 as [_ Hk1]. rewrite (Hk1 a) by lia.
    destruct Hk0 as [_ Hk0]. rewrite (Hk0 a) by lia.
    destruct (parrs h !! a) as [old|]; [|done]. cbn. f_equal.
    rewrite received_elsewhere by lia. apply app_nil_r. }
  split; [done|]. split; [rewrite Hlen2; unfold h1; cbn [parrs]; rewrite !length_app; simpl; lia|].
  split; [done|].
  rewrite !Harr, Ha1, Hleft1, Hright1. cbn [fmap option_fmap option_map app].
  repeat split; f_equal; apply flat_map_ext; intros o; unfold received;
    repeat destruct (decide _); try lia; by rewrite ?app_nil_r.
Qed.

Lemma kept_descend (fuel : nat) (bucket : ref) h :
  kept (length (parrs h)) h (Partition_descend fuel bucket None h).2.
Proof.
  eapply (safe_Partition_descend (length (parrs h)) fuel bucket None); [|done|done].
  intros fuel' polys tree _ Ht. by apply safe_BSPNode_Partition.
Qed.

Lemma built_grows h0 h (xs : list ref) h' t :
  grows h0 h -> Forall (stored h0) xs -> built h xs h' t -> built h0 xs h' t.
Proof.
  intros Hg Hxs (H1 & H2 & H3 & H4). repeat split; try done.
  by rewrite <- (total_vertices_grows h0 h xs Hg Hxs).
Qed.

(** One side of [Partition], given the outcome of the calls one level down. *)
Lemma descend_fresh (fuel : nat) (bucket : ref) (xs : list ref) h :
  (forall fuel', fuel = S fuel' -> fresh_outcome (Color := Color) fuel') ->
  parrs h !! bucket = Some xs -> Forall (well_formed h) xs ->
  match Partition_descend fuel bucket None h with
  | (Ok o, h') => side_built h xs h' o
  | (Err RangeError, _) => True
  | (Err _, _) => False
  end.
Proof.
  intros IH Hb Hxs. unfold Partition_descend.
  rewrite (bind_Ok _ _ _ _ _ (read_array_Some _ _ _ Hb)).
  destruct xs as [|x xs']; [done|]. cbn [length Nat.ltb Nat.leb].
  unfold bind at 1, new_BSPNode, bind, alloc_array, ret.
  set (h1 := mkHeap (varrs h) (polys h) (parrs h ++ [[]]) (geoms h)).
  set (c := mkBSPNode None (length (parrs h)) None None).
  destruct fuel as [|fuel']; [done|].
  assert (Hg : grows h h1) by apply (kept_snoc h []).
  specialize (IH fuel' eq_refl bucket (x :: xs') (Some c) h1).
  destruct (BSPNode_Partition fuel' (Some bucket) (Some c) h1) as [[[[t|] tree']|e] h'].
  - destruct IH as (-> & Hpoly & Habove & Hbuilt & _).
    + unfold h1; cbn [parrs]. rewrite lookup_app_l; [done|by eapply lookup_lt_Some].
    + done.
    + eapply Forall_impl; [done|]. intros a. by apply grows_well_formed.
    + intros t' [= <-]. split; [done|]. unfold h1; cbn [parrs polygons]. apply lookup_snoc.
    + unfold h1; cbn [root_array polygons parrs]. rewrite length_app. simpl. lia.
    + cbn [snd side_built]. split; [done|]. split; [done|].
      eapply built_grows; [done| |done].
      eapply Forall_impl; [done|]. intros a. apply well_formed_stored.
  - exfalso. apply IH.
    + unfold h1; cbn [parrs]. rewrite lookup_app_l; [done|by eapply lookup_lt_Some].
    + done.
    + eapply Forall_impl; [done|]. intros a. by apply grows_well_formed.
    + intros t' [= <-]. split; [done|]. unfold h1; cbn [parrs polygons]. apply lookup_snoc.
    + unfold h1; cbn [root_array polygons parrs]. rewrite length_app. simpl. lia.
  - destruct e; try done; exfalso; apply IH.
    all: try (unfold h1; cbn [parrs]; rewrite lookup_app_l; [done|by eapply lookup_lt_Some]).
    all: try done.
    all: try (eapply Forall_impl; [done|]; intros a; by apply grows_well_formed).
    all: try (intros t' [= <-]; split; [done|]; unfold h1; cbn [parrs polygons];
              apply lookup_snoc).
    all: unfold h1; cbn [root_array polygons parrs]; rewrite length_app; simpl; lia.
Qed.

Lemma side_built_facts h (xs : list ref) h' (o : option BSPNode) :
  side_built h xs h' o ->
  option_above (length (parrs h)) o
  /\ match o with Some t => tree_below (length (parrs h')) t /\ coplanar_tree h' t
     | None => True end
  /\ length xs <= length (match o with Some t => tree_polygons h' t | None => [] end)
  /\ total_vertices h xs
     <= total_vertices h' (match o with Some t => tree_polygons h' t | None => [] end)
  /\ (o = None <-> xs = []).
Proof.
  destruct o as [t|]; cbn [side_built option_above].
  - intros (Hne & Ha & Hb & Hc & Hl & Hv). by repeat split.
  - intros [-> ->]. by repeat split.
Qed.

(** The outcome of [Partition] for a polygon list alone, at every budget. *)
Lemma Partition_fresh (fuel : nat) : fresh_outcome (Color := Color) fuel.
Proof.
  induction fuel as [fuel IH] using lt_wf_ind.
  intros input ps tree h Hin Hne Hwf Hfresh Hle.
  destruct ps as [|first rest]; [done|].
  pose proof (Forall_inv Hwf) as (q & vs0 & Hq & _).
  assert (Hst : Forall (stored h) (first :: rest)).
  { eapply Forall_impl; [done|]. intros a. apply well_formed_stored. }
  destruct (Partition_level fuel input first rest q tree h Hin Hq Hst Hfresh Hle)
    as (h2 & os & left & -> & Hk2 & Hlt & Hlen2 & Hcl & Ha0 & Hl & Hr).
  set (a0 := root_array h tree) in *. set (hp := Plane_clone (plane q)) in *.
  pose proof Hk2 as [Hg2 _].
  assert (Hwf2 : Forall (well_formed h2) (first :: rest)).
  { eapply Forall_impl; [exact Hwf|]. intros a. by apply grows_well_formed. }
  destruct (classified_yields hp h2 _ os Hcl Hwf2) as (Hn & Hv & Hwl & Hwr & Hwc).
  set (cs := flat_map (fun o => to_samePlane o ++ to_reversePlane o) os) in *.
  set (ls := flat_map to_front os) in *. set (rs := flat_map to_behind os) in *.
  assert (IH' : forall fuel', fuel = S fuel' -> fresh_outcome (Color := Color) fuel').
  { intros fuel' ->. apply IH. lia. }
  pose proof (descend_fresh fuel left ls h2 IH' Hl Hwl) as Hd1.
  pose proof (kept_descend fuel left h2) as Hk4.
  unfold bind at 1.
  destruct (Partition_descend fuel left None h2) as [[front'|e] h4]; cbn [snd] in Hk4;
    [|by destruct e].
  apply side_built_facts in Hd1 as (Hfa & Hfb & Hfn & Hfv & Hfe).
  pose proof Hk4 as [Hg4 Hsame4].
  assert (Hr4 : parrs h4 !! S left = Some rs) by (rewrite Hsame4; [done|lia]).
  assert (Hwr4 : Forall (well_formed h4) rs).
  { eapply Forall_impl; [exact Hwr|]. intros a. by apply grows_well_formed. }
  pose proof (descend_fresh fuel (S left) rs h4 IH' Hr4 Hwr4) as Hd2.
  pose proof (kept_descend fuel (S left) h4) as Hk6.
  unfold bind at 1.
  destruct (Partition_descend fuel (S left) None h4) as [[behind'|e] h6]; cbn [snd] in Hk6;
    [|by destruct e].
  apply side_built_facts in Hd2 as (Hba & Hbb & Hbn & Hbv & Hbe).
  pose proof Hk6 as [Hg6 Hsame6].
  assert (Hlen4 : length (parrs h2) <= length (parrs h4)) by (by destruct Hg4 as (_&_&_&?)).
  assert (Hlen6 : length (parrs h4) <= length (parrs h6)) by (by destruct Hg6 as (_&_&_&?)).
  assert (Hg26 : grows h2 h6) by by etrans.
  assert (Ha6 : parrs h6 !! a0 = Some cs).
  { rewrite Hsame6, Hsame4; [done|lia|lia]. }
  assert (Hfront6 :
    match front' with Some t => tree_below (length (parrs h6)) t /\ coplanar_tree h6 t
    | None => True end
    /\ match front' with Some t => tree_polygons h6 t | None => [] end
       = match front' with Some t => tree_polygons h4 t | None => [] end).
  { destruct front' as [t|]; [|done]. destruct Hfb as [Hbelow Hcop].
    split; [split|].
    - by eapply tree_below_le.
    - by eapply coplanar_tree_kept.
    - by eapply tree_polygons_kept. }
  destruct Hfront6 as [Hfb6 Hftp].
  unfold ret. split; [done|]. split; [done|].
  split.
  { cbn [tree_above polygons front behind]. split; [done|]. split.
    - destruct front' as [t|]; [|done]. eapply tree_above_le; [|exact Hfa]. lia.
    - destruct behind' as [t|]; [|done]. eapply tree_above_le; [|exact Hba]. lia. }
  split.
  { unfold built. cbn [tree_below coplanar_tree tree_polygons hyperPlane polygons front behind].
    rewrite Ha6. cbn [from_option]. unfold id. split; [|split; [|split]].
    - split; [lia|]. split.
      + destruct front' as [t|]; [|done]. by destruct Hfb6.
      + destruct behind' as [t|]; [|done]. by destruct Hbb.
    - split; [|split].
      + exists hp, cs. split; [done|]. split; [done|].
        eapply Forall_impl; [exact Hwc|]. intros a [Hwa Hon].
        split; [by eapply grows_well_formed|].
        eapply on_plane_grows; [done|by apply well_formed_stored|done].
      + destruct front' as [t|]; [|done]. by destruct Hfb6.
      + destruct behind' as [t|]; [|done]. by destruct Hbb.
    - rewrite !length_app, Hftp. cbn [length] in *. lia.
    - rewrite !total_vertices_app, Hftp.
      assert (H1 : total_vertices h (first :: rest) = total_vertices h2 (first :: rest))
        by (symmetry; by apply total_vertices_grows).
      assert (H2 : total_vertices h6 cs = total_vertices h2 cs).
      { apply total_vertices_grows; [done|].
        eapply Forall_impl; [exact Hwc|]. intros a [? _]. by apply well_formed_stored. }
      assert (H3 : total_vertices h4 rs = total_vertices h2 rs).
      { apply total_vertices_grows; [done|].
        eapply Forall_impl; [exact Hwr|]. intros a. apply well_formed_stored. }
      assert (H4 : total_vertices h6 (match front' with Some t => tree_polygons h4 t
                                      | None => [] end)
                   = total_vertices h4 (match front' with Some t => tree_polygons h4 t
                                        | None => [] end)).
      { apply total_vertices_grows; [done|]. destruct front' as [t|]; [|done].
        destruct Hfb as [_ Hcop]. apply coplanar_tree_well_formed in Hcop.
        eapply Forall_impl; [exact Hcop|]. intros a. apply well_formed_stored. }
      lia. }
  exists q, os. cbn [head mbind option_bind hyperPlane polygons front behind].
  split; [done|]. split; [done|].
  split; [eapply Forall2_impl; [exact Hcl|]; intros a o; by apply grows_classified|].
  split; [exact Ha6|]. split; [exact Hfe|exact Hbe].
Qed.

End PartitionFresh.

(** ** The tree [Partition] builds, node by node *)

Section PartitionShape.
Context {Color : Type}.
Implicit Types (h : Heap Color) (a : ref) (n : nat) (t : BSPNode).





End PartitionShape.

(** ** [concatPolys] and [toGeometry] *)

Section Flatten.
Context {Color : Type}.
Implicit Types (h : Heap Color) (a : ref) (n : nat) (t : BSPNode).

Lemma collects_concat h (acc r : ref) (xs ys : list ref) :
  parrs h !! acc = Some xs -> parrs h !! r = Some ys ->
  collects h (concat acc r) (xs ++ ys).
Proof.
  intros Hacc Hr.
  exists (length (parrs h)), (mkHeap (varrs h) (polys h) (parrs h ++ [xs ++ ys]) (geoms h)).
  split.
  { unfold concat.
    rewrite (bind_Ok _ _ _ _ _ (read_array_Some _ _ _ Hacc)).
    by rewrite (bind_Ok _ _ _ _ _ (read_array_Some _ _ _ Hr)). }
  cbn [parrs varrs polys geoms].
  split; [apply lookup_snoc|]. split; [apply kept_snoc|done].
Qed.

(** One child of [concatPolys]: its polygons are appended to what was
    collected so far. *)
Lemma collects_child h (child : option BSPNode) (acc : ref) (xs : list ref) :
  match child with
  | Some f => forall h0, tree_below (length (parrs h0)) f ->
                collects h0 (BSPNode_concatPolys f) (tree_polygons h0 f)
  | None => True
  end ->
  match child with Some f => tree_below (length (parrs h)) f | None => True end ->
  parrs h !! acc = Some xs ->
  collects h
    (match child with
     | Some f => let* r := BSPNode_concatPolys f in concat acc r
     | None => ret acc
     end)
    (xs ++ match child with Some f => tree_polygons h f | None => [] end).
Proof.
  intros IH Hbelow Hacc. destruct child as [f|].
  - destruct (IH h Hbelow) as (r & h1 & Hrun & Hr & Hk & Hv & Hp & Hg).
    unfold collects. rewrite (bind_Ok _ _ _ _ _ Hrun).
    assert (Hacc1 : parrs h1 !! acc = Some xs).
    { destruct Hk as [_ Hk]. rewrite Hk; [done|by eapply lookup_lt_Some]. }
    destruct (collects_concat h1 acc r xs _ Hacc1 Hr)
      as (r' & h2 & Hrun' & Hr' & Hk' & Hv' & Hp' & Hg').
    exists r', h2. split; [done|]. split; [done|].
    split; [|by rewrite Hv', Hp', Hg'].
    eapply kept_trans; [done|]. eapply kept_weaken; [|done]. by destruct Hk as [(_&_&_&?) _].
  - exists acc, h. rewrite app_nil_r. split; [done|]. split; [done|].
    split; [apply kept_refl|done].
Qed.

(** [concatPolys] returns an array with the polygons of the tree, node
    first, then the front subtree, then the behind subtree. *)
Lemma collects_concatPolys t :
  forall h, tree_below (length (parrs h)) t ->
    collects h (BSPNode_concatPolys t) (tree_polygons h t).
Proof.
  induction t as [hp ps f b IHf IHb] using BSPNode_tree_ind. intros h.
  cbn [tree_below BSPNode_concatPolys tree_polygons polygons front behind].
  intros (Hps & Hf & Hb).
  destruct (lookup_lt_is_Some_2 _ _ Hps) as [xs Hxs]. rewrite Hxs. cbn [default from_option]. unfold id.
  unfold collects. rewrite (bind_Ok _ _ _ _ _ (read_array_Some _ _ _ Hxs)).
  unfold bind at 1, alloc_array at 1.
  set (h1 := mkHeap (varrs h) (polys h) (parrs h ++ [xs]) (geoms h)).
  pose proof (kept_snoc h xs) as Hk1. fold h1 in Hk1.
  assert (Hlen1 : length (parrs h1) = S (length (parrs h)))
    by (unfold h1; cbn [parrs]; rewrite length_app; simpl; lia).
  assert (Hf1 : match f with Some t => tree_below (length (parrs h1)) t | None => True end).
  { destruct f as [t|]; [|done]. eapply tree_below_le; [|done]. lia. }
  assert (Hb1 : match b with Some t => tree_below (length (parrs h1)) t | None => True end).
  { destruct b as [t|]; [|done]. eapply tree_below_le; [|done]. lia. }
  destruct (collects_child h1 f (length (parrs h)) xs IHf Hf1)
    as (r2 & h2 & Hrun2 & Hr2 & Hk2 & Hv2 & Hp2 & Hg2).
  { unfold h1; cbn [parrs]. apply lookup_snoc. }
  rewrite (bind_Ok _ _ _ _ _ Hrun2).
  assert (Hb2 : match b with Some t => tree_below (length (parrs h2)) t | None => True end).
  { destruct b as [t|]; [|done]. eapply tree_below_le; [|done].
    destruct Hk2 as [(_&_&_&?) _]. lia. }
  destruct (collects_child h2 b r2 _ IHb Hb2 Hr2)
    as (r3 & h3 & Hrun3 & Hr3 & Hk3 & Hv3 & Hp3 & Hg3).
  rewrite (bind_Ok _ _ _ _ _ Hrun3).
  exists r3, h3. split; [done|].
  assert (Hft : match f with Some t => tree_polygons h1 t | None => [] end
                = match f with Some t => tree_polygons h t | None => [] end).
  { destruct f as [t|]; [|done]. by eapply tree_polygons_kept. }
  assert (Hbt : match b with Some t => tree_polygons h2 t | None => [] end
                = match b with Some t => tree_polygons h t | None => [] end).
  { destruct b as [t|]; [|done].
    rewrite (tree_polygons_kept (length (parrs h1)) h1 h2 t Hk2 Hb1).
    by eapply tree_polygons_kept. }
  rewrite Hr3, Hft, Hbt, <- app_assoc. split; [done|].
  split; [|by rewrite Hv3, Hp3, Hg3, Hv2, Hp2, Hg2].
  eapply kept_trans; [exact Hk1|].
  eapply kept_weaken; [|eapply kept_trans; [exact Hk2|]].
  - lia.
  - eapply kept_weaken; [|exact Hk3]. destruct Hk2 as [(_&_&_&?) _]. lia.
Qed.

End Flatten.

(** ** What [Partition] builds from a polygon list *)

(** The polygons of a fixture are well formed. *)
Ltac fixture_well_formed :=
  repeat constructor; eexists _, _;
  (split; [vm_compute; reflexivity|split; [vm_compute; reflexivity|vm_compute; lia]]).

(** X1: [Partition] of a non-empty list of well-formed polygons, with no
    tree supplied, returns a tree or exhausts the stack; it never returns
    [undefined] and throws nothing else.  The polygon arrays of the tree
    are new, and every node of the tree has a hyperplane and holds only
    well-formed polygons that are coplanar with it. *)
Theorem Partition_builds_coplanar_nodes {Color : Type}
    (fuel : nat) (input : ref) (ps : list ref) (h : Heap Color) :
  parrs h !! input = Some ps -> ps <> [] -> Forall (well_formed h) ps ->
  match BSPNode_Partition fuel (Some input) None h with
  | (Ok (Some t, _), h') =>
      tree_above (length (parrs h)) t /\ tree_below (length (parrs h')) t
      /\ coplanar_tree h' t
  | (Ok (None, _), _) => False
  | (Err RangeError, _) => True
  | (Err _, _) => False
  end.
Proof.
  intros Hin Hne Hwf.
  assert (Hfresh : option_fresh h None) by (by intros t' [=]).
  pose proof (Partition_fresh fuel input ps None h Hin Hne Hwf Hfresh (le_n _)) as H.
  cbn [root_array] in H.
  destruct (BSPNode_Partition fuel (Some input) None h) as [[[[t|] tree']|e] h']; try done.
  by destruct H as (_ & _ & Hab & (Hbe & Hco & _) & _).
Qed.

Lemma Partition_builds_coplanar_nodes_witness :
  (exists t h', BSPNode_Partition 3 (Some 0) None two_triangles = (Ok (Some t, None), h'))
  /\ match BSPNode_Partition 3 (Some 0) None two_triangles with
     | (Ok (Some t, _), h') =>
         tree_above 1 t /\ tree_below (length (parrs h')) t /\ coplanar_tree h' t
     | (Ok (None, _), _) => False
     | (Err RangeError, _) => True
     | (Err _, _) => False
     end.
Proof.
  split; [eexists _, _; vm_compute; reflexivity|].
  apply (Partition_builds_coplanar_nodes 3 0 [0; 1] two_triangles);
    [reflexivity|discriminate|fixture_well_formed].
Defined.

(** X2: [Partition] loses no polygon: the tree it returns for a list alone
    holds at least as many polygons as the list, with at least as many
    vertices all together, and each of them has at least three vertices. *)
Theorem Partition_loses_nothing {Color : Type}
    (fuel : nat) (input : ref) (ps : list ref) (h : Heap Color) :
  parrs h !! input = Some ps -> Forall (well_formed h) ps ->
  match BSPNode_Partition fuel (Some input) None h with
  | (Ok (Some t, _), h') =>
      length ps <= length (tree_polygons h' t)
      /\ total_vertices h ps <= total_vertices h' (tree_polygons h' t)
      /\ Forall (well_formed h') (tree_polygons h' t)
  | _ => True
  end.
Proof.
  intros Hin Hwf. destruct ps as [|p ps].
  { rewrite BSPNode_Partition_unfold, (bind_Ok _ _ _ _ _ (read_array_Some _ _ _ Hin)).
    done. }
  assert (Hfresh : option_fresh h None) by (by intros t' [=]).
  pose proof (Partition_fresh fuel input (p :: ps) None h Hin ltac:(done) Hwf Hfresh
                (le_n _)) as H.
  cbn [root_array] in H.
  destruct (BSPNode_Partition fuel (Some input) None h) as [[[[t|] tree']|e] h']; try done.
  destruct H as (_ & _ & _ & (_ & Hco & Hn & Hv) & _).
  split; [done|]. split; [done|]. by apply coplanar_tree_well_formed.
Qed.

Lemma Partition_loses_nothing_witness :
  (exists t h', BSPNode_Partition 3 (Some 0) None two_triangles = (Ok (Some t, None), h'))
  /\ match BSPNode_Partition 3 (Some 0) None two_triangles with
     | (Ok (Some t, _), h') =>
         2 <= length (tree_polygons h' t)
         /\ total_vertices two_triangles [0; 1] <= total_vertices h' (tree_polygons h' t)
         /\ Forall (well_formed h') (tree_polygons h' t)
     | _ => True
     end.
Proof.
  split; [eexists _, _; vm_compute; reflexivity|].
  apply (Partition_loses_nothing 3 0 [0; 1] two_triangles);
    [reflexivity|fixture_well_formed].
Defined.

(** X3: the root of the tree [Partition] returns for a list alone.  Its
    polygon array is new; its hyperplane is the plane of the first polygon
    of the list; its array holds the polygons of the list that are coplanar
    with that plane, in either orientation and in the order of the list;
    and it has a front child exactly when a front fragment was made, a
    behind child exactly when a behind fragment was made. *)
Theorem Partition_root_contents {Color : Type}
    (fuel : nat) (input : ref) (ps : list ref) (h : Heap Color) :
  parrs h !! input = Some ps -> Forall (well_formed h) ps ->
  match BSPNode_Partition fuel (Some input) None h with
  | (Ok (Some t, _), h') => polygons t = length (parrs h) /\ root_of h ps h' t
  | _ => True
  end.
Proof.
  intros Hin Hwf. destruct ps as [|p ps].
  { rewrite BSPNode_Partition_unfold, (bind_Ok _ _ _ _ _ (read_array_Some _ _ _ Hin)).
    done. }
  assert (Hfresh : option_fresh h None) by (by intros t' [=]).
  pose proof (Partition_fresh fuel input (p :: ps) None h Hin ltac:(done) Hwf Hfresh
                (le_n _)) as H.
  cbn [root_array] in H.
  destruct (BSPNode_Partition fuel (Some input) None h) as [[[[t|] tree']|e] h']; try done.
  by destruct H as (_ & Hroot & _ & _ & Hof).
Qed.

Lemma Partition_root_contents_witness :
  (exists t h', BSPNode_Partition 3 (Some 0) None two_triangles = (Ok (Some t, None), h'))
  /\ match BSPNode_Partition 3 (Some 0) None two_triangles with
     | (Ok (Some t, _), h') => polygons t = 1 /\ root_of two_triangles [0; 1] h' t
     | _ => True
     end.
Proof.
  split; [eexists _, _; vm_compute; reflexivity|].
  apply (Partition_root_contents 3 0 [0; 1] two_triangles);
    [reflexivity|fixture_well_formed].
Defined.

(** ** The invariants of a tree *)




(** ** What [bisect] makes of one polygon *)

(** X4: [bisect] neither fails on nor drops a polygon with at least three
    vertices: with the four buckets in the store, the call returns, the
    buckets receive at least one polygon between them, the polygons they
    receive have together at least as many vertices as the polygon, and
    each has at least three, so that the [Polygon] constructor accepts it. *)
Theorem bisect_keeps_the_polygon {Color : Type}
    (this : Plane) (p f s b r : ref) (h : Heap Color) :
  well_formed h p ->
  is_Some (parrs h !! f) -> is_Some (parrs h !! s) ->
  is_Some (parrs h !! b) -> is_Some (parrs h !! r) ->
  exists h' o,
    Plane_bisect this p f s b r h = (Ok tt, h')
    /\ grows h h'
    /\ (forall x, parrs h' !! x = (fun old => old ++ received f s b r x o) <$> parrs h !! x)
    /\ 1 <= length (pushes o)
    /\ length (vertices_of h p) <= total_vertices h' (pushes o)
    /\ Forall (well_formed h') (pushes o).
Proof.
  intros Hwf Hf Hs Hb Hr.
  destruct (Plane_bisect_classified this h p f s b r (well_formed_stored h p Hwf) Hf Hs Hb Hr)
    as (h' & o & Hrun & Hg & _ & _ & Hcl & Harr).
  exists h', o. split; [done|]. split; [done|]. split; [done|].
  destruct (classified_yield this h' p o Hcl (grows_well_formed h h' p Hg Hwf))
    as (H1 & H2 & H3 & H4 & H5).
  rewrite (vertices_of_grows h h' p Hg (well_formed_stored h p Hwf)) in H2.
  apply Forall_app in H5 as [H5 H6].
  unfold pushes. rewrite !length_app, !total_vertices_app.
  rewrite length_app in H1. rewrite total_vertices_app in H2.
  split; [lia|]. split; [lia|].
  repeat (apply Forall_app; split); try done.
  - eapply Forall_impl; [exact H5|]. by intros a [? _].
  - eapply Forall_impl; [exact H6|]. by intros a [? _].
Qed.

Lemma bisect_keeps_the_polygon_witness :
  exists h' o,
    Plane_bisect floor_plane 1 1 2 3 4 bisect_fixture = (Ok tt, h')
    /\ grows bisect_fixture h'
    /\ (forall x, parrs h' !! x
                  = (fun old => old ++ received 1 2 3 4 x o) <$> parrs bisect_fixture !! x)
    /\ 1 <= length (pushes o)
    /\ length (vertices_of bisect_fixture 1) <= total_vertices h' (pushes o)
    /\ Forall (well_formed h') (pushes o).
Proof.
  apply (bisect_keeps_the_polygon floor_plane 1 1 2 3 4 bisect_fixture);
    [eexists _, _;
     (split; [vm_compute; reflexivity|split; [vm_compute; reflexivity|vm_compute; lia]])
    |by eexists..].
Defined.

(** A walk that meets only vertices on one side of the plane cuts no edge:
    the list of that side is the vertex list, the other list is empty. *)
Lemma walk_one_side (this : Plane) (side : Location.t) (pairs : list (Vector * Vector)) :
  side <> Location.plane ->
  Forall (fun pr => locate this pr.1 = side /\ locate this pr.2 = side) pairs ->
  walk this pairs
  = (if bool_decide (side = Location.front) then pairs.*1 else [],
     if bool_decide (side = Location.back) then pairs.*1 else []).
Proof.
  intros Hside. induction 1 as [|[v1 v2] rest [H1 H2] _ IH].
  - by repeat case_bool_decide.
  - cbn [walk fst snd] in *. rewrite IH, H1, H2.
    destruct side; try done; by repeat case_bool_decide.
Qed.

Lemma vertex_pairs_one_side (this : Plane) (side : Location.t) (vs : list Vector) :
  Forall (fun v => locate this v = side) vs ->
  Forall (fun pr => locate this pr.1 = side /\ locate this pr.2 = side) (vertex_pairs vs).
Proof.
  intros Hall. apply Forall_forall. intros [v1 v2] Hin.
  rewrite Forall_forall in Hall. cbn [fst snd]. unfold vertex_pairs in Hin. split.
  - apply Hall. by eapply elem_of_zip_l.
  - apply Hall. apply elem_of_zip_r in Hin.
    destruct vs as [|v vs']; [by apply elem_of_nil in Hin|].
    cbn [next_vertices] in Hin. apply elem_of_app in Hin as [Hin|Hin].
    + by apply elem_of_cons; right.
    + apply list_elem_of_singleton in Hin as ->. by apply elem_of_cons; left.
Qed.

(** X5: a polygon all of whose vertices are strictly on one side of the
    plane goes whole to the bucket of that side: [bisect] makes one new
    polygon with the same vertices, in the same order, and the same color,
    pushes it on [front] or on [behind], and pushes nothing else. *)
Theorem bisect_of_a_polygon_on_one_side {Color : Type}
    (this : Plane) (side : Location.t) (p f s b r : ref) (h : Heap Color)
    (q : Polygon Color) (vs : list Vector) :
  polys h !! p = Some q -> varrs h !! vertices q = Some vs -> 3 <= length vs ->
  side <> Location.plane -> Forall (fun v => locate this v = side) vs ->
  is_Some (parrs h !! f) -> is_Some (parrs h !! s) ->
  is_Some (parrs h !! b) -> is_Some (parrs h !! r) ->
  Plane_bisect this p f s b r h
  = (Ok tt, with_fragment (if bool_decide (side = Location.front) then f else b)
              vs (color q) h).
Proof.
  intros Hq Hvs Hlen Hside Hall Hf Hs Hb Hr.
  rewrite (Plane_bisect_Ok this h p q vs f s b r Hq Hvs Hf Hs Hb Hr). f_equal.
  unfold bisected.
  destruct (isCoplanar (locations this vs)) eqn:Hco.
  { apply isCoplanar_true in Hco. destruct vs as [|v vs']; [simpl in Hlen; lia|].
    apply Forall_cons in Hall as [Hv _]. apply Forall_cons in Hco as [Hv' _]. congruence. }
  rewrite split_walk, (walk_one_side this side _ Hside (vertex_pairs_one_side this side vs Hall)).
  rewrite vertex_pairs_fst. cbn [fst snd]. unfold emitted.
  apply Nat.leb_le in Hlen.
  destruct side; [| |done].
  - rewrite (bool_decide_eq_true_2 (Location.front = Location.front)) by done.
    rewrite (bool_decide_eq_false_2 (Location.front = Location.back)) by done.
    change (3 <=? length (@nil Vector)) with false. cbv iota. by rewrite Hlen.
  - rewrite (bool_decide_eq_true_2 (Location.back = Location.back)) by done.
    rewrite (bool_decide_eq_false_2 (Location.back = Location.front)) by done.
    change (3 <=? length (@nil Vector)) with false. cbv iota. by rewrite Hlen.
Qed.

Lemma bisect_of_a_polygon_on_one_side_witness :
  Plane_bisect (new_Plane (new_Vector 0 0 1) 5) 1 1 2 3 4 bisect_fixture
  = (Ok tt, with_fragment 1 crossing_triangle.1 9 bisect_fixture).
Proof.
  apply (bisect_of_a_polygon_on_one_side (new_Plane (new_Vector 0 0 1) 5) Location.front
           1 1 2 3 4 bisect_fixture (mkPolygon 1 9 (plane_of crossing_triangle.1))
           crossing_triangle.1);
    [vm_compute; reflexivity|vm_compute; reflexivity|vm_compute; lia|discriminate|
     repeat constructor; vm_compute; reflexivity|by eexists..].
Defined.

(** ** From a tree back to a polygon list *)

(** X6: [concatPolys] on a tree whose arrays are in the store returns a new
    array with the polygons of the node, then those of the front subtree,
    then those of the behind subtree.  The polygons are the objects the
    tree holds, not copies: no polygon and no vertex array is made, and the
    arrays of the tree are left as they were. *)
Theorem concatPolys_collects_the_tree {Color : Type} (t : BSPNode) (h : Heap Color) :
  tree_below (length (parrs h)) t ->
  exists r h',
    BSPNode_concatPolys t h = (Ok r, h')
    /\ length (parrs h) <= r
    /\ parrs h' !! r = Some (tree_polygons h t)
    /\ (forall a, a < length (parrs h) -> parrs h' !! a = parrs h !! a)
    /\ varrs h' = varrs h /\ polys h' = polys h /\ geoms h' = geoms h.
Proof.
  intros Hbelow.
  destruct (collects_concatPolys t h Hbelow) as (r & h' & Hrun & Hr & [_ Hk] & Hv & Hp & Hg).
  exists r, h'. split; [done|].
  destruct (safe_BSPNode_concatPolys (length (parrs h)) t h (le_n _)) as [_ Hfresh].
  rewrite Hrun in Hfresh. split; [by apply Hfresh|]. by repeat split.
Qed.

Lemma concatPolys_collects_the_tree_witness :
  let t := mkBSPNode (Some floor_plane) 0 None (Some (mkBSPNode None 1 None None)) in
  exists r h',
    BSPNode_concatPolys t two_arrays = (Ok r, h')
    /\ 2 <= r
    /\ parrs h' !! r = Some [0; 1]
    /\ (forall a, a < 2 -> parrs h' !! a = parrs two_arrays !! a)
    /\ varrs h' = varrs two_arrays /\ polys h' = polys two_arrays
    /\ geoms h' = geoms two_arrays.
Proof.
  apply (concatPolys_collects_the_tree
           (mkBSPNode (Some floor_plane) 0 None (Some (mkBSPNode None 1 None None)))
           two_arrays).
  vm_compute. repeat split; lia.
Defined.

(** X7: a polygon list partitioned and flattened again.  For a non-empty
    list of well-formed polygons, [Partition] followed by [toGeometry]
    returns a new geometry over a new polygon array, or exhausts the stack,
    and fails in no other way.  The array of the geometry holds at least as
    many polygons as the list, with at least as many vertices all together,
    each polygon with at least three; the list itself is as it was. *)
Theorem Partition_then_toGeometry {Color : Type}
    (fuel : nat) (input : ref) (ps : list ref) (h : Heap Color) :
  parrs h !! input = Some ps -> ps <> [] -> Forall (well_formed h) ps ->
  match roundtrip fuel input h with
  | (Ok g, h') =>
      exists a out,
        geoms h' !! g = Some (mkGeometry a) /\ length (geoms h) <= g
        /\ length (parrs h) <= a /\ parrs h' !! a = Some out
        /\ length ps <= length out
        /\ total_vertices h ps <= total_vertices h' out
        /\ Forall (well_formed h') out
        /\ parrs h' !! input = Some ps
  | (Err RangeError, _) => True
  | (Err _, _) => False
  end.
Proof.
  intros Hin Hne Hwf. unfold roundtrip.
  assert (Hfresh : option_fresh h None) by (by intros t' [=]).
  pose proof (Partition_fresh fuel input ps None h Hin Hne Hwf Hfresh (le_n _)) as H.
  pose proof (safe_BSPNode_Partition (length (parrs h)) fuel (Some input) None I h (le_n _))
    as [Hk1 _].
  cbn [root_array] in H. unfold bind at 1.
  destruct (BSPNode_Partition fuel (Some input) None h) as [[[[t|] tree']|e] h1];
    [|done|by destruct e].
  cbn [snd] in Hk1.
  destruct H as (_ & _ & Hab & (Hbe & Hco & Hn & Hv) & _).
  rewrite (bind_Ok _ _ _ t h1) by done. unfold BSPNode_toGeometry.
  destruct (collects_concatPolys t h1 Hbe) as (r & h2 & Hrun & Hr & Hk2 & Hv2 & Hp2 & Hg2).
  destruct (safe_BSPNode_concatPolys (length (parrs h1)) t h1 (le_n _)) as [_ Hr'].
  rewrite Hrun in Hr'. specialize (Hr' r eq_refl).
  rewrite (bind_Ok _ _ _ _ _ Hrun). unfold alloc_geometry.
  exists r, (tree_polygons h1 t). cbn [geoms parrs].
  pose proof Hk1 as [(_ & _ & Hgeo & Hlen) Harr].
  pose proof (coplanar_tree_well_formed h1 t Hco) as Hwf1.
  split; [apply lookup_snoc|]. split; [rewrite Hg2; by apply prefix_length|].
  split; [lia|]. split; [done|]. split; [done|].
  set (h3 := mkHeap (varrs h2) (polys h2) (parrs h2) (geoms h2 ++ [mkGeometry r])).
  assert (Hg13 : grows h1 h3).
  { destruct Hk2 as [(Ha & Hb & Hc & Hd) _].
    repeat split; cbn [varrs polys geoms parrs]; try done. by apply prefix_app_r. }
  split.
  { rewrite (total_vertices_grows h1 h3); [done|done|].
    eapply Forall_impl; [exact Hwf1|]. apply well_formed_stored. }
  split.
  { eapply Forall_impl; [exact Hwf1|]. intros p. by apply grows_well_formed. }
  destruct Hk2 as [_ Hk2]. rewrite Hk2 by (apply lookup_lt_Some in Hin; lia).
  rewrite Harr by (by eapply lookup_lt_Some). done.
Qed.

Lemma Partition_then_toGeometry_witness :
  (exists g h', roundtrip 3 0 two_triangles = (Ok g, h'))
  /\ match roundtrip 3 0 two_triangles with
     | (Ok g, h') =>
         exists a out,
           geoms h' !! g = Some (mkGeometry a) /\ 0 <= g
           /\ 1 <= a /\ parrs h' !! a = Some out
           /\ 2 <= length out
           /\ total_vertices two_triangles [0; 1] <= total_vertices h' out
           /\ Forall (well_formed h') out
           /\ parrs h' !! 0 = Some [0; 1]
     | (Err RangeError, _) => True
     | (Err _, _) => False
     end.
Proof.
  split; [eexists _, _; vm_compute; reflexivity|].
  apply (Partition_then_toGeometry 3 0 [0; 1] two_triangles);
    [reflexivity|discriminate|fixture_well_formed].
Defined.

(** ** The round trip, counted *)

Section RoundTrip.
Context {Color : Type}.
Implicit Types (h : Heap Color) (a : ref).



End RoundTrip.




(** ** What [trim] returns *)

Section Trim.
Context {Color : Type}.
Implicit Types (h : Heap Color) (a : ref) (n : nat) (t : BSPNode).

Lemma color_of_grows h h' a : grows h h' -> stored h a -> color_of h' a = color_of h a.
Proof.
  intros (_ & Hp & _) (q & vs & Hq & _). unfold color_of.
  by rewrite Hq, (prefix_lookup_Some _ _ _ _ Hq Hp).
Qed.

Lemma survivor_grows h ps h' h'' p' :
  grows h' h'' -> survivor h ps h' p' -> survivor h ps h'' p'.
Proof.
  intros Hg [Hwf (p & Hp & Hc)]. split; [by eapply grows_well_formed|].
  exists p. split; [done|].
  by rewrite (color_of_grows h' h'' p' Hg (well_formed_stored _ _ Hwf)).
Qed.

Lemma survivor_trans h ps h1 xs h2 p' :
  Forall (survivor h ps h1) xs -> survivor h1 xs h2 p' -> survivor h ps h2 p'.
Proof.
  intros Hxs [Hwf (p1 & Hp1 & Hc)]. split; [done|].
  rewrite Forall_forall in Hxs. destruct (Hxs p1 Hp1) as [_ (p & Hp & Hc')].
  exists p. split; [done|]. by rewrite Hc.
Qed.

Lemma survivor_self h ps h' p :
  grows h h' -> p ∈ ps -> well_formed h p -> survivor h ps h' p.
Proof.
  intros Hg Hp Hwf. split; [by eapply grows_well_formed|]. exists p. split; [done|].
  apply color_of_grows; [done|by apply well_formed_stored].
Qed.

(** What [bisect] pushes for a polygon of the list is a survivor of it. *)
Lemma classified_survivors (hp : Plane) h ps h1 p o :
  grows h h1 -> p ∈ ps -> well_formed h p -> classified hp h1 p o ->
  Forall (survivor h ps h1) (pushes o).
Proof.
  intros Hg Hp Hwf (q & vs & Hq & Hvs & Hcl). unfold pushes.
  assert (Hself : survivor h ps h1 p) by by apply survivor_self.
  assert (Hfrag : forall ws l, fragment h1 ws (color q) l -> Forall (survivor h ps h1) l).
  { intros ws l. unfold fragment. destruct (3 <=? length ws) eqn:Hlen; [|by intros ->].
    intros (a & -> & (qa & Hqa & Hca & Hva)). constructor; [|done]. split.
    - exists qa, ws. apply Nat.leb_le in Hlen. by repeat split.
    - exists p. split; [done|].
      rewrite <- (color_of_grows h h1 p Hg (well_formed_stored _ _ Hwf)).
      unfold color_of. rewrite Hqa, Hq. cbn [fmap option_fmap option_map]. by rewrite Hca. }
  destruct (isCoplanar _).
  - destruct Hcl as (-> & -> & Hsr).
    destruct (_ <? _)%float; destruct Hsr as [-> ->]; cbn [app]; by apply Forall_singleton.
  - destruct Hcl as (-> & -> & Hf & Hb).
    repeat (apply Forall_app; split); try done; by eapply Hfrag.
Qed.

Lemma classified_all_survivors (hp : Plane) h ps h1 (ps' : list ref) (os : list Buckets) :
  grows h h1 -> Forall2 (classified hp h1) ps' os ->
  Forall (fun p => p ∈ ps /\ well_formed h p) ps' ->
  Forall (survivor h ps h1) (flat_map pushes os).
Proof.
  intros Hg. induction 1 as [|p o ps' os Hcl _ IH]; intros Hall; [done|].
  apply Forall_cons in Hall as [[Hp Hwf] Hall]. cbn [flat_map].
  apply Forall_app. split; [by eapply classified_survivors|by apply IH].
Qed.

Lemma pushes_sides (P : ref -> Prop) (os : list Buckets) :
  Forall P (flat_map pushes os) ->
  Forall P (flat_map (fun o => to_front o ++ to_samePlane o) os)
  /\ Forall P (flat_map (fun o => to_behind o ++ to_reversePlane o) os).
Proof.
  induction os as [|o os IH]; [done|]. cbn [flat_map]. unfold pushes at 1.
  rewrite !Forall_app. intros [(H1 & H2 & H3 & H4) Hrest].
  destruct (IH Hrest) as [IH1 IH2]. by repeat split.
Qed.

(** The loop of [trim]: the two buckets are new arrays, and after the loop
    the first holds the front fragments and the polygons coplanar with the
    same orientation, the second the behind fragments and the polygons
    coplanar with the reverse orientation. *)
Lemma trim_buckets (this : BSPNode) (hp : Plane) (input : ref) (ps : list ref) h :
  hyperPlane this = Some hp -> parrs h !! input = Some ps -> Forall (stored h) ps ->
  exists h1 (os : list Buckets),
    BSPNode_trim this input h
    = trim_survivors this (S (length (parrs h))) (length (parrs h)) h1
    /\ grows h h1
    /\ length (parrs h1) = S (S (length (parrs h)))
    /\ Forall2 (classified hp h1) ps os
    /\ parrs h1 !! S (length (parrs h))
       = Some (flat_map (fun o => to_front o ++ to_samePlane o) os)
    /\ parrs h1 !! length (parrs h)
       = Some (flat_map (fun o => to_behind o ++ to_reversePlane o) os).
Proof.
  intros Hhp Hin Hps.
  set (out := S (length (parrs h))). set (inside := length (parrs h)).
  set (h0 := mkHeap (varrs h) (polys h) ((parrs h ++ [[]]) ++ [[]]) (geoms h)).
  assert (Hg0 : grows h h0).
  { repeat split; try done. unfold h0; cbn [parrs]. rewrite !length_app. lia. }
  assert (Hlen0 : length (parrs h0) = S (S (length (parrs h)))).
  { unfold h0; cbn [parrs]. rewrite !length_app. simpl. lia. }
  assert (Hinside : parrs h0 !! inside = Some []).
  { unfold h0, inside; cbn [parrs]. rewrite lookup_app_l by (rewrite length_app; simpl; lia).
    apply lookup_snoc. }
  assert (Hout : parrs h0 !! out = Some []).
  { unfold h0, out; cbn [parrs].
    replace (S (length (parrs h))) with (length (parrs h ++ [[]]))
      by (rewrite length_app; simpl; lia).
    apply lookup_snoc. }
  destruct (forEach_bisect hp out out inside inside ps h0)
    as (h1 & os & Hrun & Hg1 & _ & Hlen1 & Hcl & Harr); try by eexists.
  { eapply Forall_impl; [done|]. intros a. by apply grows_stored. }
  exists h1, os. split; [|split; [by etrans|split; [by rewrite Hlen1|split; [done|]]]].
  - rewrite (BSPNode_trim_unfold this hp input Hhp).
    unfold bind at 1, alloc_array at 1. unfold bind at 1, alloc_array at 1.
    cbn [varrs polys parrs geoms]. fold h0.
    replace (length (parrs h ++ [[]])) with out
      by (rewrite length_app; simpl; unfold out; lia).
    fold inside.
    erewrite bind_Ok; last first.
    { apply read_array_Some. unfold h0; cbn [parrs].
      rewrite !lookup_app_l; [done|by eapply lookup_lt_Some|].
      rewrite length_app. apply lookup_lt_Some in Hin. lia. }
    by rewrite (bind_Ok _ _ _ _ _ Hrun).
  - assert (Hne : inside <> out) by (unfold inside, out; lia).
    rewrite !Harr, Hout, Hinside. simpl. split; f_equal; apply flat_map_ext; intros o;
      unfold received; repeat destruct (decide _); try done;
      by rewrite ?app_nil_r.
Qed.

(** [trim] never fails on polygons with at least three vertices, and what
    it returns are survivors of the list it was given. *)
Lemma trim_survivors_of (this : BSPNode) :
  forall (input : ref) (ps : list ref) h,
    parrs h !! input = Some ps -> Forall (well_formed h) ps ->
    exists r out h',
      BSPNode_trim this input h = (Ok r, h')
      /\ parrs h' !! r = Some out
      /\ grows h h'
      /\ Forall (survivor h ps h') out.
Proof.
  induction this as [hp a f b IHf IHb] using BSPNode_tree_ind. intros input ps h Hin Hwf.
  destruct hp as [hp|]; last first.
  { cbn [BSPNode_trim hyperPlane].
    rewrite (bind_Ok _ _ _ _ _ (read_array_Some _ _ _ Hin)).
    eexists _, ps, _. split; [reflexivity|]. cbn [parrs].
    split; [apply lookup_snoc|].
    destruct (kept_snoc h ps) as [Hg _]. split; [done|].
    apply Forall_forall. intros p Hp. apply survivor_self; [done|done|].
    rewrite Forall_forall in Hwf. by apply Hwf. }
  destruct (trim_buckets (mkBSPNode (Some hp) a f b) hp input ps h eq_refl Hin)
    as (h1 & os & Hrun & Hg1 & Hlen1 & Hcl & Hout & Hinside).
  { eapply Forall_impl; [exact Hwf|]. apply well_formed_stored. }
  rewrite Hrun. unfold trim_survivors. cbn [front behind].
  assert (Hall : Forall (survivor h ps h1) (flat_map pushes os)).
  { eapply classified_all_survivors; [done|done|].
    apply Forall_forall. intros p Hp. split; [done|].
    rewrite Forall_forall in Hwf. by apply Hwf. }
  apply pushes_sides in Hall as [Hsout Hsin].
  (* the front child trims the outside bucket *)
  assert (Hfront : exists r1 out1 h2,
    (match f with Some f' => BSPNode_trim f' (S (length (parrs h))) | None => ret (S (length (parrs h))) end) h1
    = (Ok r1, h2)
    /\ parrs h2 !! r1 = Some out1 /\ grows h1 h2
    /\ kept (length (parrs h1)) h1 h2
    /\ Forall (survivor h ps h2) out1).
  { destruct f as [f'|].
    - destruct (IHf (S (length (parrs h))) _ h1 Hout) as (r1 & out1 & h2 & Hr1 & Ho1 & Hg2 & Hs1).
      { eapply Forall_impl; [exact Hsout|]. by intros p' [? _]. }
      exists r1, out1, h2. split; [done|]. split; [done|]. split; [done|]. split.
      + pose proof (safe_BSPNode_trim (length (parrs h1)) f' (S (length (parrs h))) h1 (le_n _))
          as [Hk _]. by rewrite Hr1 in Hk.
      + eapply Forall_impl; [exact Hs1|]. intros p'. by apply survivor_trans.
    - eexists _, _, h1. split; [reflexivity|]. split; [exact Hout|].
      split; [done|]. split; [apply kept_refl|done]. }
  destruct Hfront as (r1 & out1 & h2 & Hr1 & Ho1 & Hg2 & Hk2 & Hs1).
  rewrite (bind_Ok _ _ _ _ _ Hr1).
  assert (Hinside2 : parrs h2 !! length (parrs h)
                     = Some (flat_map (fun o => to_behind o ++ to_reversePlane o) os)).
  { destruct Hk2 as [_ Hk2]. rewrite Hk2 by lia. done. }
  (* the behind child trims the inside bucket, or the bucket is cleared *)
  assert (Hbehind : exists r2 out2 h3,
    (match b with Some b' => BSPNode_trim b' (length (parrs h)) | None => alloc_array [] end) h2
    = (Ok r2, h3)
    /\ parrs h3 !! r2 = Some out2 /\ grows h2 h3
    /\ kept (length (parrs h2)) h2 h3
    /\ Forall (survivor h ps h3) out2).
  { destruct b as [b'|].
    - destruct (IHb (length (parrs h)) _ h2 Hinside2) as (r2 & out2 & h3 & Hr2 & Ho2 & Hg3 & Hs2).
      { eapply Forall_impl; [exact Hsin|]. intros p' [? _]. by eapply grows_well_formed. }
      exists r2, out2, h3. split; [done|]. split; [done|]. split; [done|]. split.
      + pose proof (safe_BSPNode_trim (length (parrs h2)) b' (length (parrs h)) h2 (le_n _))
          as [Hk _]. by rewrite Hr2 in Hk.
      + eapply Forall_impl; [exact Hs2|]. intros p'. apply survivor_trans.
        eapply Forall_impl; [exact Hsin|]. intros p''. by apply survivor_grows.
    - eexists _, [], _. split; [reflexivity|]. cbn [parrs].
      split; [apply lookup_snoc|]. destruct (kept_snoc h2 []) as [Hg Hk].
      split; [done|]. split; [by split|done]. }
  destruct Hbehind as (r2 & out2 & h3 & Hr2 & Ho2 & Hg3 & Hk3 & Hs2).
  rewrite (bind_Ok _ _ _ _ _ Hr2).
  assert (Ho1' : parrs h3 !! r1 = Some out1).
  { destruct Hk3 as [_ Hk3]. rewrite Hk3; [done|by eapply lookup_lt_Some]. }
  destruct (collects_concat h3 r1 r2 out1 out2 Ho1' Ho2)
    as (r3 & h4 & Hr3 & Ho3 & [Hg4 _] & _).
  exists r3, (out1 ++ out2), h4. split; [done|]. split; [done|].
  split; [etrans; [exact Hg1|]; etrans; [exact Hg2|]; by etrans|].
  apply Forall_app. split.
  - eapply Forall_impl; [exact Hs1|]. intros p'. apply survivor_grows. by etrans.
  - eapply Forall_impl; [exact Hs2|]. intros p'. by apply survivor_grows.
Qed.

End Trim.

(** X8: [trim] never fails on polygons with at least three vertices,
    whatever the tree.  It returns a new array; every polygon in it has at
    least three vertices and the color of one of the polygons it was given;
    and every object of the store it was started in, the given array among
    them, is left as it was. *)
Theorem trim_returns_survivors {Color : Type}
    (this : BSPNode) (input : ref) (ps : list ref) (h : Heap Color) :
  parrs h !! input = Some ps -> Forall (well_formed h) ps ->
  exists r out h',
    BSPNode_trim this input h = (Ok r, h')
    /\ length (parrs h) <= r
    /\ parrs h' !! r = Some out
    /\ extends h h'
    /\ Forall (survivor h ps h') out.
Proof.
  intros Hin Hwf.
  destruct (trim_survivors_of this input ps h Hin Hwf) as (r & out & h' & Hrun & Hr & _ & Hs).
  exists r, out, h'. split; [done|].
  destruct (safe_BSPNode_trim (length (parrs h)) this input h (le_n _)) as [Hk Hfresh].
  rewrite Hrun in Hk, Hfresh. split; [by apply Hfresh|]. split; [done|].
  split; [by apply kept_extends|done].
Qed.

Lemma trim_returns_survivors_witness :
  exists r out h',
    BSPNode_trim (mkBSPNode (Some floor_plane) 1 None None) 0 bisect_fixture = (Ok r, h')
    /\ 5 <= r
    /\ parrs h' !! r = Some out
    /\ extends bisect_fixture h'
    /\ Forall (survivor bisect_fixture [0; 1; 2; 3] h') out.
Proof.
  apply (trim_returns_survivors (mkBSPNode (Some floor_plane) 1 None None) 0 [0; 1; 2; 3]
           bisect_fixture); [reflexivity|fixture_well_formed].
Defined.

(** X9: [trim] by a node with a hyperplane and no children keeps what is
    in front of the plane and drops what is behind it: the array it returns
    holds, in the order of the given list, the front fragment of each
    polygon the plane cuts or leaves in front, and each polygon coplanar
    with the plane in the same orientation; behind fragments, and polygons
    coplanar in the reverse orientation, are not in it. *)
Theorem trim_by_a_leaf {Color : Type}
    (hp : Plane) (a : ref) (input : ref) (ps : list ref) (h : Heap Color) :
  parrs h !! input = Some ps -> Forall (stored h) ps ->
  exists r (os : list Buckets) h',
    BSPNode_trim (mkBSPNode (Some hp) a None None) input h = (Ok r, h')
    /\ Forall2 (classified hp h') ps os
    /\ parrs h' !! r = Some (flat_map (fun o => to_front o ++ to_samePlane o) os).
Proof.
  intros Hin Hps.
  destruct (trim_buckets (mkBSPNode (Some hp) a None None) hp input ps h eq_refl Hin Hps)
    as (h1 & os & Hrun & Hg1 & Hlen1 & Hcl & Hout & Hinside).
  rewrite Hrun. unfold trim_survivors. cbn [front behind].
  rewrite (bind_Ok _ _ _ (S (length (parrs h))) h1) by done.
  unfold bind at 1, alloc_array at 1.
  set (h2 := mkHeap (varrs h1) (polys h1) (parrs h1 ++ [[]]) (geoms h1)).
  destruct (kept_snoc h1 []) as [Hg2 Hk2]. fold h2 in Hg2, Hk2.
  destruct (collects_concat h2 (S (length (parrs h))) (length (parrs h1))
              (flat_map (fun o => to_front o ++ to_samePlane o) os) [])
    as (r & h3 & Hr & Ho & [Hg3 _] & _).
  { rewrite Hk2 by lia. exact Hout. }
  { unfold h2; cbn [parrs]. apply lookup_snoc. }
  exists r, os, h3. split; [done|]. rewrite app_nil_r in Ho. split; [|done].
  eapply Forall2_impl; [exact Hcl|]. intros p o. apply grows_classified. by etrans.
Qed.

Lemma trim_by_a_leaf_witness :
  exists r (os : list Buckets) h',
    BSPNode_trim (mkBSPNode (Some floor_plane) 1 None None) 0 bisect_fixture = (Ok r, h')
    /\ Forall2 (classified floor_plane h') [0; 1; 2; 3] os
    /\ parrs h' !! r = Some (flat_map (fun o => to_front o ++ to_samePlane o) os).
Proof.
  apply (trim_by_a_leaf floor_plane 1 0 [0; 1; 2; 3] bisect_fixture); [reflexivity|].
  repeat constructor; eexists _, _; split; vm_compute; reflexivity.
Defined.

(** ** [treeTrimSelf] *)

Section TreeTrimSelf.
Context {Color : Type}.
Implicit Types (h : Heap Color) (a : ref) (n : nat) (t : BSPNode).

Lemma tree_holds_below h t : tree_holds h t -> tree_below (length (parrs h)) t.
Proof.
  induction t as [hp a f b IHf IHb] using BSPNode_tree_ind.
  cbn [tree_holds tree_below polygons front behind].
  intros ((cs & Hcs & _) & Hf & Hb). split; [by eapply lookup_lt_Some|].
  split; [destruct f|destruct b]; auto.
Qed.

Lemma tree_holds_kept n h h' t :
  kept n h h' -> tree_below n t -> tree_holds h t -> tree_holds h' t.
Proof.
  intros [Hg Hk]. induction t as [hp a f b IHf IHb] using BSPNode_tree_ind.
  cbn [tree_holds tree_below polygons front behind].
  intros (Ha & Hbf & Hbb) ((cs & Hcs & Hwf) & Hf & Hb).
  split; [|split; [destruct f|destruct b]; auto].
  exists cs. split; [by rewrite Hk|].
  eapply Forall_impl; [exact Hwf|]. intros p. by apply grows_well_formed.
Qed.

(** The trimmed tree, read from an earlier store of the tree it came from. *)
Lemma trimmed_base h h1 h2 t :
  kept (length (parrs h)) h h1 -> tree_holds h t ->
  forall t', trimmed h1 t h2 t' -> trimmed h t h2 t'.
Proof.
  intros [Hg Hk]. induction t as [hp a f b IHf IHb] using BSPNode_tree_ind.
  intros Hholds [hp' a' f' b'].
  cbn [tree_holds trimmed hyperPlane polygons front behind] in *.
  destruct Hholds as ((cs0 & Hcs0 & Hwf0) & Hhf & Hhb).
  intros (Hhp & (cs & cs' & Hcs & Hcs' & Hs) & Hf & Hb).
  split; [done|]. split.
  - rewrite Hk in Hcs by (by eapply lookup_lt_Some).
    assert (cs = cs0) as -> by congruence.
    exists cs0, cs'. split; [done|]. split; [done|].
    eapply Forall_impl; [exact Hs|]. intros p' [Hwf' (p & Hp & Hc)].
    split; [done|]. exists p. split; [done|]. rewrite Hc.
    apply color_of_grows; [done|]. apply well_formed_stored.
    rewrite Forall_forall in Hwf0. by apply Hwf0.
  - split.
    + destruct f as [f0|], f' as [f0'|]; try done. by apply IHf.
    + destruct b as [b0|], b' as [b0'|]; try done. by apply IHb.
Qed.

(** The trimmed tree, read in a later store. *)
Lemma trimmed_target h h2 h3 t :
  kept (length (parrs h2)) h2 h3 ->
  forall t', trimmed h t h2 t' -> trimmed h t h3 t'.
Proof.
  intros [Hg Hk]. induction t as [hp a f b IHf IHb] using BSPNode_tree_ind.
  intros [hp' a' f' b'].
  cbn [trimmed hyperPlane polygons front behind] in *.
  intros (Hhp & (cs & cs' & Hcs & Hcs' & Hs) & Hf & Hb).
  split; [done|]. split.
  - exists cs, cs'. split; [done|].
    split; [rewrite Hk; [done|by eapply lookup_lt_Some]|].
    eapply Forall_impl; [exact Hs|]. intros p'. by apply survivor_grows.
  - split.
    + destruct f as [f0|], f' as [f0'|]; try done. by apply IHf.
    + destruct b as [b0|], b' as [b0'|]; try done. by apply IHb.
Qed.

(** One child of [treeTrimSelf]. *)
Lemma treeTrimSelf_child (tree : BSPNode) h0 h (child : option BSPNode) :
  match child with
  | Some t => forall h, tree_holds h t ->
      exists t' h', BSPNode_treeTrimSelf t tree h = (Ok t', h') /\ trimmed h t h' t'
  | None => True
  end ->
  kept (length (parrs h0)) h0 h ->
  match child with Some t => tree_holds h0 t | None => True end ->
  exists (child' : option BSPNode) h',
    (match child with
     | Some f => let* r := BSPNode_treeTrimSelf f tree in ret (Some r)
     | None => ret None
     end) h = (Ok child', h')
    /\ kept (length (parrs h)) h h'
    /\ match child, child' with
       | Some t, Some t' => trimmed h0 t h' t'
       | None, None => True
       | _, _ => False
       end.
Proof.
  intros IH Hk Hholds. destruct child as [t|].
  - destruct (IH h) as (t' & h' & Hrun & Htr).
    { eapply tree_holds_kept; [exact Hk|by apply tree_holds_below|done]. }
    exists (Some t'), h'. rewrite (bind_Ok _ _ _ _ _ Hrun). split; [done|].
    pose proof (safe_BSPNode_treeTrimSelf (length (parrs h)) t tree h (le_n _)) as [Hk' _].
    rewrite Hrun in Hk'. split; [done|]. by eapply trimmed_base.
  - exists None, h. split; [done|]. split; [apply kept_refl|done].
Qed.

Lemma treeTrimSelf_trimmed (tree this : BSPNode) :
  forall h, tree_holds h this ->
    exists t' h', BSPNode_treeTrimSelf this tree h = (Ok t', h') /\ trimmed h this h' t'.
Proof.
  induction this as [hp a f b IHf IHb] using BSPNode_tree_ind. intros h.
  cbn [tree_holds polygons front behind]. intros ((cs & Hcs & Hwf) & Hf & Hb).
  cbn [BSPNode_treeTrimSelf hyperPlane polygons front behind].
  destruct (trim_survivors_of tree a cs h Hcs Hwf) as (r & out & h1 & Hrun & Hr & Hg1 & Hs).
  pose proof (safe_BSPNode_trim (length (parrs h)) tree a h (le_n _)) as [Hk1 _].
  rewrite Hrun in Hk1. cbn [snd] in Hk1.
  rewrite (bind_Ok _ _ _ _ _ Hrun).
  destruct (treeTrimSelf_child tree h h1 f IHf Hk1 Hf) as (f' & h2 & Hrunf & Hk2 & Hf').
  rewrite (bind_Ok _ _ _ _ _ Hrunf).
  assert (Hk12 : kept (length (parrs h)) h h2).
  { eapply kept_trans; [exact Hk1|]. eapply kept_weaken; [|exact Hk2].
    by destruct Hk1 as [(_ & _ & _ & ?) _]. }
  destruct (treeTrimSelf_child tree h h2 b IHb Hk12 Hb) as (b' & h3 & Hrunb & Hk3 & Hb').
  rewrite (bind_Ok _ _ _ _ _ Hrunb).
  eexists _, h3. split; [reflexivity|].
  cbn [trimmed hyperPlane polygons front behind]. split; [done|]. split.
  - exists cs, out. split; [done|].
    assert (Hr2 : parrs h2 !! r = Some out).
    { destruct Hk2 as [_ Hk2]. rewrite Hk2; [done|by eapply lookup_lt_Some]. }
    split.
    + destruct Hk3 as [_ Hk3]. rewrite Hk3; [done|by eapply lookup_lt_Some].
    + eapply Forall_impl; [exact Hs|]. intros p'. apply survivor_grows.
      destruct Hk2 as [Hg2 _], Hk3 as [Hg3 _]. by etrans.
  - split; [|done].
    destruct f as [f0|], f' as [f0'|]; try done. by eapply trimmed_target.
Qed.

End TreeTrimSelf.

(** X10: [treeTrimSelf] on a tree whose polygons have at least three
    vertices never fails, whatever the tree it trims against.  The tree it
    leaves has the same nodes with the same hyperplanes; the polygon array
    of each node is a new array, and each polygon in it has at least three
    vertices and the color of a polygon the node held before.  The arrays
    the nodes had, and every other object of the store, are as they were. *)
Theorem treeTrimSelf_keeps_the_nodes {Color : Type}
    (this tree : BSPNode) (h : Heap Color) :
  tree_holds h this ->
  exists t' h',
    BSPNode_treeTrimSelf this tree h = (Ok t', h')
    /\ trimmed h this h' t'
    /\ tree_above (length (parrs h)) t'
    /\ extends h h'.
Proof.
  intros Hholds.
  destruct (treeTrimSelf_trimmed tree this h Hholds) as (t' & h' & Hrun & Htr).
  exists t', h'. split; [done|]. split; [done|].
  pose proof (safe_BSPNode_treeTrimSelf (length (parrs h)) this tree h (le_n _)) as [Hk Hab].
  rewrite Hrun in Hk, Hab. split; [by apply Hab|by apply kept_extends].
Qed.

Lemma treeTrimSelf_keeps_the_nodes_witness :
  let this := mkBSPNode (Some floor_plane) 0 None (Some (mkBSPNode None 1 None None)) in
  let tree := mkBSPNode (Some (plane_of crossing_triangle.1)) 1 None None in
  exists t' h',
    BSPNode_treeTrimSelf this tree two_arrays = (Ok t', h')
    /\ trimmed two_arrays this h' t'
    /\ tree_above 2 t'
    /\ extends two_arrays h'.
Proof.
  apply (treeTrimSelf_keeps_the_nodes
           (mkBSPNode (Some floor_plane) 0 None (Some (mkBSPNode None 1 None None)))
           (mkBSPNode (Some (plane_of crossing_triangle.1)) 1 None None) two_arrays).
  cbn [tree_holds polygons front behind].
  split; [eexists; split; [vm_compute; reflexivity|fixture_well_formed]|].
  split; [done|].
  split; [eexists; split; [vm_compute; reflexivity|fixture_well_formed]|done].
Defined.

(** ** Copies: [clone] and [flip] *)

Section Copies.
Context {Color : Type}.
Implicit Types (h : Heap Color) (a : ref) (n : nat) (t : BSPNode).

Lemma Forall2_impl_Forall {A B} (R R' : A -> B -> Prop) (P : A -> Prop) l k :
  Forall2 R l k -> Forall P l -> (forall x y, P x -> R x y -> R' x y) -> Forall2 R' l k.
Proof.
  intros HR HP Himp. induction HR as [|x y l k Hxy _ IH]; [constructor|].
  apply Forall_cons in HP as [Hx HP]. constructor; auto.
Qed.

Lemma Forall2_compose {A B C} (R1 : A -> B -> Prop) (R2 : B -> C -> Prop)
    (R3 : A -> C -> Prop) l k m :
  (forall x y z, R1 x y -> R2 y z -> R3 x z) ->
  Forall2 R1 l k -> Forall2 R2 k m -> Forall2 R3 l m.
Proof.
  intros Hcomp H1. revert m. induction H1 as [|x y l k Hxy _ IH]; intros m H2.
  - inversion H2. constructor.
  - inversion H2 as [|y' z k' m' Hyz Hrest]; subst. constructor; eauto.
Qed.

Lemma Plane_clone_id (hp : Plane) : Plane_clone hp = hp.
Proof. by destruct hp. Qed.

Lemma Vector_clone_fmap (vs : list Vector) : Vector_clone <$> vs = vs.
Proof.
  induction vs as [|v vs IH]; [done|]. cbn [fmap list_fmap] in *.
  by rewrite IH, Vector_clone_id.
Qed.

Section Image.
Variables (g : list Vector -> list Vector) (pl : list Vector -> Plane).

Lemma image_base h h1 p h' p' :
  grows h h1 -> stored h p -> image g pl h1 p h' p' -> image g pl h p h' p'.
Proof.
  intros (Hv & Hp & _) (q0 & vs0 & Hq0 & Hvs0).
  intros (q & q' & vs & Hq & Hvs & Hq' & Hvs' & Hlen & Hc & Hpl & Hfp & Hfv).
  rewrite (prefix_lookup_Some _ _ _ _ Hq0 Hp) in Hq. simplify_eq.
  rewrite (prefix_lookup_Some _ _ _ _ Hvs0 Hv) in Hvs. simplify_eq.
  exists q, q', vs. repeat split; try done.
  - apply prefix_length in Hp. lia.
  - apply prefix_length in Hv. lia.
Qed.

Lemma image_target h p h' h'' p' :
  grows h' h'' -> image g pl h p h' p' -> image g pl h p h'' p'.
Proof.
  intros (Hv & Hp & _).
  intros (q & q' & vs & Hq & Hvs & Hq' & Hvs' & Hlen & Hc & Hpl & Hfp & Hfv).
  exists q, q', vs. repeat split; try done; by eapply prefix_lookup_Some.
Qed.

Lemma image_of_a_clone h p h1 p1 h2 p2 :
  image (fun vs => vs) plane_of h p h1 p1 -> image g pl h1 p1 h2 p2 ->
  image g pl h p h2 p2.
Proof.
  intros (q & q1 & vs & Hq & Hvs & Hq1 & Hvs1 & Hlen1 & Hc1 & Hpl1 & Hfp1 & Hfv1).
  intros (q1' & q2 & vs1 & Hq1' & Hvs1' & Hq2 & Hvs2 & Hlen2 & Hc2 & Hpl2 & Hfp2 & Hfv2).
  simplify_eq. exists q, q2, vs. repeat split; try done.
  - congruence.
  - apply lookup_lt_Some in Hq1. lia.
  - apply lookup_lt_Some in Hvs1. lia.
Qed.

Lemma image_well_formed h p h' p' : image g pl h p h' p' -> well_formed h' p'.
Proof.
  intros (q & q' & vs & _ & _ & Hq' & Hvs' & Hlen & _). by exists q', (g vs).
Qed.

Lemma images_well_formed h (cs : list ref) h' (cs' : list ref) :
  Forall2 (fun p p' => image g pl h p h' p') cs cs' -> Forall (well_formed h') cs'.
Proof.
  induction 1 as [|x y l k Hxy _ IH]; constructor; [by eapply image_well_formed|done].
Qed.

(** A loop that makes one image per polygon. *)
Lemma mapM_image (f : ref -> M Color ref) :
  (forall h p q vs,
      polys h !! p = Some q -> varrs h !! vertices q = Some vs -> 3 <= length vs ->
      f p h = (Ok (length (polys h)),
               mkHeap (varrs h ++ [g vs])
                      (polys h ++ [mkPolygon (length (varrs h)) (color q) (pl vs)])
                      (parrs h) (geoms h))) ->
  (forall vs, length (g vs) = length vs) ->
  forall (cs : list ref) h, Forall (well_formed h) cs ->
    exists cs' h',
      mapM f cs h = (Ok cs', h')
      /\ grows h h' /\ parrs h' = parrs h /\ geoms h' = geoms h
      /\ Forall2 (fun p p' => image g pl h p h' p') cs cs'.
Proof.
  intros Hf Hg. induction cs as [|p cs IH]; intros h Hwf.
  - exists [], h. by repeat split.
  - apply Forall_cons in Hwf as [(q & vs & Hq & Hvs & Hlen) Hwf].
    set (h1 := mkHeap (varrs h ++ [g vs])
                 (polys h ++ [mkPolygon (length (varrs h)) (color q) (pl vs)])
                 (parrs h) (geoms h)).
    assert (Hg1 : grows h h1).
    { repeat split; cbn [varrs polys geoms parrs]; try done; by apply prefix_app_r. }
    destruct (IH h1) as (cs' & h' & Hrun & Hg2 & Hp2 & Hgeo2 & Himg).
    { eapply Forall_impl; [exact Hwf|]. intros a. by apply grows_well_formed. }
    exists (length (polys h) :: cs'), h'. cbn [mapM].
    rewrite (bind_Ok _ _ _ _ _ (Hf h p q vs Hq Hvs Hlen)). fold h1.
    rewrite (bind_Ok _ _ _ _ _ Hrun). split; [done|].
    split; [by etrans|]. split; [done|]. split; [done|].
    constructor.
    + apply (image_target h p h1 h' _ Hg2).
      exists q, (mkPolygon (length (varrs h)) (color q) (pl vs)), vs.
      cbn [vertices color plane]. unfold h1; cbn [varrs polys].
      repeat split; try done; try apply lookup_snoc. by rewrite Hg.
    + eapply Forall2_impl_Forall; [exact Himg|exact Hwf|]. intros a a' Ha.
      apply (image_base h h1 a h' a' Hg1). by apply well_formed_stored.
Qed.

End Image.

Section TreeImage.
Variables (swap : bool) (fp : Plane -> Plane)
  (g : list Vector -> list Vector) (pl : list Vector -> Plane).

(** The image of a tree, read from an earlier store of the tree. *)
Lemma tree_image_base h h1 h2 t :
  kept (length (parrs h)) h h1 -> tree_holds h t ->
  forall t', tree_image swap fp g pl h1 t h2 t' -> tree_image swap fp g pl h t h2 t'.
Proof.
  intros [Hg Hk]. induction t as [hp a f b IHf IHb] using BSPNode_tree_ind.
  intros Hholds [hp' a' f' b'].
  cbn [tree_holds tree_image hyperPlane polygons front behind] in *.
  destruct Hholds as ((cs0 & Hcs0 & Hwf0) & Hhf & Hhb).
  intros (Hhp & (cs & cs' & Hcs & Hcs' & Hs) & Hf & Hb).
  split; [done|]. split.
  - rewrite Hk in Hcs by (by eapply lookup_lt_Some).
    assert (cs = cs0) as -> by congruence.
    exists cs0, cs'. split; [done|]. split; [done|].
    eapply Forall2_impl_Forall; [exact Hs|exact Hwf0|]. intros p p' Hp.
    apply image_base; [done|by apply well_formed_stored].
  - split.
    + destruct f as [f0|], (if swap then b' else f') as [x|]; try done. by apply IHf.
    + destruct b as [b0|], (if swap then f' else b') as [x|]; try done. by apply IHb.
Qed.

(** The image of a tree, read in a later store. *)
Lemma tree_image_target h h2 h3 t :
  kept (length (parrs h2)) h2 h3 ->
  forall t', tree_image swap fp g pl h t h2 t' -> tree_image swap fp g pl h t h3 t'.
Proof.
  intros [Hg Hk]. induction t as [hp a f b IHf IHb] using BSPNode_tree_ind.
  intros [hp' a' f' b'].
  cbn [tree_image hyperPlane polygons front behind] in *.
  intros (Hhp & (cs & cs' & Hcs & Hcs' & Hs) & Hf & Hb).
  split; [done|]. split.
  - exists cs, cs'. split; [done|].
    split; [rewrite Hk; [done|by eapply lookup_lt_Some]|].
    eapply Forall2_impl; [exact Hs|]. intros p p'. by apply image_target.
  - split.
    + destruct f as [f0|], (if swap then b' else f') as [x|]; try done. by apply IHf.
    + destruct b as [b0|], (if swap then f' else b') as [x|]; try done. by apply IHb.
Qed.

(** The image of a deep copy is an image of the tree that was copied. *)
Lemma tree_image_of_a_clone h h1 h2 t :
  forall t1 t2, cloned h t h1 t1 -> tree_image swap fp g pl h1 t1 h2 t2 ->
    tree_image swap fp g pl h t h2 t2.
Proof.
  unfold cloned. induction t as [hp a f b IHf IHb] using BSPNode_tree_ind.
  intros [hp1 a1 f1 b1] [hp2 a2 f2 b2].
  cbn [tree_image hyperPlane polygons front behind] in *.
  intros (Hhp1 & (cs & cs1 & Hcs & Hcs1 & Hs1) & Hf1 & Hb1).
  intros (Hhp2 & (cs1' & cs2 & Hcs1' & Hcs2 & Hs2) & Hf2 & Hb2).
  split; [rewrite Hhp2, Hhp1; by destruct hp|]. split.
  - assert (cs1' = cs1) as -> by congruence.
    exists cs, cs2. split; [done|]. split; [done|].
    eapply Forall2_compose; [|exact Hs1|exact Hs2].
    intros x y z. apply image_of_a_clone.
  - split.
    + destruct f as [f0|], f1 as [f10|]; try done;
        destruct (if swap then b2 else f2) as [x|]; try done. by eapply IHf.
    + destruct b as [b0|], b1 as [b10|]; try done;
        destruct (if swap then f2 else b2) as [x|]; try done. by eapply IHb.
Qed.

Lemma tree_image_holds h h' t :
  forall t', tree_image swap fp g pl h t h' t' -> tree_holds h' t'.
Proof.
  induction t as [hp a f b IHf IHb] using BSPNode_tree_ind. intros [hp' a' f' b'].
  cbn [tree_image tree_holds hyperPlane polygons front behind] in *.
  intros (_ & (cs & cs' & _ & Hcs' & Hs) & Hf & Hb).
  split.
  { exists cs'. split; [done|]. by eapply images_well_formed. }
  destruct swap.
  - split.
    + destruct b as [b0|], f' as [x|]; try done. by eapply IHb.
    + destruct f as [f0|], b' as [x|]; try done. by eapply IHf.
  - split.
    + destruct f as [f0|], f' as [x|]; try done. by eapply IHf.
    + destruct b as [b0|], b' as [x|]; try done. by eapply IHb.
Qed.

Lemma tree_image_depth t :
  forall h h' t', tree_image swap fp g pl h t h' t' -> depth t' = depth t.
Proof.
  induction t as [hp a f b IHf IHb] using BSPNode_tree_ind. intros h h' [hp' a' f' b'].
  cbn [tree_image depth hyperPlane polygons front behind] in *.
  intros (_ & _ & Hf & Hb).
  destruct swap.
  - destruct f as [f0|], b' as [x|]; try done;
      destruct b as [b0|], f' as [y|]; try done;
      rewrite ?(IHf _ _ _ Hf), ?(IHb _ _ _ Hb); try done. by rewrite Nat.max_comm.
  - destruct f as [f0|], f' as [x|]; try done;
      destruct b as [b0|], b' as [y|]; try done;
      by rewrite ?(IHf _ _ _ Hf), ?(IHb _ _ _ Hb).
Qed.

Lemma tree_image_planes t :
  forall h h' t', tree_image swap fp g pl h t h' t' -> has_planes t -> has_planes t'.
Proof.
  induction t as [hp a f b IHf IHb] using BSPNode_tree_ind. intros h h' [hp' a' f' b'].
  cbn [tree_image has_planes hyperPlane polygons front behind] in *.
  intros (Hhp & _ & Hf & Hb) ([pl0 Hpl] & Hpf & Hpb). subst hp hp'.
  split; [by eexists|].
  destruct swap.
  - split.
    + destruct b as [b0|], f' as [x|]; try done. by eapply IHb.
    + destruct f as [f0|], b' as [x|]; try done. by eapply IHf.
  - split.
    + destruct f as [f0|], f' as [x|]; try done. by eapply IHf.
    + destruct b as [b0|], b' as [x|]; try done. by eapply IHb.
Qed.

End TreeImage.

(** *** [Polygon.clone] and [Polygon.flip], with the vertices as they are *)

Lemma Polygon_clone_image h p (q : Polygon Color) vs :
  polys h !! p = Some q -> varrs h !! vertices q = Some vs -> 3 <= length vs ->
  Polygon_clone p h =
    (Ok (length (polys h)),
     mkHeap (varrs h ++ [vs])
            (polys h ++ [mkPolygon (length (varrs h)) (color q) (plane_of vs)])
            (parrs h) (geoms h)).
Proof.
  intros Hq Hvs Hlen. rewrite (Polygon_clone_Ok h p q vs Hq Hvs Hlen).
  by rewrite Vector_clone_fmap.
Qed.

Lemma Polygon_flip_image h p (q : Polygon Color) vs :
  polys h !! p = Some q -> varrs h !! vertices q = Some vs -> 3 <= length vs ->
  Polygon_flip p h =
    (Ok (length (polys h)),
     mkHeap (varrs h ++ [reverse vs])
            (polys h ++ [mkPolygon (length (varrs h)) (color q) (Plane_flip (plane_of vs))])
            (parrs h) (geoms h)).
Proof.
  intros Hq Hvs Hlen. rewrite (Polygon_flip_Ok h p q vs Hq Hvs Hlen).
  by rewrite Vector_clone_fmap.
Qed.

(** *** [BSPNode.clone] *)

Lemma clone_child h0 h (child : option BSPNode) :
  match child with
  | Some t => forall h, tree_holds h t ->
      exists t' h', BSPNode_clone t h = (Ok t', h') /\ cloned h t h' t'
  | None => True
  end ->
  kept (length (parrs h0)) h0 h ->
  match child with Some t => tree_holds h0 t | None => True end ->
  exists (child' : option BSPNode) h',
    (match child with
     | Some f => let* r := BSPNode_clone f in ret (Some r)
     | None => ret None
     end) h = (Ok child', h')
    /\ kept (length (parrs h)) h h'
    /\ match child, child' with
       | Some t, Some t' => cloned h0 t h' t'
       | None, None => True
       | _, _ => False
       end.
Proof.
  intros IH Hk Hholds. destruct child as [t|].
  - destruct (IH h) as (t' & h' & Hrun & Htr).
    { eapply tree_holds_kept; [exact Hk|by apply tree_holds_below|done]. }
    exists (Some t'), h'. rewrite (bind_Ok _ _ _ _ _ Hrun). split; [done|].
    pose proof (safe_BSPNode_clone (length (parrs h)) t h (le_n _)) as [Hk' _].
    rewrite Hrun in Hk'. split; [done|]. by eapply tree_image_base.
  - exists None, h. split; [done|]. split; [apply kept_refl|done].
Qed.

Lemma BSPNode_clone_cloned (this : BSPNode) :
  forall h, tree_holds h this ->
    exists t' h', BSPNode_clone this h = (Ok t', h') /\ cloned h this h' t'.
Proof.
  induction this as [hp a f b IHf IHb] using BSPNode_tree_ind. intros h.
  cbn [tree_holds polygons front behind]. intros ((cs & Hcs & Hwf) & Hf & Hb).
  cbn [BSPNode_clone hyperPlane polygons front behind].
  unfold new_BSPNode at 1. unfold bind at 1. unfold bind at 1, alloc_array at 1.
  unfold ret at 1. cbn [hyperPlane front behind].
  set (h0 := mkHeap (varrs h) (polys h) (parrs h ++ [[]]) (geoms h)).
  pose proof (kept_snoc h []) as Hk0. fold h0 in Hk0.
  destruct (clone_child h h0 f IHf Hk0 Hf) as (f' & h1 & Hrunf & Hk1 & Hf').
  rewrite (bind_Ok _ _ _ _ _ Hrunf).
  assert (Hk01 : kept (length (parrs h)) h h1).
  { eapply kept_trans; [exact Hk0|]. eapply kept_weaken; [|exact Hk1].
    by destruct Hk0 as [(_ & _ & _ & ?) _]. }
  destruct (clone_child h h1 b IHb Hk01 Hb) as (b' & h2 & Hrunb & Hk2 & Hb').
  rewrite (bind_Ok _ _ _ _ _ Hrunb).
  assert (Hk02 : kept (length (parrs h)) h h2).
  { eapply kept_trans; [exact Hk01|]. eapply kept_weaken; [|exact Hk2].
    by destruct Hk01 as [(_ & _ & _ & ?) _]. }
  assert (Hcs2 : parrs h2 !! a = Some cs).
  { destruct Hk02 as [_ Hk]. rewrite Hk; [done|by eapply lookup_lt_Some]. }
  rewrite (bind_Ok _ _ _ _ _ (read_array_Some _ _ _ Hcs2)).
  destruct (mapM_image (fun vs => vs) plane_of Polygon_clone Polygon_clone_image
              (fun vs => eq_refl) cs h2)
    as (cs' & h3 & Hmap & Hg3 & Hp3 & Hgeo3 & Himg).
  { eapply Forall_impl; [exact Hwf|]. intros p. apply grows_well_formed. by destruct Hk02. }
  rewrite (bind_Ok _ _ _ _ _ Hmap). unfold bind at 1, alloc_array at 1. unfold ret.
  set (h4 := mkHeap (varrs h3) (polys h3) (parrs h3 ++ [cs']) (geoms h3)).
  pose proof (kept_snoc h3 cs') as Hk4. fold h4 in Hk4.
  assert (Hk23 : forall n, kept n h2 h3).
  { intros n. split; [done|]. intros x _. by rewrite Hp3. }
  assert (Hk24 : kept (length (parrs h2)) h2 h4).
  { eapply kept_trans; [apply Hk23|]. by rewrite <- Hp3. }
  eexists _, h4. split; [reflexivity|]. unfold cloned.
  cbn [tree_image hyperPlane polygons front behind].
  split; [destruct hp; cbn; by rewrite ?Plane_clone_id|]. split.
  - exists cs, cs'. split; [done|]. split; [unfold h4; cbn [parrs]; apply lookup_snoc|].
    eapply Forall2_impl_Forall; [exact Himg|exact Hwf|]. intros p p' Hp Hi.
    apply (image_target _ _ h p h3 h4 p'); [by destruct Hk4|].
    apply (image_base _ _ h h2 p h3 p'); [by destruct Hk02|by apply well_formed_stored|done].
  - split.
    + destruct f as [f0|], f' as [f0'|]; try done.
      eapply tree_image_target; [|exact Hf'].
      eapply kept_trans; [exact Hk2|]. eapply kept_weaken; [|exact Hk24].
      by destruct Hk2 as [(_ & _ & _ & ?) _].
    + destruct b as [b0|], b' as [b0'|]; try done.
      by eapply tree_image_target.
Qed.

(** *** [BSPNode.flip] *)

Lemma BSPNode_flip_unfold (fuel : nat) (this : BSPNode) :
  BSPNode_flip (Color := Color) fuel this =
    (let* copy := BSPNode_clone this in
     let* hp := defined (hyperPlane copy) in
     let* ps := read_array (polygons copy) in
     let* ps' := mapM Polygon_flip ps in
     let* a := alloc_array ps' in
     let* front' := flip_descend fuel (front copy) in
     let* behind' := flip_descend fuel (behind copy) in
     ret (mkBSPNode (Some (Plane_flip hp)) a behind' front')).
Proof. by destruct fuel. Qed.

(** One child of the copy: it is flipped, and what comes out is the
    mirrored copy of the child of the tree that was copied; the stack runs
    out only when the budget is no more than the depth of the child. *)
Lemma flip_child (fuel : nat) h0 h1 h (c0 child : option BSPNode) :
  (forall fuel' t h, fuel = S fuel' -> has_planes t -> tree_holds h t ->
     match BSPNode_flip fuel' t h with
     | (Ok t', h') => flipped h t h' t'
     | (Err RangeError, _) => fuel' < depth t
     | (Err _, _) => False
     end) ->
  match c0, child with
  | Some t0, Some t => cloned h0 t0 h1 t /\ has_planes t0
  | None, None => True
  | _, _ => False
  end ->
  kept (length (parrs h1)) h1 h ->
  match flip_descend fuel child h with
  | (Ok child', h') =>
      kept (length (parrs h)) h h'
      /\ match c0, child' with
         | Some t0, Some t' => flipped h0 t0 h' t'
         | None, None => True
         | _, _ => False
         end
  | (Err RangeError, _) => match c0 with Some t0 => fuel <= depth t0 | None => False end
  | (Err _, _) => False
  end.
Proof.
  intros IH Hc Hk. destruct c0 as [t0|], child as [t|]; try done.
  destruct Hc as (Hcl & Hpl). cbn [flip_descend].
  destruct fuel as [|fuel']; [cbn; lia|].
  pose proof (tree_image_holds _ _ _ _ _ _ _ _ Hcl) as Hholds1.
  assert (Hholds : tree_holds h t).
  { eapply tree_holds_kept; [exact Hk|by apply tree_holds_below|done]. }
  specialize (IH fuel' t h eq_refl (tree_image_planes _ _ _ _ _ _ _ _ Hcl Hpl) Hholds).
  pose proof (safe_BSPNode_flip (length (parrs h)) fuel' t h (le_n _)) as [Hk' _].
  unfold bind.
  destruct (BSPNode_flip fuel' t h) as [[t'|e] h'].
  - unfold ret. split; [done|].
    eapply tree_image_of_a_clone; [exact Hcl|]. by eapply tree_image_base.
  - destruct e; try done. rewrite (tree_image_depth _ _ _ _ _ _ _ _ Hcl) in IH. lia.
Qed.

(** The outcome of [flip] at every budget. *)
Lemma BSPNode_flip_outcome (fuel : nat) :
  forall (this : BSPNode) h,
    has_planes this -> tree_holds h this ->
    match BSPNode_flip fuel this h with
    | (Ok t', h') => flipped h this h' t'
    | (Err RangeError, _) => fuel < depth this
    | (Err _, _) => False
    end.
Proof.
  induction fuel as [fuel IH] using lt_wf_ind. intros this h Hplanes Hholds.
  assert (IH' : forall fuel' t h, fuel = S fuel' -> has_planes t -> tree_holds h t ->
                  match BSPNode_flip fuel' t h with
                  | (Ok t', h') => flipped h t h' t'
                  | (Err RangeError, _) => fuel' < depth t
                  | (Err _, _) => False
                  end).
  { intros fuel' t h0 ->. apply IH. lia. }
  rewrite BSPNode_flip_unfold.
  destruct (BSPNode_clone_cloned this h Hholds) as (copy & h1 & Hclone & Hcl).
  pose proof (safe_BSPNode_clone (length (parrs h)) this h (le_n _)) as [Hk1 _].
  rewrite Hclone in Hk1. cbn [snd] in Hk1.
  rewrite (bind_Ok _ _ _ _ _ Hclone).
  destruct this as [hp a f b], copy as [hp1 a1 f1 b1].
  pose proof Hcl as (Hhp1 & (cs & cs1 & Hcs & Hcs1 & Himg1) & Hf1 & Hb1).
  cbn [hyperPlane polygons front behind] in Hhp1, Hcs, Hcs1, Hf1, Hb1.
  destruct Hplanes as ([pl0 Hpl0] & Hpf & Hpb).
  cbn [hyperPlane front behind] in Hpl0, Hpf, Hpb. subst hp hp1.
  cbn [hyperPlane polygons front behind fmap option_fmap option_map defined].
  unfold bind at 1, ret at 1.
  rewrite (bind_Ok _ _ _ _ _ (read_array_Some _ _ _ Hcs1)).
  destruct (mapM_image reverse (fun vs => Plane_flip (plane_of vs)) Polygon_flip
              Polygon_flip_image length_reverse cs1 h1)
    as (cs2 & h2 & Hmap & Hg2 & Hp2 & Hgeo2 & Himg2).
  { by eapply images_well_formed. }
  rewrite (bind_Ok _ _ _ _ _ Hmap). unfold bind at 1, alloc_array at 1.
  set (h3 := mkHeap (varrs h2) (polys h2) (parrs h2 ++ [cs2]) (geoms h2)).
  pose proof (kept_snoc h2 cs2) as Hk3. fold h3 in Hk3.
  assert (Hk13 : kept (length (parrs h1)) h1 h3).
  { eapply kept_trans; [|rewrite <- Hp2; exact Hk3].
    split; [done|]. intros x _. by rewrite Hp2. }
  assert (Hdf : match f with
                | Some f0 => depth f0 < depth (mkBSPNode (Some pl0) a f b)
                | None => True end).
  { destruct f as [f0|]; [|done]. destruct b as [b0|]; cbn [depth front behind]; lia. }
  assert (Hdb : match b with
                | Some b0 => depth b0 < depth (mkBSPNode (Some pl0) a f b)
                | None => True end).
  { destruct b as [b0|]; [|done]. destruct f as [f0|]; cbn [depth front behind]; lia. }
  pose proof (flip_child fuel h h1 h3 f f1 IH') as Hd1.
  unfold bind at 1.
  destruct (flip_descend fuel f1 h3) as [[f2|e] h4]; last first.
  { destruct e; try (apply Hd1; [destruct f as [f0|], f1 as [f10|]; done|exact Hk13]).
    destruct f as [f0|]; [|exfalso; apply Hd1; [by destruct f1|exact Hk13]].
    assert (fuel <= depth f0); [|lia].
    apply Hd1; [destruct f1 as [f10|]; done|exact Hk13]. }
  destruct Hd1 as [Hk4 Hf2]; [destruct f as [f0|], f1 as [f10|]; done|exact Hk13|].
  assert (Hk14 : kept (length (parrs h1)) h1 h4).
  { eapply kept_trans; [exact Hk13|]. eapply kept_weaken; [|exact Hk4].
    by destruct Hk13 as [(_ & _ & _ & ?) _]. }
  pose proof (flip_child fuel h h1 h4 b b1 IH') as Hd2.
  unfold bind at 1.
  destruct (flip_descend fuel b1 h4) as [[b2|e] h5]; last first.
  { destruct e; try (apply Hd2; [destruct b as [b0|], b1 as [b10|]; done|exact Hk14]).
    destruct b as [b0|]; [|exfalso; apply Hd2; [by destruct b1|exact Hk14]].
    assert (fuel <= depth b0); [|lia].
    apply Hd2; [destruct b1 as [b10|]; done|exact Hk14]. }
  destruct Hd2 as [Hk5 Hb2]; [destruct b as [b0|], b1 as [b10|]; done|exact Hk14|].
  unfold ret. unfold flipped.
  cbn [tree_image hyperPlane polygons front behind]. split; [done|]. split.
  - exists cs, cs2. split; [done|].
    assert (Ha3 : parrs h3 !! length (parrs h2) = Some cs2)
      by (unfold h3; cbn [parrs]; apply lookup_snoc).
    assert (Ha4 : parrs h4 !! length (parrs h2) = Some cs2).
    { destruct Hk4 as [_ Hk]. rewrite Hk; [done|by eapply lookup_lt_Some]. }
    split.
    { destruct Hk5 as [_ Hk]. rewrite Hk; [done|by eapply lookup_lt_Some]. }
    eapply Forall2_compose; [|exact Himg1|exact Himg2].
    intros x y z Hxy Hyz.
    apply (image_target _ _ h x h2 h5 z).
    { destruct Hk3 as [Hg3 _], Hk4 as [Hg4 _], Hk5 as [Hg5 _]. etrans; [exact Hg3|by etrans]. }
    exact (image_of_a_clone _ _ h x h1 y h2 z Hxy Hyz).
  - split.
    + destruct f as [f0|], f2 as [f2'|]; try done. by eapply tree_image_target.
    + by destruct b as [b0|], b2 as [b2'|].
Qed.

Lemma BSPNode_flip_flipped (fuel : nat) (this : BSPNode) h :
  depth this <= fuel -> has_planes this -> tree_holds h this ->
  exists t' h', BSPNode_flip fuel this h = (Ok t', h') /\ flipped h this h' t'.
Proof.
  intros Hdepth Hplanes Hholds.
  pose proof (BSPNode_flip_outcome fuel this h Hplanes Hholds) as H.
  destruct (BSPNode_flip fuel this h) as [[t'|e] h']; [by exists t', h'|].
  destruct e; try done. lia.
Qed.

End Copies.

(** The trees of the fixtures hold well-formed polygons. *)
Ltac fixture_tree_holds :=
  cbn [tree_holds polygons front behind two_nodes two_nodes_without_plane];
  repeat split;
  try (eexists; split; [vm_compute; reflexivity|fixture_well_formed]).

(** X11: [clone] makes a deep copy of a tree whose polygons have at least
    three vertices, and never fails on one.  The copy has the same nodes
    with the same hyperplanes; each node has a new array of new polygons,
    one for each polygon of the node it copies and in the same order, with
    the same vertices in a vertex array of its own, the same color, and the
    plane of its first three vertices.  The tree that was copied, and every
    other object of the store, is as it was. *)
Theorem clone_is_a_deep_copy {Color : Type} (this : BSPNode) (h : Heap Color) :
  tree_holds h this ->
  exists t' h',
    BSPNode_clone this h = (Ok t', h')
    /\ cloned h this h' t'
    /\ tree_above (length (parrs h)) t'
    /\ extends h h'.
Proof.
  intros Hholds.
  destruct (BSPNode_clone_cloned this h Hholds) as (t' & h' & Hrun & Hcl).
  exists t', h'. split; [done|]. split; [done|].
  pose proof (safe_BSPNode_clone (length (parrs h)) this h (le_n _)) as [Hk Hab].
  rewrite Hrun in Hk, Hab. split; [by apply Hab|by apply kept_extends].
Qed.

Lemma clone_is_a_deep_copy_witness :
  exists t' h',
    BSPNode_clone two_nodes two_arrays = (Ok t', h')
    /\ cloned two_arrays two_nodes h' t'
    /\ tree_above 2 t'
    /\ extends two_arrays h'.
Proof. apply (clone_is_a_deep_copy two_nodes two_arrays). fixture_tree_holds. Defined.

(** X12: [flip] of a tree whose root has no hyperplane throws a
    [TypeError]: the copy is made, and the flip of its missing plane is a
    call on [null].  The store of the caller is as it was. *)
Theorem flip_without_a_plane {Color : Type} (fuel : nat) (this : BSPNode) (h : Heap Color) :
  tree_holds h this -> hyperPlane this = None ->
  exists h', BSPNode_flip fuel this h = (Err TypeError, h') /\ extends h h'.
Proof.
  intros Hholds Hnone.
  pose proof (safe_BSPNode_flip (length (parrs h)) fuel this h (le_n _)) as [Hk _].
  rewrite BSPNode_flip_unfold in *.
  destruct (BSPNode_clone_cloned this h Hholds) as (copy & h1 & Hclone & Hcl).
  rewrite (bind_Ok _ _ _ _ _ Hclone) in *.
  destruct this as [hp a f b], copy as [hp1 a1 f1 b1].
  destruct Hcl as (Hhp1 & _). cbn [hyperPlane] in Hhp1, Hnone. subst hp hp1.
  exists h1. split; [done|]. by apply kept_extends.
Qed.

Lemma flip_without_a_plane_witness :
  exists h',
    BSPNode_flip 1 two_nodes_without_plane two_arrays = (Err TypeError, h')
    /\ extends two_arrays h'.
Proof.
  apply (flip_without_a_plane 1 two_nodes_without_plane two_arrays); [|reflexivity].
  fixture_tree_holds.
Defined.

(** X13: [flip] mirrors a tree in which every node has a hyperplane and
    the polygons have at least three vertices; with a stack as deep as the
    tree it does not fail.  The tree it returns has, node for node, the
    flipped hyperplane, front and behind exchanged, and a new array of new
    polygons: one for each polygon of the node it mirrors, in the same
    order, with the vertices in reverse order, the same color, and the
    flipped plane of the first three vertices of the original.  The tree
    that was flipped, and every other object of the store, is as it was. *)
Theorem flip_mirrors_the_tree {Color : Type} (fuel : nat) (this : BSPNode) (h : Heap Color) :
  depth this <= fuel -> has_planes this -> tree_holds h this ->
  exists t' h',
    BSPNode_flip fuel this h = (Ok t', h')
    /\ flipped h this h' t'
    /\ tree_above (length (parrs h)) t'
    /\ extends h h'.
Proof.
  intros Hdepth Hplanes Hholds.
  destruct (BSPNode_flip_flipped fuel this h Hdepth Hplanes Hholds) as (t' & h' & Hrun & Hfl).
  exists t', h'. split; [done|]. split; [done|].
  pose proof (safe_BSPNode_flip (length (parrs h)) fuel this h (le_n _)) as [Hk Hab].
  rewrite Hrun in Hk, Hab. split; [by apply Hab|by apply kept_extends].
Qed.

Lemma flip_mirrors_the_tree_witness :
  exists t' h',
    BSPNode_flip 1 two_nodes two_arrays = (Ok t', h')
    /\ flipped two_arrays two_nodes h' t'
    /\ tree_above 2 t'
    /\ extends two_arrays h'.
Proof.
  apply (flip_mirrors_the_tree 1 two_nodes two_arrays).
  - cbn. lia.
  - cbn. repeat split; by eexists.
  - fixture_tree_holds.
Defined.

(** ** Polygons and geometries *)

(** X14: [Polygon.clone] and [Polygon.flip] on a polygon with at least
    three vertices make a new polygon with a vertex array of its own and
    the color of the original, and leave the original as it was.  The clone
    has the same vertices and the plane of its first three; the flipped
    copy has the vertices in reverse order and the flipped plane of the
    first three vertices of the original. *)
Theorem Polygon_clone_and_flip {Color : Type} (p : ref) (h : Heap Color) :
  well_formed h p ->
  (exists p' h',
      Polygon_clone p h = (Ok p', h')
      /\ image (fun vs => vs) plane_of h p h' p' /\ extends h h')
  /\ (exists p' h',
        Polygon_flip p h = (Ok p', h')
        /\ image reverse (fun vs => Plane_flip (plane_of vs)) h p h' p' /\ extends h h').
Proof.
  intros (q & vs & Hq & Hvs & Hlen). split.
  - eexists _, _. split; [by apply (Polygon_clone_image h p q vs)|]. split.
    + exists q, (mkPolygon (length (varrs h)) (color q) (plane_of vs)), vs.
      cbn [varrs polys vertices color plane].
      repeat split; try done; try apply lookup_snoc;
        by apply lookup_app_l_Some.
    + repeat split; cbn [varrs polys parrs geoms]; try done; by apply prefix_app_r.
  - eexists _, _. split; [by apply (Polygon_flip_image h p q vs)|]. split.
    + exists q, (mkPolygon (length (varrs h)) (color q) (Plane_flip (plane_of vs))), vs.
      cbn [varrs polys vertices color plane].
      repeat split; try done; try apply lookup_snoc;
        try (by apply lookup_app_l_Some). by rewrite length_reverse.
    + repeat split; cbn [varrs polys parrs geoms]; try done; by apply prefix_app_r.
Qed.

Lemma Polygon_clone_and_flip_witness :
  (exists p' h',
      Polygon_clone 1 two_triangles = (Ok p', h')
      /\ image (fun vs => vs) plane_of two_triangles 1 h' p' /\ extends two_triangles h')
  /\ (exists p' h',
        Polygon_flip 1 two_triangles = (Ok p', h')
        /\ image reverse (fun vs => Plane_flip (plane_of vs)) two_triangles 1 h' p'
        /\ extends two_triangles h').
Proof.
  apply (Polygon_clone_and_flip 1 two_triangles).
  eexists _, _; (split; [vm_compute; reflexivity|split; [vm_compute; reflexivity|vm_compute; lia]]).
Defined.

Section GeometryLemmas.
Context {Color : Type}.
Implicit Types (h : Heap Color) (a : ref).

(** The loop of [setColor]. *)
Lemma forEach_recolor (c : Color) (ps : list ref) :
  forall h, Forall (fun p => is_Some (polys h !! p)) ps ->
    exists h',
      forEach ps (fun poly =>
        let* q := read_polygon poly in
        write_polygon poly (recolored c q)) h = (Ok tt, h')
      /\ varrs h' = varrs h /\ parrs h' = parrs h /\ geoms h' = geoms h
      /\ forall p, polys h' !! p
           = (fun q => if decide (p ∈ ps) then recolored c q else q) <$> polys h !! p.
Proof.
  induction ps as [|p0 ps IH]; intros h Hall.
  - exists h. repeat split; try done. intros p.
    destruct (polys h !! p) as [q|]; [|done]. cbn.
    destruct (decide (p ∈ [])) as [Hin|]; [by apply elem_of_nil in Hin|done].
  - apply Forall_cons in Hall as [[q0 Hq0] Hall].
    set (h1 := mkHeap (varrs h) (<[p0 := recolored c q0]> (polys h)) (parrs h) (geoms h)).
    destruct (IH h1) as (h' & Hrun & Hv & Hp & Hg & Hpolys).
    { eapply Forall_impl; [exact Hall|]. intros p [q Hq]. unfold h1; cbn [polys].
      destruct (decide (p = p0)) as [->|Hne].
      - rewrite list_lookup_insert_eq by (by eapply lookup_lt_Some). by eexists.
      - rewrite list_lookup_insert_ne by done. by eexists. }
    exists h'. cbn [forEach].
    erewrite bind_Ok; last first.
    { rewrite (bind_Ok _ _ _ _ _ (read_polygon_Some _ _ _ Hq0)).
      apply write_polygon_Some. by eexists. }
    fold h1. split; [done|]. split; [done|]. split; [done|]. split; [done|].
    intros p. rewrite Hpolys. unfold h1; cbn [polys].
    destruct (decide (p = p0)) as [->|Hne].
    + rewrite list_lookup_insert_eq by (by eapply lookup_lt_Some). rewrite Hq0. cbn.
      rewrite (decide_True (P := p0 ∈ p0 :: ps)) by (apply elem_of_cons; by left).
      by destruct (decide (p0 ∈ ps)).
    + rewrite list_lookup_insert_ne by done.
      destruct (polys h !! p) as [q|]; [|done]. cbn.
      destruct (decide (p ∈ ps)) as [Hin|Hnin].
      * by rewrite (decide_True (P := p ∈ p0 :: ps)) by (apply elem_of_cons; by right).
      * rewrite (decide_False (P := p ∈ p0 :: ps)); [done|].
        intros [?|?]%elem_of_cons; done.
Qed.

End GeometryLemmas.

(** X15: [setColor] gives the color to every polygon of the geometry and
    to nothing else: afterwards each polygon of the geometry's array has the
    new color with its vertex array and plane as before, every other
    polygon of the store is as it was, and so are all vertex arrays, polygon
    arrays and geometries.  A polygon object that another array also holds
    is recolored there too. *)
Theorem setColor_recolors_the_polygons {Color : Type}
    (this : ref) (c : Color) (g : Geometry) (ps : list ref) (h : Heap Color) :
  geoms h !! this = Some g -> parrs h !! Geometry_polygons g = Some ps ->
  Forall (fun p => is_Some (polys h !! p)) ps ->
  exists h',
    Geometry_setColor this c h = (Ok tt, h')
    /\ varrs h' = varrs h /\ parrs h' = parrs h /\ geoms h' = geoms h
    /\ forall p, polys h' !! p
         = (fun q => if decide (p ∈ ps) then recolored c q else q) <$> polys h !! p.
Proof.
  intros Hg Hps Hall. unfold Geometry_setColor.
  rewrite (bind_Ok _ _ _ _ _ (read_geometry_Some _ _ _ Hg)).
  rewrite (bind_Ok _ _ _ _ _ (read_array_Some _ _ _ Hps)).
  by apply forEach_recolor.
Qed.

Lemma setColor_recolors_the_polygons_witness :
  exists h',
    Geometry_setColor 0 5 two_geometries = (Ok tt, h')
    /\ varrs h' = varrs two_geometries /\ parrs h' = parrs two_geometries
    /\ geoms h' = geoms two_geometries
    /\ forall p, polys h' !! p
         = (fun q => if decide (p ∈ [0; 1]) then recolored 5 q else q)
             <$> polys two_geometries !! p.
Proof.
  apply (setColor_recolors_the_polygons 0 5 (mkGeometry 0) [0; 1] two_geometries);
    [reflexivity|reflexivity|].
  repeat constructor; eexists; vm_compute; reflexivity.
Defined.

(** X16: [Geometry.clone] copies the polygons of a geometry, when they
    have at least three vertices each: it returns a new geometry over a new
    array of new polygons, one for each polygon of the geometry and in the
    same order, each with the same vertices in a vertex array of its own,
    the same color, and the plane of its first three vertices.  The
    geometry that was cloned, and every other object of the store, is as it
    was. *)
Theorem Geometry_clone_is_a_deep_copy {Color : Type}
    (this : ref) (g : Geometry) (ps : list ref) (h : Heap Color) :
  geoms h !! this = Some g -> parrs h !! Geometry_polygons g = Some ps ->
  Forall (well_formed h) ps ->
  exists r a ps' h',
    Geometry_clone this h = (Ok r, h')
    /\ geoms h' !! r = Some (mkGeometry a) /\ length (geoms h) <= r
    /\ parrs h' !! a = Some ps' /\ length (parrs h) <= a
    /\ Forall2 (fun p p' => image (fun vs => vs) plane_of h p h' p') ps ps'
    /\ extends h h'.
Proof.
  intros Hg Hps Hwf. unfold Geometry_clone.
  rewrite (bind_Ok _ _ _ _ _ (read_geometry_Some _ _ _ Hg)).
  rewrite (bind_Ok _ _ _ _ _ (read_array_Some _ _ _ Hps)).
  destruct (mapM_image (fun vs => vs) plane_of Polygon_clone Polygon_clone_image
              (fun vs => eq_refl) ps h Hwf)
    as (ps' & h1 & Hmap & Hg1 & Hp1 & Hgeo1 & Himg).
  rewrite (bind_Ok _ _ _ _ _ Hmap). unfold bind, alloc_array, alloc_geometry.
  cbn [varrs polys parrs geoms].
  eexists _, _, ps', _. split; [reflexivity|]. cbn [varrs polys parrs geoms].
  destruct Hg1 as (Hv & Hp & _).
  split; [apply lookup_snoc|]. split; [by rewrite Hgeo1|].
  split; [apply lookup_snoc|]. split; [by rewrite Hp1|]. split.
  - eapply Forall2_impl; [exact Himg|]. intros p p'. apply image_target.
    repeat split; cbn [varrs polys parrs geoms]; try done;
      [by apply prefix_app_r|rewrite length_app; lia].
  - repeat split; cbn [varrs polys parrs geoms]; try done.
    + rewrite Hp1. by apply prefix_app_r.
    + rewrite Hgeo1. by apply prefix_app_r.
Qed.

Lemma Geometry_clone_is_a_deep_copy_witness :
  exists r a ps' h',
    Geometry_clone 0 two_geometries = (Ok r, h')
    /\ geoms h' !! r = Some (mkGeometry a) /\ 2 <= r
    /\ parrs h' !! a = Some ps' /\ 2 <= a
    /\ Forall2 (fun p p' => image (fun vs => vs) plane_of two_geometries p h' p') [0; 1] ps'
    /\ extends two_geometries h'.
Proof.
  apply (Geometry_clone_is_a_deep_copy 0 (mkGeometry 0) [0; 1] two_geometries);
    [reflexivity|reflexivity|fixture_well_formed].
Defined.

(** ** The operators on a geometry without polygons *)

Section Failures.
Context {Color : Type}.
Implicit Types (h : Heap Color) (a : ref).

Lemma fails_bind {A B} (m : M Color A) (k : A -> M Color B) h :
  (forall x h', m h = (Ok x, h') -> fails (k x) h') -> fails (bind m k) h.
Proof.
  unfold fails, bind. intros Hk. destruct (m h) as [[x|e] h']; [by apply Hk|by eexists _, _].
Qed.

Lemma fails_bind_Ok {A B} (m : M Color A) (k : A -> M Color B) h x h' :
  m h = (Ok x, h') -> fails (k x) h' -> fails (bind m k) h.
Proof. unfold fails. intros Hm. by rewrite (bind_Ok _ _ _ _ _ Hm). Qed.

Lemma Partition_of_an_empty_list (fuel : nat) (input : ref) (tree : option BSPNode) h :
  parrs h !! input = Some [] ->
  BSPNode_Partition fuel (Some input) tree h = (Ok (None, tree), h).
Proof.
  intros Hin. by rewrite BSPNode_Partition_unfold, (bind_Ok _ _ _ _ _ (read_array_Some _ _ _ Hin)).
Qed.

Lemma read_geometry_same h a (g : Geometry) h' :
  read_geometry a h = (Ok g, h') -> h' = h.
Proof. unfold read_geometry. destruct (geoms h !! a); by intros [= _ ->]. Qed.

End Failures.

(** The rest of an operator, once one of the two trees is [undefined]. *)
Ltac fails_to_the_end :=
  repeat (apply fails_bind; let H := fresh in intros ? ? H; try (cbn in H; discriminate H); clear H).

(** The start of an operator whose second geometry has no polygons. *)
Ltac second_is_empty h geo2 g Hgeo Hps :=
  apply fails_bind; intros ? ? ?%read_geometry_same; subst;
  apply fails_bind;
  let r1 := fresh "r1" in let h1 := fresh "h1" in let Hrun := fresh "Hrun" in
  intros r1 h1 Hrun;
  match type of Hrun with
  | BSPNode_Partition ?fuel ?input None _ = _ =>
      let Hk := fresh "Hk" in
      pose proof (safe_BSPNode_Partition (length (parrs h)) fuel input None I h (le_n _))
        as [Hk _];
      rewrite Hrun in Hk; destruct Hk as [(_ & _ & Hk & _) Harr];
      apply (fails_bind_Ok _ _ _ _ _
               (read_geometry_Some _ _ _ (prefix_lookup_Some _ _ _ _ Hgeo Hk)));
      apply (fails_bind_Ok _ _ _ _ _ (Partition_of_an_empty_list fuel _ None h1
               (eq_trans (Harr _ (lookup_lt_Some _ _ _ Hps)) Hps)))
  end;
  fails_to_the_end.

(** X17: when one of the two geometries has no polygons, none of [Union],
    [Intersect] and [Subtract] returns a geometry: [Partition] returns
    [undefined] for the empty list, and the operator throws, at the latest
    when it calls a method of the tree it did not get. *)
Theorem operators_on_an_empty_geometry {Color : Type}
    (fuel : nat) (geo1 geo2 : ref) (g : Geometry) (h : Heap Color) :
  geoms h !! geo1 = Some g \/ geoms h !! geo2 = Some g ->
  parrs h !! Geometry_polygons g = Some [] ->
  fails (BSPNode_Union fuel geo1 geo2) h
  /\ fails (BSPNode_Intersect fuel geo1 geo2) h
  /\ fails (BSPNode_Subtract fuel geo1 geo2) h.
Proof.
  intros [Hgeo|Hgeo] Hps.
  - split; [|split];
      unfold BSPNode_Union, BSPNode_Intersect, BSPNode_Subtract;
      apply (fails_bind_Ok _ _ _ _ _ (read_geometry_Some _ _ _ Hgeo));
      apply (fails_bind_Ok _ _ _ _ _ (Partition_of_an_empty_list fuel _ None h Hps));
      fails_to_the_end.
  - split; [|split];
      unfold BSPNode_Union, BSPNode_Intersect, BSPNode_Subtract;
      second_is_empty h geo2 g Hgeo Hps.
Qed.

Lemma operators_on_an_empty_geometry_witness :
  fails (BSPNode_Union 3 0 1) two_geometries
  /\ fails (BSPNode_Intersect 3 0 1) two_geometries
  /\ fails (BSPNode_Subtract 3 0 1) two_geometries.
Proof.
  apply (operators_on_an_empty_geometry 3 0 1 (mkGeometry 1) two_geometries);
    [right; reflexivity|reflexivity].
Defined.

(** ** [Partition] into a tree that is there *)

Section PartitionInto.
Context {Color : Type}.
Implicit Types (h : Heap Color) (a : ref) (n : nat) (t : BSPNode).

Lemma appended_refl h : appended h h.
Proof.
  split; [done|]. intros a old Ha. exists []. by rewrite app_nil_r.
Qed.

Lemma appended_trans h1 h2 h3 : appended h1 h2 -> appended h2 h3 -> appended h1 h3.
Proof.
  intros [Hg1 H1] [Hg2 H2]. split; [by etrans|]. intros a old Ha.
  destruct (H1 a old Ha) as (new1 & Ha1 & Hw1).
  destruct (H2 a _ Ha1) as (new2 & Ha2 & Hw2).
  exists (new1 ++ new2). rewrite app_assoc. split; [done|].
  apply Forall_app. split; [|done].
  eapply Forall_impl; [exact Hw1|]. intros p. by apply grows_well_formed.
Qed.

Lemma kept_appended h h' : kept (length (parrs h)) h h' -> appended h h'.
Proof.
  intros [Hg Hk]. split; [done|]. intros a old Ha. exists [].
  rewrite app_nil_r, Hk; [done|by eapply lookup_lt_Some].
Qed.

Lemma appended_contents h h' a cs :
  appended h h' -> parrs h !! a = Some cs -> Forall (well_formed h) cs ->
  exists cs', parrs h' !! a = Some cs' /\ Forall (well_formed h') cs'
              /\ (cs <> [] -> cs' <> []).
Proof.
  intros [Hg Happ] Ha Hwf. destruct (Happ a cs Ha) as (new & Ha' & Hnew).
  exists (cs ++ new). split; [done|]. split.
  - apply Forall_app. split; [|done].
    eapply Forall_impl; [exact Hwf|]. intros p. by apply grows_well_formed.
  - by destruct cs.
Qed.

Lemma tree_holds_appended h h' t : appended h h' -> tree_holds h t -> tree_holds h' t.
Proof.
  intros Happ. induction t as [hp a f b IHf IHb] using BSPNode_tree_ind.
  cbn [tree_holds polygons front behind]. intros ((cs & Hcs & Hwf) & Hf & Hb).
  split; [|split; [destruct f|destruct b]; auto].
  destruct (appended_contents h h' a cs Happ Hcs Hwf) as (cs' & Hcs' & Hwf' & _).
  by exists cs'.
Qed.

Lemma has_planes_below t : has_planes t -> planes_below t.
Proof. destruct t as [hp a f b]. by intros (_ & Hf & Hb). Qed.

Lemma received_pushes (P : ref -> Prop) (f s b r x : ref) (os : list Buckets) :
  Forall P (flat_map pushes os) -> Forall P (flat_map (received f s b r x) os).
Proof.
  induction os as [|o os IH]; [done|]. cbn [flat_map]. unfold pushes at 1, received at 1.
  rewrite !Forall_app. intros [(H1 & H2 & H3 & H4) Hrest].
  split; [|by apply IH].
  repeat split; by destruct (decide _).
Qed.

(** The loop of [Partition] and of [trim]: the arrays only grow, and by
    well-formed polygons. *)
Lemma forEach_bisect_appended (this : Plane) (f s b r : ref) (ps : list ref) h :
  Forall (well_formed h) ps ->
  is_Some (parrs h !! f) -> is_Some (parrs h !! s) ->
  is_Some (parrs h !! b) -> is_Some (parrs h !! r) ->
  exists h',
    forEach ps (fun poly => Plane_bisect this poly f s b r) h = (Ok tt, h')
    /\ appended h h'.
Proof.
  intros Hwf Hf Hs Hb Hr.
  destruct (forEach_bisect this f s b r ps h) as (h' & os & Hrun & Hg & _ & _ & Hcl & Harr);
    try done.
  { eapply Forall_impl; [exact Hwf|]. apply well_formed_stored. }
  exists h'. split; [done|]. split; [done|]. intros a old Ha.
  exists (flat_map (received f s b r a) os). rewrite Harr, Ha. split; [done|].
  apply received_pushes.
  assert (Hs' : Forall (survivor h ps h') (flat_map pushes os)).
  { eapply classified_all_survivors; [done|done|].
    apply Forall_forall. intros p Hp. split; [done|].
    rewrite Forall_forall in Hwf. by apply Hwf. }
  eapply Forall_impl; [exact Hs'|]. by intros p [? _].
Qed.

(** One side of [Partition], given the outcome of the calls one level down. *)
Lemma descend_into (fuel : nat) (bucket : ref) (xs : list ref) (child : option BSPNode) h :
  (forall fuel', fuel = S fuel' -> into_outcome (Color := Color) fuel') ->
  parrs h !! bucket = Some xs -> Forall (well_formed h) xs ->
  match child with Some c => tree_holds h c /\ has_planes c | None => True end ->
  match Partition_descend fuel bucket child h with
  | (Ok o, h') =>
      appended h h'
      /\ match o with Some t => tree_holds h' t /\ has_planes t | None => True end
  | (Err RangeError, _) => True
  | (Err _, _) => False
  end.
Proof.
  intros IH Hb Hxs Hchild. unfold Partition_descend.
  rewrite (bind_Ok _ _ _ _ _ (read_array_Some _ _ _ Hb)).
  destruct xs as [|x xs'].
  { cbn [length Nat.ltb Nat.leb]. unfold ret. split; [apply appended_refl|done]. }
  cbn [length Nat.ltb Nat.leb].
  assert (Hroot : exists c h1,
    (match child with Some f => ret f | None => new_BSPNode end) h = (Ok c, h1)
    /\ kept (length (parrs h)) h h1 /\ tree_holds h1 c /\ planes_below c).
  { destruct child as [c|].
    - exists c, h. split; [done|]. split; [apply kept_refl|].
      destruct Hchild as [Hh Hp]. split; [done|by apply has_planes_below].
    - eexists _, _. split; [reflexivity|]. split; [apply kept_snoc|].
      cbn [tree_holds planes_below polygons front behind parrs]. split; [|done].
      split; [|done]. exists []. split; [apply lookup_snoc|done]. }
  destruct Hroot as (c & h1 & Hc & Hk1 & Hholds & Hplanes).
  rewrite (bind_Ok _ _ _ _ _ Hc).
  destruct fuel as [|fuel']; [done|].
  pose proof Hk1 as [Hg1 Hsame1].
  specialize (IH fuel' eq_refl bucket (x :: xs') (Some c) h1).
  unfold bind.
  destruct (BSPNode_Partition fuel' (Some bucket) (Some c) h1) as [[[[t|] tree']|e] h'].
  - destruct IH as (-> & Hh' & Hp' & Happ).
    + rewrite Hsame1; [done|by eapply lookup_lt_Some].
    + done.
    + eapply Forall_impl; [exact Hxs|]. intros p. by apply grows_well_formed.
    + done.
    + cbn [snd]. unfold ret. split; [|done].
      eapply appended_trans; [by apply kept_appended|done].
  - exfalso. apply IH; try done.
    + rewrite Hsame1; [done|by eapply lookup_lt_Some].
    + eapply Forall_impl; [exact Hxs|]. intros p. by apply grows_well_formed.
  - destruct e; try done; exfalso; apply IH; try done.
    all: try (rewrite Hsame1; [done|by eapply lookup_lt_Some]).
    all: eapply Forall_impl; [exact Hxs|]; intros p; by apply grows_well_formed.
Qed.

(** The outcome of [Partition] into a tree, at every budget. *)
Lemma Partition_into (fuel : nat) : into_outcome (Color := Color) fuel.
Proof.
  induction fuel as [fuel IH] using lt_wf_ind.
  intros input ps tree h Hin Hne Hwf Htree.
  assert (IH' : forall fuel', fuel = S fuel' -> into_outcome (Color := Color) fuel').
  { intros fuel' ->. apply IH. lia. }
  destruct ps as [|first rest]; [done|].
  rewrite BSPNode_Partition_unfold.
  rewrite (bind_Ok _ _ _ _ _ (read_array_Some _ _ _ Hin)).
  assert (Hroot : exists root h0,
    (match tree with Some t => ret t | None => new_BSPNode end) h = (Ok root, h0)
    /\ kept (length (parrs h)) h h0 /\ tree_holds h0 root /\ planes_below root).
  { destruct tree as [t|].
    - exists t, h. split; [done|]. split; [apply kept_refl|done].
    - eexists _, _. split; [reflexivity|]. split; [apply kept_snoc|].
      cbn [tree_holds planes_below polygons front behind parrs]. split; [|done].
      split; [|done]. exists []. split; [apply lookup_snoc|done]. }
  destruct Hroot as (root & h0 & Hroot & Hk0 & Hholds0 & Hplanes0).
  rewrite (bind_Ok _ _ _ _ _ Hroot).
  pose proof Hk0 as [Hg0 _].
  assert (Hwf0 : Forall (well_formed h0) (first :: rest)).
  { eapply Forall_impl; [exact Hwf|]. intros p. by apply grows_well_formed. }
  pose proof (Forall_inv Hwf0) as (q & vs0 & Hq & _).
  rewrite (bind_Ok _ _ _ _ _ (read_polygon_Some _ _ _ Hq)).
  unfold bind at 1, alloc_array at 1. unfold bind at 1, alloc_array at 1.
  cbn [varrs polys parrs geoms].
  set (hp := Plane_clone (plane q)). set (left := length (parrs h0)).
  replace (length (parrs h0 ++ [[]])) with (S left) by (rewrite length_app; simpl; lia).
  set (h1 := mkHeap (varrs h0) (polys h0) ((parrs h0 ++ [[]]) ++ [[]]) (geoms h0)).
  assert (Hk1 : kept left h0 h1).
  { eapply kept_trans; [apply kept_snoc|].
    eapply kept_weaken; [|apply (kept_snoc (mkHeap (varrs h0) (polys h0) (parrs h0 ++ [[]])
                                           (geoms h0)) [])].
    cbn [parrs]. rewrite length_app. simpl. lia. }
  assert (Hleft1 : parrs h1 !! left = Some []).
  { unfold h1; cbn [parrs]. rewrite lookup_app_l by (rewrite length_app; simpl; lia).
    apply lookup_snoc. }
  assert (Hright1 : parrs h1 !! S left = Some []).
  { unfold h1; cbn [parrs].
    replace (S left) with (length (parrs h0 ++ [[]])) by (rewrite length_app; simpl; lia).
    apply lookup_snoc. }
  pose proof (kept_appended h0 h1 Hk1) as Happ1.
  pose proof (tree_holds_appended h0 h1 root Happ1 Hholds0) as Hholds1.
  assert (Harr1 : is_Some (parrs h1 !! polygons root)).
  { destruct root as [hp0 a0 f0 b0]. destruct Hholds1 as ((cs & Hcs & _) & _). by eexists. }
  destruct (forEach_bisect_appended hp left (polygons root) (S left) (polygons root)
              (first :: rest) h1)
    as (h2 & Hrun & Happ2); try done; try (by eexists).
  rewrite (bind_Ok _ _ _ _ _ Hrun).
  pose proof (tree_holds_appended h1 h2 root Happ2 Hholds1) as Hholds2.
  destruct (appended_contents h1 h2 left [] Happ2 Hleft1 (Forall_nil_2 _))
    as (ls & Hls & Hwls & _).
  destruct (appended_contents h1 h2 (S left) [] Happ2 Hright1 (Forall_nil_2 _))
    as (rs & Hrs & Hwrs & _).
  assert (Hf2 : match front root with Some c => tree_holds h2 c /\ has_planes c
                | None => True end).
  { destruct root as [hp0 a0 [f0|] b0]; [|done].
    destruct Hholds2 as (_ & Hf & _), Hplanes0 as [Hpf _]. by split. }
  pose proof (descend_into fuel left ls (front root) h2 IH' Hls Hwls Hf2) as Hd1.
  unfold bind at 1.
  destruct (Partition_descend fuel left (front root) h2) as [[front'|e] h3]; [|by destruct e].
  destruct Hd1 as [Happ3 Hfront'].
  destruct (appended_contents h2 h3 (S left) rs Happ3 Hrs Hwrs) as (rs' & Hrs' & Hwrs' & _).
  assert (Hb3 : match behind root with Some c => tree_holds h3 c /\ has_planes c
                | None => True end).
  { destruct root as [hp0 a0 f0 [b0|]]; [|done].
    destruct Hholds2 as (_ & _ & Hb), Hplanes0 as [_ Hpb].
    split; [by eapply tree_holds_appended|done]. }
  pose proof (descend_into fuel (S left) rs' (behind root) h3 IH' Hrs' Hwrs' Hb3) as Hd2.
  unfold bind at 1.
  destruct (Partition_descend fuel (S left) (behind root) h3) as [[behind'|e] h4];
    [|by destruct e].
  destruct Hd2 as [Happ4 Hbehind'].
  unfold ret. split; [done|].
  assert (Happ04 : appended h0 h4).
  { eapply appended_trans; [exact Happ1|]. eapply appended_trans; [exact Happ2|].
    by eapply appended_trans. }
  split; [|split].
  - cbn [tree_holds polygons front behind]. split; [|split].
    + destruct root as [hp0 a0 f0 b0]. destruct Hholds0 as ((cs & Hcs & Hwcs) & _).
      destruct (appended_contents h0 h4 a0 cs Happ04 Hcs Hwcs) as (cs' & Hcs' & Hwcs' & _).
      by exists cs'.
    + destruct front' as [t|]; [|done]. destruct Hfront' as [Hh _].
      exact (tree_holds_appended h3 h4 t Happ4 Hh).
    + destruct behind' as [t|]; [|done]. by destruct Hbehind'.
  - cbn [has_planes hyperPlane front behind]. split; [by eexists|]. split.
    + destruct front' as [t|]; [|done]. by destruct Hfront'.
    + destruct behind' as [t|]; [|done]. by destruct Hbehind'.
  - eapply appended_trans; [by apply kept_appended|done].
Qed.

End PartitionInto.

(** ** The operators on geometries with polygons *)

Section Outcomes.
Context {Color : Type}.
Implicit Types (h : Heap Color) (a : ref) (n : nat) (t : BSPNode).

Lemma outcome_bind {A B} (m : M Color A) (k : A -> M Color B) h
    (Q : A -> Heap Color -> Prop) (R : B -> Heap Color -> Prop) :
  outcome m h Q -> (forall x h', Q x h' -> outcome (k x) h' R) -> outcome (bind m k) h R.
Proof.
  unfold outcome, bind. intros Hm Hk.
  destruct (m h) as [[x|e] h']; [by apply Hk|done].
Qed.

Lemma outcome_Ok {A} (m : M Color A) h x h' (Q : A -> Heap Color -> Prop) :
  m h = (Ok x, h') -> Q x h' -> outcome m h Q.
Proof. unfold outcome. by intros ->. Qed.

Lemma trimmed_holds h h' t : forall t', trimmed h t h' t' -> tree_holds h' t'.
Proof.
  induction t as [hp a f b IHf IHb] using BSPNode_tree_ind. intros [hp' a' f' b'].
  cbn [trimmed tree_holds hyperPlane polygons front behind] in *.
  intros (_ & (cs & cs' & _ & Hcs' & Hs) & Hf & Hb). split; [|split].
  - exists cs'. split; [done|]. eapply Forall_impl; [exact Hs|]. by intros p [? _].
  - destruct f as [f0|], f' as [f0'|]; try done. by eapply IHf.
  - destruct b as [b0|], b' as [b0'|]; try done. by eapply IHb.
Qed.

Lemma trimmed_planes h h' t : forall t', trimmed h t h' t' -> has_planes t -> has_planes t'.
Proof.
  induction t as [hp a f b IHf IHb] using BSPNode_tree_ind. intros [hp' a' f' b'].
  cbn [trimmed has_planes hyperPlane polygons front behind] in *.
  intros (-> & _ & Hf & Hb) (Hp & Hpf & Hpb). split; [done|]. split.
  - destruct f as [f0|], f' as [f0'|]; try done. by eapply IHf.
  - destruct b as [b0|], b' as [b0'|]; try done. by eapply IHb.
Qed.

Lemma tree_holds_polygons h t : tree_holds h t -> Forall (well_formed h) (tree_polygons h t).
Proof.
  induction t as [hp a f b IHf IHb] using BSPNode_tree_ind.
  cbn [tree_holds tree_polygons polygons front behind].
  intros ((cs & -> & Hwf) & Hf & Hb). cbn [default].
  apply Forall_app. split; [done|].
  apply Forall_app. split; [destruct f|destruct b]; auto.
Qed.

(** *** What each step of an operator gives the next *)

Lemma step_Partition (fuel : nat) (input : ref) (ps : list ref) h :
  parrs h !! input = Some ps -> ps <> [] -> Forall (well_formed h) ps ->
  outcome (BSPNode_Partition fuel (Some input) None) h
    (fun r h' => exists t, r.1 = Some t /\ tree_holds h' t /\ has_planes t /\ appended h h').
Proof.
  intros Hin Hne Hwf. unfold outcome.
  pose proof (Partition_into fuel input ps None h Hin Hne Hwf I) as H.
  destruct (BSPNode_Partition fuel (Some input) None h) as [[[[t|] tree']|e] h']; try done.
  destruct H as (_ & Hh & Hp & Happ). by exists t.
Qed.

Lemma step_Partition_into (fuel : nat) (input : ref) (ps : list ref) t h :
  parrs h !! input = Some ps -> Forall (well_formed h) ps ->
  tree_holds h t -> has_planes t ->
  outcome (BSPNode_Partition fuel (Some input) (Some t)) h
    (fun r h' => exists t', r.2 = Some t' /\ tree_holds h' t' /\ has_planes t' /\ appended h h').
Proof.
  intros Hin Hwf Hholds Hplanes. destruct ps as [|p ps].
  { eapply outcome_Ok; [by apply Partition_of_an_empty_list|].
    exists t. split; [done|]. split; [done|]. split; [done|apply appended_refl]. }
  unfold outcome.
  pose proof (Partition_into fuel input (p :: ps) (Some t) h Hin ltac:(done) Hwf
                (conj Hholds (has_planes_below t Hplanes))) as H.
  destruct (BSPNode_Partition fuel (Some input) (Some t) h) as [[[[t'|] tree']|e] h'];
    try done.
  destruct H as (-> & Hh & Hp & Happ). by exists t'.
Qed.

Lemma step_treeTrimSelf (this tree : BSPNode) h :
  tree_holds h this ->
  outcome (BSPNode_treeTrimSelf this tree) h
    (fun t' h' => tree_holds h' t' /\ (has_planes this -> has_planes t') /\ appended h h').
Proof.
  intros Hholds.
  destruct (treeTrimSelf_trimmed tree this h Hholds) as (t' & h' & Hrun & Htr).
  pose proof (safe_BSPNode_treeTrimSelf (length (parrs h)) this tree h (le_n _)) as [Hk _].
  rewrite Hrun in Hk. eapply outcome_Ok; [exact Hrun|].
  split; [by eapply trimmed_holds|]. split; [by eapply trimmed_planes|by apply kept_appended].
Qed.

Lemma step_flip (fuel : nat) (this : BSPNode) h :
  tree_holds h this -> has_planes this ->
  outcome (BSPNode_flip fuel this) h
    (fun t' h' => tree_holds h' t' /\ has_planes t' /\ appended h h').
Proof.
  intros Hholds Hplanes. unfold outcome.
  pose proof (BSPNode_flip_outcome fuel this h Hplanes Hholds) as H.
  pose proof (safe_BSPNode_flip (length (parrs h)) fuel this h (le_n _)) as [Hk _].
  destruct (BSPNode_flip fuel this h) as [[t'|e] h']; [|by destruct e].
  split; [by eapply tree_image_holds|].
  split; [by eapply tree_image_planes|by apply kept_appended].
Qed.

Lemma step_concatPolys (this : BSPNode) h :
  tree_holds h this ->
  outcome (BSPNode_concatPolys this) h
    (fun a h' => exists out, parrs h' !! a = Some out /\ Forall (well_formed h') out
                             /\ appended h h').
Proof.
  intros Hholds.
  destruct (collects_concatPolys this h (tree_holds_below h this Hholds))
    as (r & h' & Hrun & Hr & Hk & _).
  eapply outcome_Ok; [exact Hrun|]. exists (tree_polygons h this). split; [done|].
  split; [|by apply kept_appended].
  eapply Forall_impl; [by apply tree_holds_polygons|]. intros p.
  apply grows_well_formed. by destruct Hk.
Qed.

Lemma step_toGeometry (this : BSPNode) h :
  tree_holds h this -> outcome (BSPNode_toGeometry this) h solid.
Proof.
  intros Hholds. unfold BSPNode_toGeometry.
  eapply outcome_bind; [by apply step_concatPolys|].
  intros a h' (out & Ha & Hwf & _). eapply outcome_Ok; [reflexivity|].
  exists a, out. cbn [geoms parrs]. split; [apply lookup_snoc|]. split; [done|].
  eapply Forall_impl; [exact Hwf|]. intros p. apply grows_well_formed.
  repeat split; cbn [varrs polys geoms parrs]; try done. by apply prefix_app_r.
Qed.

Lemma step_read_geometry (geo : ref) (g : Geometry) (ps : list ref) h0 h :
  geoms h0 !! geo = Some g -> parrs h0 !! Geometry_polygons g = Some ps ->
  ps <> [] -> Forall (well_formed h0) ps -> appended h0 h ->
  outcome (read_geometry geo) h
    (fun g' h' => h' = h /\ exists ps', parrs h !! Geometry_polygons g' = Some ps'
                                       /\ ps' <> [] /\ Forall (well_formed h) ps').
Proof.
  intros Hgeo Hps Hne Hwf Happ.
  destruct (appended_contents h0 h _ ps Happ Hps Hwf) as (ps' & Hps' & Hwf' & Hne').
  destruct Happ as [(_ & _ & Hg & _) _].
  eapply outcome_Ok; [apply read_geometry_Some; by eapply prefix_lookup_Some|].
  split; [done|]. exists ps'. by repeat split; auto.
Qed.

End Outcomes.

Lemma outcome_ret_bind {Color A B : Type} (x : A) (k : A -> M Color B) (h : Heap Color)
    (R : B -> Heap Color -> Prop) :
  outcome (k x) h R -> outcome (bind (ret x) k) h R.
Proof. done. Qed.

(** Every tree that held in an earlier store holds in the latest one. *)
Ltac settle :=
  repeat match goal with
  | H : tree_holds ?h ?t, Ha : appended ?h ?h' |- _ =>
      apply (tree_holds_appended h h' t Ha) in H
  end;
  repeat match goal with
  | H : has_planes ?t -> has_planes _, H' : has_planes ?t |- _ => specialize (H H')
  end.

Ltac step_with lem :=
  eapply outcome_bind; [eapply lem; eassumption|].

(** The two calls of [Partition] every operator starts with. *)
Ltac two_trees fuel geo1 geo2 g1 g2 ps1 ps2 h :=
  eapply outcome_bind;
    [eapply (step_read_geometry geo1 g1 ps1 h h); try eassumption; apply appended_refl|];
  intros ? ? (-> & ? & ? & ? & ?);
  step_with @step_Partition;
  let r1 := fresh "r1" in let Hr1 := fresh "Hr1" in
  intros r1 ? (? & Hr1 & ? & ? & ?);
  eapply outcome_bind;
    [eapply (step_read_geometry geo2 g2 ps2 h); eassumption|];
  intros ? ? (-> & ? & ? & ? & ?);
  step_with @step_Partition;
  let r2 := fresh "r2" in let Hr2 := fresh "Hr2" in
  intros r2 ? (? & Hr2 & ? & ? & ?);
  rewrite Hr1, Hr2; cbn [defined]; settle.

Ltac trimmed_step := step_with @step_treeTrimSelf; intros ? ? (? & ? & ?); settle.
Ltac flipped_step := step_with @step_flip; intros ? ? (? & ? & ?); settle.
Ltac merged_step :=
  step_with @step_concatPolys; intros ? ? (? & ? & ? & ?); settle;
  step_with @step_Partition_into;
  let Hr := fresh "Hr" in
  intros ? ? (? & Hr & ? & ? & ?); rewrite Hr; cbn [defined]; settle;
  apply outcome_ret_bind.

(** X19: on two geometries with polygons, each polygon with at least three
    vertices, [Union], [Intersect] and [Subtract] return a geometry whose
    polygons have at least three vertices each, or exhaust the stack; they
    throw nothing else: no tree is [undefined], no node that is flipped
    lacks its hyperplane, and no polygon with fewer than three vertices is
    made on the way. *)
Theorem operators_return_solids {Color : Type}
    (fuel : nat) (geo1 geo2 : ref) (g1 g2 : Geometry) (ps1 ps2 : list ref) (h : Heap Color) :
  geoms h !! geo1 = Some g1 -> parrs h !! Geometry_polygons g1 = Some ps1 ->
  ps1 <> [] -> Forall (well_formed h) ps1 ->
  geoms h !! geo2 = Some g2 -> parrs h !! Geometry_polygons g2 = Some ps2 ->
  ps2 <> [] -> Forall (well_formed h) ps2 ->
  outcome (BSPNode_Union fuel geo1 geo2) h solid
  /\ outcome (BSPNode_Intersect fuel geo1 geo2) h solid
  /\ outcome (BSPNode_Subtract fuel geo1 geo2) h solid.
Proof.
  intros Hg1 Hps1 Hne1 Hwf1 Hg2 Hps2 Hne2 Hwf2. split; [|split].
  - unfold BSPNode_Union. two_trees fuel geo1 geo2 g1 g2 ps1 ps2 h.
    do 2 apply outcome_ret_bind.
    trimmed_step. trimmed_step. flipped_step. trimmed_step. flipped_step.
    merged_step. by apply step_toGeometry.
  - unfold BSPNode_Intersect. two_trees fuel geo1 geo2 g1 g2 ps1 ps2 h.
    apply outcome_ret_bind. flipped_step. apply outcome_ret_bind.
    trimmed_step. flipped_step. trimmed_step. trimmed_step.
    merged_step. flipped_step. by apply step_toGeometry.
  - unfold BSPNode_Subtract. two_trees fuel geo1 geo2 g1 g2 ps1 ps2 h.
    apply outcome_ret_bind. flipped_step. apply outcome_ret_bind.
    trimmed_step. trimmed_step. flipped_step. trimmed_step. flipped_step.
    merged_step. flipped_step. by apply step_toGeometry.
Qed.

Lemma operators_return_solids_witness :
  (exists r h', BSPNode_Union 5 0 1 two_solids = (Ok r, h'))
  /\ outcome (BSPNode_Union 5 0 1) two_solids solid
  /\ outcome (BSPNode_Intersect 5 0 1) two_solids solid
  /\ outcome (BSPNode_Subtract 5 0 1) two_solids solid.
Proof.
  split; [eexists _, _; vm_compute; reflexivity|].
  apply (operators_return_solids 5 0 1 (mkGeometry 0) (mkGeometry 1) [0] [1] two_solids);
    [reflexivity|reflexivity|discriminate|fixture_well_formed
    |reflexivity|reflexivity|discriminate|fixture_well_formed].
Defined.

(** X18: [Partition] of a non-empty list of well-formed polygons into a
    tree that is there.  When the polygons of the tree have at least three
    vertices and its nodes have hyperplanes, the call returns the root it
    was given, updated, or exhausts the stack, and fails in no other way.
    It only appends: every polygon array of the store, those of the tree
    among them, keeps what it held, in order, and receives only polygons
    with at least three vertices; and every node of the tree it leaves has
    a hyperplane. *)
Theorem Partition_into_a_tree_appends {Color : Type}
    (fuel : nat) (input : ref) (ps : list ref) (t : BSPNode) (h : Heap Color) :
  parrs h !! input = Some ps -> ps <> [] -> Forall (well_formed h) ps ->
  tree_holds h t -> has_planes t ->
  match BSPNode_Partition fuel (Some input) (Some t) h with
  | (Ok (Some t', tree'), h') =>
      tree' = Some t' /\ polygons t' = polygons t
      /\ tree_holds h' t' /\ has_planes t' /\ appended h h'
  | (Ok (None, _), _) => False
  | (Err RangeError, _) => True
  | (Err _, _) => False
  end.
Proof.
  intros Hin Hne Hwf Hholds Hplanes.
  pose proof (Partition_into fuel input ps (Some t) h Hin Hne Hwf
                (conj Hholds (has_planes_below t Hplanes))) as H.
  destruct (BSPNode_Partition fuel (Some input) (Some t) h) as [[[[t'|] tree']|e] h'] eqn:Hrun;
    try done.
  destruct H as (-> & Hh & Hp & Happ). split; [done|]. split; [|done].
  rewrite BSPNode_Partition_unfold in Hrun.
  rewrite (bind_Ok _ _ _ _ _ (read_array_Some _ _ _ Hin)) in Hrun.
  destruct ps as [|first rest]; [done|].
  pose proof (Forall_inv Hwf) as (q & vs0 & Hq & _).
  rewrite (bind_Ok _ _ _ t h eq_refl) in Hrun.
  rewrite (bind_Ok _ _ _ _ _ (read_polygon_Some _ _ _ Hq)) in Hrun.
  unfold bind at 1, alloc_array at 1 in Hrun.
  unfold bind at 1, alloc_array at 1 in Hrun.
  unfold bind at 1 in Hrun.
  destruct (forEach _ _ _) as [[[]|e] h1]; [|discriminate].
  unfold bind at 1 in Hrun.
  destruct (Partition_descend _ _ _ _) as [[front'|e] h2]; [|discriminate].
  unfold bind at 1 in Hrun.
  destruct (Partition_descend _ _ _ _) as [[behind'|e] h3]; [|discriminate].
  unfold ret in Hrun. by injection Hrun as <- _.
Qed.

Lemma Partition_into_a_tree_appends_witness :
  (exists t' h',
      BSPNode_Partition 3 (Some 1) (Some (mkBSPNode (Some floor_plane) 0 None None)) two_arrays
      = (Ok (Some t', Some t'), h'))
  /\ match BSPNode_Partition 3 (Some 1) (Some (mkBSPNode (Some floor_plane) 0 None None))
             two_arrays with
     | (Ok (Some t', tree'), h') =>
         tree' = Some t' /\ polygons t' = 0
         /\ tree_holds h' t' /\ has_planes t' /\ appended two_arrays h'
     | (Ok (None, _), _) => False
     | (Err RangeError, _) => True
     | (Err _, _) => False
     end.
Proof.
  split; [eexists _, _; vm_compute; reflexivity|].
  apply (Partition_into_a_tree_appends 3 1 [1] (mkBSPNode (Some floor_plane) 0 None None)
           two_arrays); [reflexivity|discriminate|fixture_well_formed| |].
  - cbn [tree_holds polygons front behind]. repeat split.
    eexists; split; [vm_compute; reflexivity|fixture_well_formed].
  - cbn [has_planes hyperPlane front behind]. repeat split. by eexists.
Defined.

(** ** The cube *)

Section CubeLemmas.
Context {Color : Type}.
Implicit Types (h : Heap Color) (a : ref).

Lemma face_of_grows (c : Color) h h' vs p : grows h h' -> face_of c h vs p -> face_of c h' vs p.
Proof.
  intros (Hv & Hp & _) (q & Hq & Hvs & Hc & Hpl). exists q.
  repeat split; try done; by eapply prefix_lookup_Some.
Qed.

(** A loop that makes one polygon per vertex list. *)
Lemma mapM_faces {A} (face : A -> list Vector) (c : Color) (l : list A) :
  Forall (fun i => 3 <= length (face i)) l ->
  forall h, exists ps h',
    mapM (fun i => let* a := alloc_vertices (face i) in new_Polygon a c) l h = (Ok ps, h')
    /\ grows h h' /\ parrs h' = parrs h /\ geoms h' = geoms h
    /\ Forall2 (fun i p => face_of c h' (face i) p /\ length (polys h) <= p) l ps.
Proof.
  induction 1 as [|i l Hi _ IH]; intros h.
  - exists [], h. by repeat split.
  - set (h1 := mkHeap (varrs h ++ [face i])
                 (polys h ++ [mkPolygon (length (varrs h)) c (plane_of (face i))])
                 (parrs h) (geoms h)).
    assert (Hg1 : grows h h1).
    { repeat split; cbn [varrs polys geoms parrs]; try done; by apply prefix_app_r. }
    destruct (IH h1) as (ps & h' & Hrun & Hg & Hp & Hgeo & Hall).
    exists (length (polys h) :: ps), h'. cbn [mapM].
    erewrite bind_Ok; last first.
    { unfold bind at 1, alloc_vertices at 1.
      apply new_Polygon_Ok; [cbn [varrs]; apply lookup_snoc|done]. }
    cbn [varrs polys parrs geoms]. fold h1. rewrite (bind_Ok _ _ _ _ _ Hrun).
    split; [done|]. split; [by etrans|]. split; [done|]. split; [done|].
    constructor.
    + split; [|lia]. apply (face_of_grows c h1 h' _ _ Hg).
      eexists. unfold h1; cbn [polys varrs]. split; [apply lookup_snoc|].
      cbn [vertices color plane]. split; [apply lookup_snoc|done].
    + eapply Forall2_impl; [exact Hall|]. intros j p [Hf Hle]. split; [done|].
      unfold h1 in Hle; cbn [polys] in Hle. rewrite length_app in Hle. lia.
Qed.

End CubeLemmas.

(** X20: [Cube] makes the cube of side 2 centered at the origin, as a
    closed convex solid.  It returns a new geometry over a new array of six
    new polygons with the given color, each with the plane of its first
    three vertices.  The vertex lists of the six polygons, in the order of
    the array, are the six sides of the cube: four vertices each, every
    vertex one of the eight corners and every corner in exactly three
    faces; every directed edge of a face is met by exactly one edge in the
    opposite direction, of another face, so the surface is closed; the
    vertices of each face lie on its plane, no corner is in front of it and
    some corner is strictly behind it, so each face is turned outward.
    Every object of the store of the caller is as it was. *)
Theorem Cube_is_closed_and_convex {Color : Type} (c : Color) (h : Heap Color) :
  exists g a ps (faces : list (list Vector)) h',
    Cube c h = (Ok g, h')
    /\ geoms h' !! g = Some (mkGeometry a) /\ length (geoms h) <= g
    /\ parrs h' !! a = Some ps /\ length (parrs h) <= a
    /\ Forall2 (fun vs p => face_of c h' vs p /\ length (polys h) <= p) faces ps
    /\ unit_cube faces = true
    /\ extends h h'.
Proof.
  destruct (mapM_faces Cube_face c Cube_indices) with (h := h)
    as (ps & h1 & Hrun & Hg & Hp & Hgeo & Hall).
  { repeat constructor. }
  unfold Cube. rewrite (bind_Ok _ _ _ _ _ Hrun). unfold bind, alloc_array, alloc_geometry.
  cbn [varrs polys parrs geoms].
  eexists _, _, ps, (Cube_face <$> Cube_indices), _. split; [reflexivity|].
  cbn [varrs polys parrs geoms].
  pose proof Hg as (Hv & Hpo & _).
  split; [apply lookup_snoc|]. split; [by rewrite Hgeo|].
  split; [apply lookup_snoc|]. split; [by rewrite Hp|]. split; [|split].
  - apply Forall2_fmap_l. eapply Forall2_impl; [exact Hall|]. intros i p [Hf Hle].
    split; [|done]. eapply face_of_grows; [|exact Hf].
    repeat split; cbn [varrs polys parrs geoms]; try done;
      [by apply prefix_app_r|rewrite length_app; lia].
  - vm_compute. reflexivity.
  - repeat split; cbn [varrs polys parrs geoms]; try done.
    + rewrite Hp. by apply prefix_app_r.
    + rewrite Hgeo. by apply prefix_app_r.
Qed.

(** ** What [trim] removes and what it keeps *)

Section TrimSides.
Context {Color : Type}.
Implicit Types (h : Heap Color) (a : ref) (n : nat) (t : BSPNode).

(** A polygon on one side of the plane is classified as one fragment on
    that side, with the vertices and the color of the polygon. *)
Lemma classified_one_side (hp : Plane) (side : Location.t) h p (o : Buckets) :
  side <> Location.plane ->
  classified hp h p o -> well_formed h p ->
  Forall (fun v => locate hp v = side) (vertices_of h p) ->
  exists p', same_polygon h p h p'
    /\ to_front o ++ to_samePlane o = (if bool_decide (side = Location.front) then [p'] else [])
    /\ to_behind o ++ to_reversePlane o
       = (if bool_decide (side = Location.front) then [] else [p']).
Proof.
  intros Hside (q & vs & Hq & Hvs & Hcl) (q' & vs' & Hq' & Hvs' & Hlen) Hall.
  simplify_eq. rewrite (vertices_of_stored h p q vs Hq Hvs) in Hall.
  destruct (isCoplanar (locations hp vs)) eqn:Hco.
  { apply isCoplanar_true in Hco. destruct vs as [|v vs']; [simpl in Hlen; lia|].
    apply Forall_cons in Hall as [Hv _]. apply Forall_cons in Hco as [Hv' _]. congruence. }
  destruct Hcl as (-> & -> & Hf & Hb).
  rewrite (walk_one_side hp side _ Hside (vertex_pairs_one_side hp side vs Hall)) in Hf, Hb.
  rewrite vertex_pairs_fst in Hf, Hb. cbn [fst snd] in Hf, Hb. unfold fragment in Hf, Hb.
  apply Nat.leb_le in Hlen.
  assert (Hc : color_of h p = Some (color q)) by (unfold color_of; by rewrite Hq).
  unfold same_polygon. rewrite (vertices_of_stored h p q vs Hq Hvs), !app_nil_r.
  destruct side; [| |done].
  - rewrite (bool_decide_eq_true_2 (Location.front = Location.front)) in * by done.
    rewrite (bool_decide_eq_false_2 (Location.front = Location.back)) in Hb by done.
    rewrite Hlen in Hf. change (3 <=? length (@nil Vector)) with false in Hb.
    destruct Hf as (a & -> & Ha). exists a. split; [by exists (color q)|done].
  - rewrite (bool_decide_eq_false_2 (Location.back = Location.front)) in * by done.
    rewrite (bool_decide_eq_true_2 (Location.back = Location.back)) in Hb by done.
    rewrite Hlen in Hb. change (3 <=? length (@nil Vector)) with false in Hf.
    destruct Hb as (a & -> & Ha). exists a. split; [by exists (color q)|done].
Qed.

Lemma classified_all_one_side (hp : Plane) (side : Location.t) h (ps : list ref)
    (os : list Buckets) :
  side <> Location.plane ->
  Forall2 (classified hp h) ps os ->
  Forall (fun p => well_formed h p
                   /\ Forall (fun v => locate hp v = side) (vertices_of h p)) ps ->
  exists ps', Forall2 (fun p p' => same_polygon h p h p') ps ps'
    /\ flat_map (fun o => to_front o ++ to_samePlane o) os
       = (if bool_decide (side = Location.front) then ps' else [])
    /\ flat_map (fun o => to_behind o ++ to_reversePlane o) os
       = (if bool_decide (side = Location.front) then [] else ps').
Proof.
  intros Hside. induction 1 as [|p o ps os Hcl _ IH]; intros Hall.
  - exists []. split; [constructor|]. by destruct (bool_decide _).
  - apply Forall_cons in Hall as [[Hwf Hp] Hall].
    destruct (IH Hall) as (ps' & Hsame & Hout & Hin).
    destruct (classified_one_side hp side h p o Hside Hcl Hwf Hp) as (p' & Hp' & Ho & Hi).
    exists (p' :: ps'). split; [by constructor|]. cbn [flat_map].
    rewrite Hout, Hin, Ho, Hi. by destruct (bool_decide _).
Qed.

Lemma same_polygon_facts h p h1 p' h2 :
  grows h h1 -> grows h1 h2 -> well_formed h p -> same_polygon h1 p h1 p' ->
  same_polygon h p h2 p' /\ well_formed h2 p' /\ vertices_of h2 p' = vertices_of h p.
Proof.
  intros Hg1 Hg2 Hwf (c & Hc & Hholds).
  pose proof (well_formed_stored h p Hwf) as Hst.
  rewrite (color_of_grows h h1 p Hg1 Hst) in Hc.
  rewrite (vertices_of_grows h h1 p Hg1 Hst) in Hholds.
  pose proof (grows_holds h1 h2 p' _ c Hg2 Hholds) as Hholds2.
  split; [by exists c|]. split.
  - destruct Hholds2 as (q' & Hq' & _ & Hvs'). exists q', (vertices_of h p).
    split; [done|]. split; [done|].
    destruct Hwf as (q & vs & Hq & Hvs & Hlen). by rewrite (vertices_of_stored h p q vs).
  - by eapply vertices_of_holds.
Qed.

Lemma same_polygons_keep (P : list Vector -> Prop) h h1 h2 (ps ps' : list ref) :
  grows h h1 -> grows h1 h2 ->
  Forall2 (fun p p' => same_polygon h1 p h1 p') ps ps' ->
  Forall (fun p => well_formed h p /\ P (vertices_of h p)) ps ->
  Forall (fun p' => well_formed h2 p' /\ P (vertices_of h2 p')) ps'.
Proof.
  intros Hg1 Hg2. induction 1 as [|p p' ps ps' Hp _ IH]; intros Hall; [done|].
  apply Forall_cons in Hall as [[Hwf HP] Hall].
  destruct (same_polygon_facts h p h1 p' h2 Hg1 Hg2 Hwf Hp) as (_ & Hwf' & Hvs').
  constructor; [|by apply IH]. split; [done|]. by rewrite Hvs'.
Qed.

(** [trim] returns nothing for polygons that are inside: this holds for
    the empty list whatever the tree. *)
Lemma trim_inside (this : BSPNode) :
  forall (input : ref) (ps : list ref) h,
    parrs h !! input = Some ps ->
    Forall (fun p => well_formed h p /\ strictly_inside this (vertices_of h p)) ps ->
    exists r h',
      BSPNode_trim this input h = (Ok r, h') /\ parrs h' !! r = Some [] /\ grows h h'.
Proof.
  induction this as [hp a f b IHf IHb] using BSPNode_tree_ind. intros input ps h Hin Hall.
  destruct hp as [hp|]; last first.
  { destruct ps as [|p ps].
    - cbn [BSPNode_trim hyperPlane].
      rewrite (bind_Ok _ _ _ _ _ (read_array_Some _ _ _ Hin)).
      eexists _, _. split; [reflexivity|]. cbn [parrs]. split; [apply lookup_snoc|].
      by destruct (kept_snoc h []).
    - apply Forall_cons in Hall as [[_ ((hp & Hhp & _) & _)] _]. done. }
  destruct (trim_buckets (mkBSPNode (Some hp) a f b) hp input ps h eq_refl Hin)
    as (h1 & os & Hrun & Hg1 & Hlen1 & Hcl & Hout & Hinside).
  { eapply Forall_impl; [exact Hall|]. intros p [Hwf _]. by apply well_formed_stored. }
  rewrite Hrun. unfold trim_survivors. cbn [front behind].
  destruct (classified_all_one_side hp Location.back h1 ps os ltac:(done) Hcl)
    as (ps' & Hsame & Hout' & Hin').
  { eapply Forall_impl; [exact Hall|]. intros p [Hwf ((hp' & [= <-] & Hback) & _)].
    split; [by eapply grows_well_formed|].
    by rewrite (vertices_of_grows h h1 p Hg1 (well_formed_stored _ _ Hwf)). }
  rewrite (bool_decide_eq_false_2 (Location.back = Location.front)) in Hout', Hin' by done.
  rewrite Hout' in Hout. rewrite Hin' in Hinside.
  (* the front child trims nothing *)
  assert (Hfront : exists r1 h2,
    (match f with Some f' => BSPNode_trim f' (S (length (parrs h))) | None => ret (S (length (parrs h))) end) h1
    = (Ok r1, h2)
    /\ parrs h2 !! r1 = Some [] /\ kept (length (parrs h1)) h1 h2).
  { destruct f as [f'|].
    - destruct (IHf (S (length (parrs h))) [] h1 Hout (Forall_nil_2 _))
        as (r1 & h2 & Hr1 & Ho1 & _).
      exists r1, h2. split; [done|]. split; [done|].
      pose proof (safe_BSPNode_trim (length (parrs h1)) f' (S (length (parrs h))) h1 (le_n _))
        as [Hk _]. by rewrite Hr1 in Hk.
    - eexists _, h1. split; [reflexivity|]. split; [exact Hout|apply kept_refl]. }
  destruct Hfront as (r1 & h2 & Hr1 & Ho1 & Hk2).
  rewrite (bind_Ok _ _ _ _ _ Hr1).
  assert (Hinside2 : parrs h2 !! length (parrs h) = Some ps').
  { destruct Hk2 as [_ Hk2]. rewrite Hk2 by lia. done. }
  (* the behind child removes what went behind, or the bucket is cleared *)
  assert (Hbehind : exists r2 h3,
    (match b with Some b' => BSPNode_trim b' (length (parrs h)) | None => alloc_array [] end) h2
    = (Ok r2, h3)
    /\ parrs h3 !! r2 = Some [] /\ kept (length (parrs h2)) h2 h3).
  { destruct b as [b'|].
    - destruct (IHb (length (parrs h)) ps' h2 Hinside2) as (r2 & h3 & Hr2 & Ho2 & _).
      { eapply (same_polygons_keep (strictly_inside b') h h1 h2 ps ps' Hg1 (proj1 Hk2) Hsame).
        eapply Forall_impl; [exact Hall|]. by intros p [Hwf (_ & Hb)]. }
      exists r2, h3. split; [done|]. split; [done|].
      pose proof (safe_BSPNode_trim (length (parrs h2)) b' (length (parrs h)) h2 (le_n _))
        as [Hk _]. by rewrite Hr2 in Hk.
    - eexists _, _. split; [reflexivity|]. cbn [parrs].
      split; [apply lookup_snoc|apply kept_snoc]. }
  destruct Hbehind as (r2 & h3 & Hr2 & Ho2 & Hk3).
  rewrite (bind_Ok _ _ _ _ _ Hr2).
  assert (Ho1' : parrs h3 !! r1 = Some []).
  { destruct Hk3 as [_ Hk3]. rewrite Hk3; [done|by eapply lookup_lt_Some]. }
  destruct (collects_concat h3 r1 r2 [] [] Ho1' Ho2) as (r3 & h4 & Hr3 & Ho3 & [Hg4 _] & _).
  exists r3, h4. split; [done|]. split; [done|].
  etrans; [exact Hg1|]. etrans; [exact (proj1 Hk2)|]. etrans; [exact (proj1 Hk3)|done].
Qed.

End TrimSides.

(** X21: [trim] removes what is inside.  When every given polygon has at
    least three vertices, all of them strictly behind the hyperplane of the
    node, of its behind child, and so on down the behind side of the tree,
    [trim] returns an empty array, whatever the front subtrees are. *)
Theorem trim_removes_what_is_inside {Color : Type}
    (this : BSPNode) (input : ref) (ps : list ref) (h : Heap Color) :
  parrs h !! input = Some ps ->
  Forall (fun p => well_formed h p /\ strictly_inside this (vertices_of h p)) ps ->
  exists r h',
    BSPNode_trim this input h = (Ok r, h')
    /\ length (parrs h) <= r /\ parrs h' !! r = Some [] /\ extends h h'.
Proof.
  intros Hin Hall.
  destruct (trim_inside this input ps h Hin Hall) as (r & h' & Hrun & Hr & _).
  exists r, h'. split; [done|].
  destruct (safe_BSPNode_trim (length (parrs h)) this input h (le_n _)) as [Hk Hfresh].
  rewrite Hrun in Hk, Hfresh. split; [by apply Hfresh|]. split; [done|by apply kept_extends].
Qed.

Lemma trim_removes_what_is_inside_witness :
  let this := mkBSPNode (Some (new_Plane (new_Vector 0 0 1) (-5))) 0 None
                (Some (mkBSPNode (Some (new_Plane (new_Vector 0 1 0) (-5))) 0 None None)) in
  exists r h',
    BSPNode_trim this 0 two_triangles = (Ok r, h')
    /\ 1 <= r /\ parrs h' !! r = Some [] /\ extends two_triangles h'.
Proof.
  apply (trim_removes_what_is_inside
           (mkBSPNode (Some (new_Plane (new_Vector 0 0 1) (-5))) 0 None
              (Some (mkBSPNode (Some (new_Plane (new_Vector 0 1 0) (-5))) 0 None None)))
           0 [0; 1] two_triangles); [reflexivity|].
  repeat constructor;
    try (eexists _, _;
         (split; [vm_compute; reflexivity|split; [vm_compute; reflexivity|vm_compute; lia]]));
    try (eexists; split; [reflexivity|repeat constructor; vm_compute; reflexivity]).
Defined.

Section InFront.
Context {Color : Type}.
Implicit Types (h : Heap Color) (a : ref) (n : nat) (t : BSPNode).

(** [bisect] on a polygon that is on one side of the plane. *)
Lemma Plane_bisect_one_side (this : Plane) (side : Location.t) (p f s b r : ref) h
    (q : Polygon Color) (vs : list Vector) :
  polys h !! p = Some q -> varrs h !! vertices q = Some vs -> 3 <= length vs ->
  side <> Location.plane -> Forall (fun v => locate this v = side) vs ->
  is_Some (parrs h !! f) -> is_Some (parrs h !! s) ->
  is_Some (parrs h !! b) -> is_Some (parrs h !! r) ->
  Plane_bisect this p f s b r h
  = (Ok tt, with_fragment (if bool_decide (side = Location.front) then f else b)
              vs (color q) h).
Proof.
  intros Hq Hvs Hlen Hside Hall Hf Hs Hb Hr.
  rewrite (Plane_bisect_Ok this h p q vs f s b r Hq Hvs Hf Hs Hb Hr). f_equal.
  unfold bisected.
  destruct (isCoplanar (locations this vs)) eqn:Hco.
  { apply isCoplanar_true in Hco. destruct vs as [|v vs']; [simpl in Hlen; lia|].
    apply Forall_cons in Hall as [Hv _]. apply Forall_cons in Hco as [Hv' _]. congruence. }
  rewrite split_walk, (walk_one_side this side _ Hside (vertex_pairs_one_side this side vs Hall)).
  rewrite vertex_pairs_fst. cbn [fst snd]. unfold emitted.
  apply Nat.leb_le in Hlen.
  destruct side; [| |done].
  - rewrite (bool_decide_eq_true_2 (Location.front = Location.front)) by done.
    rewrite (bool_decide_eq_false_2 (Location.front = Location.back)) by done.
    change (3 <=? length (@nil Vector)) with false. cbv iota. by rewrite Hlen.
  - rewrite (bool_decide_eq_true_2 (Location.back = Location.back)) by done.
    rewrite (bool_decide_eq_false_2 (Location.back = Location.front)) by done.
    change (3 <=? length (@nil Vector)) with false. cbv iota. by rewrite Hlen.
Qed.

(** The loop over polygons that are all on one side: the bucket of that
    side receives one new polygon for each, in order, and nothing else is
    pushed. *)
Lemma forEach_one_side (this : Plane) (side : Location.t) (f s b r : ref) (ps : list ref) :
  side <> Location.plane ->
  forall h,
    Forall (fun p => well_formed h p
                     /\ Forall (fun v => locate this v = side) (vertices_of h p)) ps ->
    is_Some (parrs h !! f) -> is_Some (parrs h !! s) ->
    is_Some (parrs h !! b) -> is_Some (parrs h !! r) ->
    exists ps' h',
      forEach ps (fun poly => Plane_bisect this poly f s b r) h = (Ok tt, h')
      /\ grows h h'
      /\ (forall x, parrs h' !! x
            = (fun old => old ++ (if decide ((if bool_decide (side = Location.front)
                                              then f else b) = x)
                                  then ps' else [])) <$> parrs h !! x)
      /\ Forall2 (fun p p' => image (fun vs => vs) plane_of h p h' p') ps ps'.
Proof.
  intros Hside. set (bucket := if bool_decide (side = Location.front) then f else b).
  induction ps as [|p ps IH]; intros h Hall Hf Hs Hb Hr.
  - exists [], h. split; [done|]. split; [done|]. split; [|constructor].
    intros x. destruct (parrs h !! x); cbn; [|done]. by destruct (decide _); rewrite app_nil_r.
  - apply Forall_cons in Hall as [[Hwf Hp] Hall].
    pose proof Hwf as (q & vs & Hq & Hvs & Hlen).
    rewrite (vertices_of_stored h p q vs Hq Hvs) in Hp.
    pose proof (Plane_bisect_one_side this side p f s b r h q vs Hq Hvs Hlen Hside Hp
                  Hf Hs Hb Hr) as Hrun.
    fold bucket in Hrun. unfold with_fragment, pushed in Hrun. cbn [varrs polys parrs geoms] in Hrun.
    set (h1 := mkHeap (varrs h ++ [vs])
                 (polys h ++ [mkPolygon (length (varrs h)) (color q) (plane_of vs)])
                 (alter (fun ps => ps ++ [length (polys h)]) bucket (parrs h)) (geoms h))
      in Hrun.
    assert (Hg1 : grows h h1).
    { repeat split; unfold h1; cbn [varrs polys geoms parrs]; try done;
        [by apply prefix_app_r|by apply prefix_app_r|by rewrite length_alter]. }
    assert (Harr1 : forall x, parrs h1 !! x
              = (fun old => old ++ (if decide (bucket = x) then [length (polys h)] else []))
                  <$> parrs h !! x).
    { intros x. unfold h1; cbn [parrs]. apply lookup_alter_app. }
    assert (Hsome : forall x, is_Some (parrs h !! x) -> is_Some (parrs h1 !! x)).
    { intros x [old Hx]. rewrite Harr1, Hx. by eexists. }
    destruct (IH h1) as (ps' & h' & Hrun' & Hg' & Harr' & Himg); try (by apply Hsome).
    { eapply Forall_impl; [exact Hall|]. intros p0 [Hwf0 Hp0].
      split; [by eapply grows_well_formed|].
      by rewrite (vertices_of_grows h h1 p0 Hg1 (well_formed_stored _ _ Hwf0)). }
    exists (length (polys h) :: ps'), h'. cbn [forEach].
    rewrite (bind_Ok _ _ _ _ _ Hrun). split; [done|]. split; [by etrans|]. split.
    + intros x. rewrite Harr', Harr1. destruct (parrs h !! x) as [old|]; cbn; [|done].
      f_equal. destruct (decide (bucket = x)); by rewrite <- ?app_assoc, ?app_nil_r.
    + constructor.
      * apply (image_target _ _ h p h1 h' _ Hg').
        exists q, (mkPolygon (length (varrs h)) (color q) (plane_of vs)), vs.
        unfold h1; cbn [varrs polys vertices color plane].
        repeat split; try done; apply lookup_snoc.
      * eapply Forall2_impl_Forall; [exact Himg|exact Hall|]. intros p0 p0' [Hwf0 _] Hi.
        apply (image_base _ _ h h1 p0 h' p0' Hg1); [by apply well_formed_stored|done].
Qed.

End InFront.

(** X22: [trim] keeps what is in front.  A node with a hyperplane and no
    front child, given polygons with at least three vertices each, all of
    them strictly in front of its hyperplane, returns a new array with one
    new polygon for each given polygon, in the same order: a polygon object
    that was not in the store before, with a vertex array of its own that
    holds the same vertices, and with the same color, whatever the behind
    subtree of the node is.  The given polygons and every other object of
    the store are as they were. *)
Theorem trim_keeps_what_is_in_front {Color : Type}
    (hp : Plane) (a : ref) (b : option BSPNode) (input : ref) (ps : list ref)
    (h : Heap Color) :
  parrs h !! input = Some ps ->
  Forall (fun p => well_formed h p
                   /\ Forall (fun v => locate hp v = Location.front) (vertices_of h p)) ps ->
  exists r ps' h',
    BSPNode_trim (mkBSPNode (Some hp) a None b) input h = (Ok r, h')
    /\ length (parrs h) <= r
    /\ parrs h' !! r = Some ps'
    /\ Forall2 (fun p p' => image (fun vs => vs) plane_of h p h' p') ps ps'
    /\ extends h h'.
Proof.
  intros Hin Hall.
  assert (Hmain : exists r ps' h',
    BSPNode_trim (mkBSPNode (Some hp) a None b) input h = (Ok r, h')
    /\ parrs h' !! r = Some ps'
    /\ Forall2 (fun p p' => image (fun vs => vs) plane_of h p h' p') ps ps').
  { rewrite (BSPNode_trim_unfold (mkBSPNode (Some hp) a None b) hp input eq_refl).
    unfold bind at 1, alloc_array at 1. unfold bind at 1, alloc_array at 1.
    cbn [varrs polys parrs geoms].
    set (h0 := mkHeap (varrs h) (polys h) ((parrs h ++ [[]]) ++ [[]]) (geoms h)).
    assert (Hout_eq : length (parrs h ++ [[]]) = S (length (parrs h)))
      by (rewrite length_app; simpl; lia).
    rewrite Hout_eq. set (out := S (length (parrs h))). set (inside := length (parrs h)).
    assert (Hinside : parrs h0 !! inside = Some []).
    { unfold h0, inside; cbn [parrs].
      rewrite lookup_app_l by (rewrite length_app; simpl; lia). apply lookup_snoc. }
    assert (Hout : parrs h0 !! out = Some []).
    { unfold h0, out; cbn [parrs]. rewrite <- Hout_eq. apply lookup_snoc. }
    assert (Hin0 : parrs h0 !! input = Some ps).
    { unfold h0; cbn [parrs]. rewrite !lookup_app_l; [done|by eapply lookup_lt_Some|].
      rewrite length_app. apply lookup_lt_Some in Hin. lia. }
    rewrite (bind_Ok _ _ _ _ _ (read_array_Some _ _ _ Hin0)).
    destruct (forEach_one_side hp Location.front out out inside inside ps ltac:(done) h0)
      as (ps' & h1 & Hrun & Hg1 & Harr & Himg); try (by eexists).
    { exact Hall. }
    rewrite (bool_decide_eq_true_2 (Location.front = Location.front)) in Harr by done.
    rewrite (bind_Ok _ _ _ _ _ Hrun).
    unfold trim_survivors. cbn [front behind].
    rewrite (bind_Ok _ _ _ out h1 eq_refl).
    assert (Hout1 : parrs h1 !! out = Some ps').
    { rewrite Harr, Hout. cbn. by rewrite decide_True. }
    assert (Hinside1 : parrs h1 !! inside = Some []).
    { rewrite Harr, Hinside. cbn. rewrite decide_False; [done|unfold out, inside; lia]. }
    assert (Hbehind : exists r2 h3,
      (match b with Some b' => BSPNode_trim b' inside | None => alloc_array [] end) h1
      = (Ok r2, h3)
      /\ parrs h3 !! r2 = Some [] /\ kept (length (parrs h1)) h1 h3).
    { destruct b as [b'|].
      - destruct (trim_inside b' inside [] h1 Hinside1 (Forall_nil_2 _))
          as (r2 & h3 & Hr2 & Ho2 & _).
        exists r2, h3. split; [done|]. split; [done|].
        pose proof (safe_BSPNode_trim (length (parrs h1)) b' inside h1 (le_n _))
          as [Hk _]. by rewrite Hr2 in Hk.
      - eexists _, _. split; [reflexivity|]. cbn [parrs].
        split; [apply lookup_snoc|apply kept_snoc]. }
    destruct Hbehind as (r2 & h3 & Hr2 & Ho2 & Hk3).
    rewrite (bind_Ok _ _ _ _ _ Hr2).
    assert (Hout3 : parrs h3 !! out = Some ps').
    { destruct Hk3 as [_ Hk3]. rewrite Hk3; [done|by eapply lookup_lt_Some]. }
    destruct (collects_concat h3 out r2 ps' [] Hout3 Ho2)
      as (r3 & h4 & Hr3 & Ho3 & [Hg4 _] & _).
    rewrite app_nil_r in Ho3. exists r3, ps', h4. split; [done|]. split; [done|].
    eapply Forall2_impl; [exact Himg|]. intros p p' Hi.
    apply (image_target _ _ h p h1 h4 p'); [etrans; [exact (proj1 Hk3)|done]|exact Hi]. }
  destruct Hmain as (r & ps' & h' & Hrun & Hr & Himg).
  exists r, ps', h'. split; [done|].
  destruct (safe_BSPNode_trim (length (parrs h)) (mkBSPNode (Some hp) a None b) input h
              (le_n _)) as [Hk Hfresh].
  rewrite Hrun in Hk, Hfresh. split; [by apply Hfresh|]. split; [done|].
  split; [done|by apply kept_extends].
Qed.

Lemma trim_keeps_what_is_in_front_witness :
  exists r ps' h',
    BSPNode_trim (mkBSPNode (Some (new_Plane (new_Vector 0 0 1) 5)) 0 None None) 0
      two_triangles = (Ok r, h')
    /\ 1 <= r
    /\ parrs h' !! r = Some ps'
    /\ Forall2 (fun p p' => image (fun vs => vs) plane_of two_triangles p h' p') [0; 1] ps'
    /\ extends two_triangles h'.
Proof.
  apply (trim_keeps_what_is_in_front (new_Plane (new_Vector 0 0 1) 5) 0 None 0 [0; 1]
           two_triangles); [reflexivity|].
  repeat constructor;
    try (eexists _, _;
         (split; [vm_compute; reflexivity|split; [vm_compute; reflexivity|vm_compute; lia]]));
    vm_compute; reflexivity.
Defined.

